(** * telegram-mcp-client: session store, capability registry and routing,
      background retry supervisor

    A shallow embedding of
    - [src/types/index.ts]             (the records),
    - [src/session/manager.ts]         (class [SessionManager]),
    - [src/mcp/client.ts]              (class [MCPClient]),
    - [src/bot/telegram-bot.ts]        (method [processTranslationInBackground]
                                         and the upload path of the document
                                         handler),
    followed by the properties of these operations.

    Conventions of the embedding.
    - A JavaScript [number] that holds a millisecond time stamp, a chat id,
      a delay or an error code is an integer of [Z].
    - A JavaScript string is a [string] (a sequence of bytes, UTF-8 for the
      text outside ASCII).  The operations used by the code ([startsWith],
      [endsWith], [includes], [split], the anchored replace) compare code
      units, and all their patterns are ASCII.
    - [Date.now()] is the parameter [now] of the operation that reads it: the
      operations of the session store are synchronous and read the clock of
      the instant at which they run.
    - An [await]ed call into the SDK, the chat transport or the file system is
      answered by an environment record; a call that rejects yields [inl e]. *)

From Stdlib Require Import ZArith Lia Ascii String.
From stdpp Require Import gmap strings list fin_maps pretty.

Local Open Scope Z_scope.

(** ** JavaScript values used by the code *)

Module JS.

(** An [Error] object: its [message], and the numeric [code] that the
    protocol errors of the SDK carry. *)
Record Error := mkError { message : string; code : option Z }.

(** The outcome of an awaited call: rejected with an error, or resolved. *)
Definition Result (A : Type) : Type := Error + A.

(** Values of type [unknown]. *)
#[local] Unset Elimination Schemes.
Inductive Value :=
| VUndefined
| VNull
| VBool (b : bool)
| VNum (n : Z)
| VStr (s : string)
| VArr (l : list Value)
| VObj (fields : list (string * Value)).
#[local] Set Elimination Schemes.

(** Truthiness of a string: only the empty string is falsy. *)
Definition truthy (s : string) : bool :=
  match s with EmptyString => false | String _ _ => true end.

(** [a || b] on strings. *)
Definition or_else (a b : string) : string := if truthy a then a else b.

(** [a || b] where [a] may be [undefined]. *)
Definition opt_or_else (a : option string) (b : string) : string :=
  match a with Some s => or_else s b | None => b end.

(** [Array.prototype.slice(-n)]: the last [n] elements, the whole array
    when it is shorter. *)
Definition slice_last {A} (n : nat) (l : list A) : list A :=
  drop (length l - n) l.

(** [s.startsWith(p)]. *)
Definition startsWith (p s : string) : bool := String.prefix p s.

(** [s.endsWith(suffix)]: some tail of [s] is [suffix]. *)
Fixpoint endsWith (suffix s : string) : bool :=
  if String.eqb s suffix then true
  else match s with
       | EmptyString => false
       | String _ s' => endsWith suffix s'
       end.

(** [s.includes(sub)]: [sub] is a prefix of some tail of [s]. *)
Fixpoint includes (sub s : string) : bool :=
  if String.prefix sub s then true
  else match s with
       | EmptyString => false
       | String _ s' => includes sub s'
       end.

(** [s.split(c)] for a separator of one character: never empty. *)
Fixpoint split (c : ascii) (s : string) : list string :=
  match s with
  | EmptyString => [EmptyString]
  | String a s' =>
      if Ascii.eqb a c then EmptyString :: split c s'
      else match split c s' with
           | seg :: segs => String a seg :: segs
           | [] => [String a EmptyString]
           end
  end.

(** [array.pop()] read as a value: the last element, [undefined] on the
    empty array. *)
Definition pop (l : list string) : option string := last l.

(** The class [\d] of a regular expression without the unicode flag. *)
Definition is_digit (a : ascii) : bool :=
  (48 <=? nat_of_ascii a)%nat && (nat_of_ascii a <=? 57)%nat.

Fixpoint skip_digits (s : string) : string :=
  match s with
  | String a s' => if is_digit a then skip_digits s' else s
  | EmptyString => EmptyString
  end.

(** [s.replace(/^\d+_/, '')]: a leading run of one or more digits that is
    followed by an underscore is removed together with the underscore.  The
    run is the longest one, since the character after it has to be [_]. *)
Definition replace_leading_digits_underscore (s : string) : string :=
  match s with
  | String a s' =>
      if is_digit a then
        match skip_digits s' with
        | String "_"%char rest => rest
        | _ => s
        end
      else s
  | EmptyString => s
  end.

(** [path.join(dir, file)] for a normalized [dir] and a [file] that is one
    segment. *)
Definition join (dir file : string) : string := dir +:+ "/" +:+ file.

(** The line feed of a template literal. *)
Definition nl : string := String "010"%char EmptyString.

(** A [Set<string>]: the elements in insertion order, without repetition. *)
Module StrSet.
Abbreviation t := (list string).
Definition empty : t := [].
Definition has (x : string) (s : t) : bool := bool_decide (x ∈ s).
Definition add (x : string) (s : t) : t := if has x s then s else s ++ [x].
Definition delete (x : string) (s : t) : t :=
  filter (λ y, y ≠ x) s.
Definition to_array (s : t) : list string := s.
End StrSet.

(** A [Map<string, V>] whose iteration order is observed: the entries in
    insertion order, one per key.  [set] on a present key replaces the
    value in place, on an absent key appends the entry. *)
Module StrMap.
Abbreviation t V := (list (string * V)).

Definition empty {V} : t V := [].

Fixpoint get {V} (k : string) (m : t V) : option V :=
  match m with
  | [] => None
  | (k', v) :: m' => if decide (k' = k) then Some v else get k m'
  end.

Fixpoint set {V} (k : string) (v : V) (m : t V) : t V :=
  match m with
  | [] => [(k, v)]
  | (k', v') :: m' =>
      if decide (k' = k) then (k', v) :: m' else (k', v') :: set k v m'
  end.

Definition delete {V} (k : string) (m : t V) : t V :=
  filter (λ entry, entry.1 ≠ k) m.

Definition keys {V} (m : t V) : list string := m.*1.
Definition values {V} (m : t V) : list V := m.*2.
Definition entries {V} (m : t V) : list (string * V) := m.
End StrMap.

(** A plain object [{}] used as a record from names to values, written by
    [o[name] = value] with values that are objects.  The name [__proto__] is
    the accessor of [Object.prototype]: an assignment to it replaces the
    prototype of the object and creates no property; [proto] is [None]
    while the object has the prototype it was created with.  The order of
    the keys is left out. *)
Module Obj.
Record t (V : Type) := make { own : gmap string V; proto : option V }.
Arguments make {V} _ _.
Arguments own {V} _.
Arguments proto {V} _.

Definition empty {V} : t V := {| own := ∅; proto := None |}.

Definition assign {V} (name : string) (value : V) (o : t V) : t V :=
  if decide (name = "__proto__")
  then {| own := own o; proto := Some value |}
  else {| own := <[name := value]> (own o); proto := proto o |}.

(** What the assignments have left under [name]: the property of that
    name, and under [__proto__] the prototype that was installed. *)
Definition assigned {V} (name : string) (o : t V) : option V :=
  if decide (name = "__proto__") then proto o else own o !! name.
End Obj.

End JS.

(** ** [src/types/index.ts] *)

Module Types.

Record MCPServerConfig := {
  id : string;
  name : string;
  command : string;
  args : list string;
  env : option (list (string * string));
  autoConnect : option bool
}.

Record InputSchema := {
  type : string;
  properties : option (list (string * JS.Value));
  required : option (list string)
}.

Record MCPTool := {
  tool_name : string;
  description : string;
  inputSchema : InputSchema
}.

Inductive Role := user | assistant | system.

Record ConversationMessage := {
  role : Role;
  content : string;
  timestamp : Z
}.

Record Session := {
  userId : string;
  conversationHistory : list ConversationMessage;
  activeServers : JS.StrSet.t;
  createdAt : Z;
  lastActivity : Z
}.

End Types.

(** ** [src/session/manager.ts] *)

Module SessionManager.
Import Types.

(** The private field [sessions].  No operation of the class observes the
    iteration order of this map beyond visiting every entry once. *)
Abbreviation t := (gmap string Session).

Definition SESSION_TIMEOUT : Z := 30 * 60 * 1000.

(** The session object is shared between the map and the caller: the
    returned store already holds the session that is returned.  The clock
    is read twice for a user without a session, [created] being the reading
    for [createdAt] and [now] the one for [lastActivity]; for a user with a
    session it is read once, which is [now]. *)
Definition getSession (created now : Z) (uid : string) (sessions : t)
  : Session * t :=
  match sessions !! uid with
  | None =>
      let session :=
        {| userId := uid;
           conversationHistory := [];
           activeServers := JS.StrSet.empty;
           createdAt := created;
           lastActivity := now |} in
      (session, <[uid := session]> sessions)
  | Some session =>
      let session :=
        {| userId := userId session;
           conversationHistory := conversationHistory session;
           activeServers := activeServers session;
           createdAt := createdAt session;
           lastActivity := now |} in
      (session, <[uid := session]> sessions)
  end.

(** Assignment to a field of the shared session object. *)
Definition set_conversationHistory (h : list ConversationMessage)
    (s : Session) : Session :=
  {| userId := userId s;
     conversationHistory := h;
     activeServers := activeServers s;
     createdAt := createdAt s;
     lastActivity := lastActivity s |}.

Definition set_activeServers (a : JS.StrSet.t) (s : Session) : Session :=
  {| userId := userId s;
     conversationHistory := conversationHistory s;
     activeServers := a;
     createdAt := createdAt s;
     lastActivity := lastActivity s |}.

Definition addMessage (created now : Z) (uid : string)
    (message : ConversationMessage) (sessions : t) : t :=
  let '(session, sessions) := getSession created now uid sessions in
  let pushed := conversationHistory session ++ [message] in
  let history :=
    if bool_decide (20 < length pushed)%nat
    then JS.slice_last 20 pushed
    else pushed in
  <[uid := set_conversationHistory history session]> sessions.

Definition clearHistory (created now : Z) (uid : string) (sessions : t) : t :=
  let '(session, sessions) := getSession created now uid sessions in
  <[uid := set_conversationHistory [] session]> sessions.

Definition addActiveServer (created now : Z) (uid serverId : string)
    (sessions : t) : t :=
  let '(session, sessions) := getSession created now uid sessions in
  <[uid := set_activeServers
             (JS.StrSet.add serverId (activeServers session)) session]>
    sessions.

Definition removeActiveServer (created now : Z) (uid serverId : string)
    (sessions : t) : t :=
  let '(session, sessions) := getSession created now uid sessions in
  <[uid := set_activeServers
             (JS.StrSet.delete serverId (activeServers session)) session]>
    sessions.

Definition getActiveServers (created now : Z) (uid : string) (sessions : t)
  : list string * t :=
  let '(session, sessions) := getSession created now uid sessions in
  (JS.StrSet.to_array (activeServers session), sessions).

Definition deleteSession (uid : string) (sessions : t) : t :=
  delete uid sessions.

(** The loop of [cleanupInactiveSessions]: every entry is visited once and
    an entry that is deleted is the one being visited.  The result is the
    store and the counter [cleaned]. *)
Definition cleanup_step (now : Z) (acc : t * nat) (entry : string * Session)
  : t * nat :=
  let '(sessions, cleaned) := acc in
  let '(uid, session) := entry in
  if bool_decide (now - lastActivity session > SESSION_TIMEOUT)
  then (delete uid sessions, S cleaned)
  else (sessions, cleaned).

Definition cleanupInactiveSessions (now : Z) (sessions : t) : t * nat :=
  foldl (cleanup_step now) (sessions, 0%nat) (map_to_list sessions).

End SessionManager.


(** ** Awaited computations

    A computation over a world [W] that either resolves with a value or
    rejects with an error; the world records what has happened so far.
    [try_catch] is the [try { .. } catch (error) { .. }] statement: the
    effects of the body up to the throw are kept. *)

Module Eff.
Section Eff.
Context {W : Type}.

Definition M (A : Type) : Type := W → JS.Result A * W.

Definition ret {A} (a : A) : M A := λ w, (inr a, w).

Definition bind {A B} (m : M A) (k : A → M B) : M B :=
  λ w, match m w with
       | (inl e, w') => (inl e, w')
       | (inr a, w') => k a w'
       end.

Definition throw {A} (e : JS.Error) : M A := λ w, (inl e, w).

Definition try_catch {A} (body : M A) (handler : JS.Error → M A) : M A :=
  λ w, match body w with
       | (inl e, w') => handler e w'
       | (inr a, w') => (inr a, w')
       end.

Definition gets {A} (f : W → A) : M A := λ w, (inr (f w), w).

Definition modify (f : W → W) : M unit := λ w, (inr tt, f w).

(** [await] of a call whose answer the environment gives. *)
Definition await {A} (answer : JS.Result A) : M A := λ w, (answer, w).

Definition await_void (answer : option JS.Error) : M unit :=
  λ w, match answer with Some e => (inl e, w) | None => (inr tt, w) end.

End Eff.
End Eff.

Declare Scope eff_scope.
Delimit Scope eff_scope with eff.
Notation "x <- m ;; k" := (Eff.bind m (λ x, k))
  (at level 100, m at next level, right associativity) : eff_scope.
Notation "m ;; k" := (Eff.bind m (λ _, k))
  (at level 100, right associativity) : eff_scope.

(** ** [src/mcp/client.ts] *)

Module MCPClient.
Import Types.

(** The objects of the SDK.  A transport is built from the launch fields of
    the configuration; a client is built with the fixed client information
    and options and is connected through one transport. *)
Record StdioClientTransport := {
  transport_command : string;
  transport_args : list string;
  transport_env : option (list (string * string))
}.

Record Client := {
  client_info_name : string;
  client_info_version : string;
  client_transport : StdioClientTransport
}.

(** A tool as the listing of the SDK returns it: the description is
    optional. *)
Record ListedTool := {
  listed_name : string;
  listed_description : option string;
  listed_inputSchema : InputSchema
}.

(** The result of [callTool], as far as the callers inspect it:
    an object with an optional [content] array of typed items, or a value
    that is not an object. *)
Record ContentItem := { item_type : string; item_text : string }.

Inductive ToolResult :=
| ResultObject (content : option (list ContentItem))
| ResultOther.

Definition Args := list (string * JS.Value).

(** The answers of the SDK to the awaited calls of this class. *)
Record Sdk := {
  client_connect : Client → option JS.Error;
  client_listTools : Client → JS.Result (list ListedTool);
  client_close : Client → option JS.Error;
  transport_close : StdioClientTransport → option JS.Error;
  client_callTool : Client → string → Args → JS.Result ToolResult
}.

Inductive LogEntry :=
| LogInfo (text : string)
| LogError (text : string) (error : JS.Error).

(** A request that was sent to a provider: the server id under which the
    client is stored, the client, and the call. *)
Record ProviderCall := {
  call_server : string;
  call_client : Client;
  call_tool : string;
  call_args : Args
}.

(** The three private maps of the class. *)
Record t := {
  clients : JS.StrMap.t Client;
  transports : JS.StrMap.t StdioClientTransport;
  availableTools : JS.StrMap.t (list MCPTool)
}.

Definition empty : t :=
  {| clients := JS.StrMap.empty;
     transports := JS.StrMap.empty;
     availableTools := JS.StrMap.empty |}.

(** The world of the operations: the object, the log, the provider calls. *)
Record World := {
  this : t;
  logged : list LogEntry;
  called : list ProviderCall
}.

Definition start (st : t) : World :=
  {| this := st; logged := []; called := [] |}.

Definition logger (entry : LogEntry) : Eff.M (W := World) unit :=
  Eff.modify (λ w,
    {| this := this w; logged := logged w ++ [entry]; called := called w |}).

Definition update (f : t → t) : Eff.M (W := World) unit :=
  Eff.modify (λ w,
    {| this := f (this w); logged := logged w; called := called w |}).

Definition record_call (c : ProviderCall) : Eff.M (W := World) unit :=
  Eff.modify (λ w,
    {| this := this w; logged := logged w; called := called w ++ [c] |}).

Definition set_client (k : string) (c : Client) (st : t) : t :=
  {| clients := JS.StrMap.set k c (clients st);
     transports := transports st;
     availableTools := availableTools st |}.

Definition set_transport (k : string) (tr : StdioClientTransport) (st : t)
  : t :=
  {| clients := clients st;
     transports := JS.StrMap.set k tr (transports st);
     availableTools := availableTools st |}.

Definition set_tools (k : string) (tools : list MCPTool) (st : t) : t :=
  {| clients := clients st;
     transports := transports st;
     availableTools := JS.StrMap.set k tools (availableTools st) |}.

Definition delete_client (k : string) (st : t) : t :=
  {| clients := JS.StrMap.delete k (clients st);
     transports := transports st;
     availableTools := availableTools st |}.

Definition delete_transport (k : string) (st : t) : t :=
  {| clients := clients st;
     transports := JS.StrMap.delete k (transports st);
     availableTools := availableTools st |}.

Definition delete_tools (k : string) (st : t) : t :=
  {| clients := clients st;
     transports := transports st;
     availableTools := JS.StrMap.delete k (availableTools st) |}.

(** The two objects that [connect] builds. *)
Definition new_StdioClientTransport (config : MCPServerConfig)
  : StdioClientTransport :=
  {| transport_command := command config;
     transport_args := args config;
     transport_env := env config |}.

Definition new_Client (transport : StdioClientTransport) : Client :=
  {| client_info_name := "telegram-mcp-client";
     client_info_version := "1.0.0";
     client_transport := transport |}.

Definition convert_tool (tool : ListedTool) : MCPTool :=
  {| tool_name := listed_name tool;
     description := JS.opt_or_else (listed_description tool) "";
     inputSchema := listed_inputSchema tool |}.

Section Operations.
Variable sdk : Sdk.
Local Open Scope eff_scope.

Definition connect (config : MCPServerConfig) : Eff.M (W := World) unit :=
  Eff.try_catch
    (logger (LogInfo ("Connecting to MCP server: " +:+ name config
                        +:+ " (" +:+ id config +:+ ")")) ;;
     let transport := new_StdioClientTransport config in
     let client := new_Client transport in
     Eff.await_void (client_connect sdk client) ;;
     update (set_client (id config) client) ;;
     update (set_transport (id config) transport) ;;
     toolsResponse <- Eff.await (client_listTools sdk client) ;;
     let tools := convert_tool <$> toolsResponse in
     update (set_tools (id config) tools) ;;
     logger (LogInfo ("Connected to " +:+ name config +:+ ", found "
                        +:+ pretty (length tools) +:+ " tools: "
                        +:+ String.concat ", " (tool_name <$> tools))))
    (λ error,
       logger (LogError ("Failed to connect to " +:+ name config +:+ ":")
                 error) ;;
       Eff.throw error).

Definition disconnect (serverId : string) : Eff.M (W := World) unit :=
  Eff.try_catch
    (client <- Eff.gets (λ w, JS.StrMap.get serverId (clients (this w))) ;;
     match client with
     | Some client =>
         Eff.await_void (client_close sdk client) ;;
         update (delete_client serverId)
     | None => Eff.ret tt
     end ;;
     transport <-
       Eff.gets (λ w, JS.StrMap.get serverId (transports (this w))) ;;
     match transport with
     | Some transport =>
         Eff.await_void (transport_close sdk transport) ;;
         update (delete_transport serverId)
     | None => Eff.ret tt
     end ;;
     update (delete_tools serverId) ;;
     logger (LogInfo ("Disconnected from server: " +:+ serverId)))
    (λ error,
       logger (LogError ("Failed to disconnect from " +:+ serverId +:+ ":")
                 error) ;;
       Eff.throw error).

Definition getAllTools (st : t) : list MCPTool :=
  concat (JS.StrMap.values (availableTools st)).

Definition getConnectedServers (st : t) : list string :=
  JS.StrMap.keys (clients st).

(** The loop that looks for the server of a tool: the entries are visited in
    the order of the map, and the first one that has the tool ends the
    loop. *)
Fixpoint find_owner (toolName : string)
    (entries : list (string * list MCPTool)) : option string :=
  match entries with
  | [] => None
  | (serverId, tools) :: rest =>
      if existsb (λ t, bool_decide (tool_name t = toolName)) tools
      then Some serverId
      else find_owner toolName rest
  end.

Definition executeTool (toolName : string) (arguments : Args)
  : Eff.M (W := World) ToolResult :=
  logger (LogInfo ("Executing tool: " +:+ toolName +:+ " with args:")) ;;
  targetServerId <-
    Eff.gets (λ w,
      find_owner toolName (JS.StrMap.entries (availableTools (this w)))) ;;
  match targetServerId with
  | Some targetServerId =>
      if JS.truthy targetServerId then
        client <-
          Eff.gets (λ w, JS.StrMap.get targetServerId (clients (this w))) ;;
        match client with
        | None =>
            Eff.throw (JS.mkError ("Client for server " +:+ targetServerId
                                     +:+ " not found") None)
        | Some client =>
            Eff.try_catch
              (record_call {| call_server := targetServerId;
                              call_client := client;
                              call_tool := toolName;
                              call_args := arguments |} ;;
               result <-
                 Eff.await (client_callTool sdk client toolName arguments) ;;
               logger (LogInfo ("Tool " +:+ toolName
                                  +:+ " executed successfully")) ;;
               Eff.ret result)
              (λ error,
                 logger (LogError ("Failed to execute tool " +:+ toolName
                                     +:+ ":") error) ;;
                 Eff.throw error)
        end
      else
        Eff.throw (JS.mkError ("Tool " +:+ toolName
                                 +:+ " not found in any connected server")
                     None)
  | None =>
      Eff.throw (JS.mkError ("Tool " +:+ toolName
                               +:+ " not found in any connected server")
                   None)
  end.

(** [listResources] and [readResource]; the parameter is the answer of the
    SDK to the call on a client. *)
Definition listResources {R} (client_listResources : Client → JS.Result R)
    (serverId : string) : Eff.M (W := World) R :=
  client <- Eff.gets (λ w, JS.StrMap.get serverId (clients (this w))) ;;
  match client with
  | None =>
      Eff.throw (JS.mkError ("Server " +:+ serverId +:+ " not connected")
                   None)
  | Some client => Eff.await (client_listResources client)
  end.

Definition readResource {R}
    (client_readResource : Client → string → JS.Result R)
    (serverId uri : string) : Eff.M (W := World) R :=
  client <- Eff.gets (λ w, JS.StrMap.get serverId (clients (this w))) ;;
  match client with
  | None =>
      Eff.throw (JS.mkError ("Server " +:+ serverId +:+ " not connected")
                   None)
  | Some client => Eff.await (client_readResource client uri)
  end.

(** [disconnectAll] starts one [disconnect] for each key of [clients] and
    waits for them with [Promise.all].  The keys are distinct and each
    [disconnect] reads and writes the entries of its own key only, so the
    object that is left when all of them have settled does not depend on the
    order in which the SDK answers; the model runs them in the order of the
    keys.  The value is the outcome of each [disconnect]: the promise of
    [Promise.all] resolves when all of them are [inr], and rejects with the
    error of one of the others. *)
Fixpoint disconnect_each (serverIds : list string)
  : Eff.M (W := World) (list (string * JS.Result unit)) :=
  match serverIds with
  | [] => Eff.ret []
  | serverId :: rest =>
      λ w,
        let '(outcome, w1) := disconnect serverId w in
        let '(outcomes, w2) := disconnect_each rest w1 in
        match outcomes with
        | inr settled => (inr ((serverId, outcome) :: settled), w2)
        | inl error => (inl error, w2)
        end
  end.

Definition disconnectAll
  : Eff.M (W := World) (list (string * JS.Result unit)) :=
  serverIds <- Eff.gets (λ w, JS.StrMap.keys (clients (this w))) ;;
  disconnect_each serverIds.

End Operations.

(** Running one operation on an object. *)
Definition run {A} (op : Eff.M (W := World) A) (st : t)
  : JS.Result A * World := op (start st).

End MCPClient.

(** ** [src/bot/telegram-bot.ts]: the background translation *)

Module TelegramBot.
Import Types.

Definition MAX_RETRIES : nat := 3.

(** The requests of the bot to the chat transport. *)
Inductive Request :=
| sendMessage (chatId : Z) (text : string)
| sendChatAction (chatId : Z) (action : string)
| sendDocument (chatId : Z) (source : string).

(** What the background task does, in order: the log line that opens an
    attempt, a request that the transport accepted, a request that it
    rejected, a pause [await new Promise(resolve => setTimeout(resolve, ms))],
    a call that reached a provider, a listing of a directory.  The other log
    lines are left out. *)
Inductive Event :=
| Started (attempt : nat)
| Sent (request : Request)
| NotSent (request : Request) (error : JS.Error)
| Paused (ms : Z)
| Called (call : MCPClient.ProviderCall)
| Listed (dir : string).

(** The object that [JSON.parse] yields for the text of a tool result, as far
    as the code reads it: three optional string fields. *)
Record Payload := {
  translatedFile : option string;
  originalFile : option string;
  fileSizeReadable : option string
}.

(** The surroundings of one background task.  The transport is asked at
    every request, [ticks] being the number of events so far; the provider
    side and the file system are asked once per attempt for each question
    and are indexed by the attempt.  [mcpClient n] is the state of
    [this.mcpClient] when attempt [n] calls [executeTool]: commands of other
    chats may have changed it in between. *)
Record Env := {
  cwd : string;
  toLowerCase : string → string;
  JSON_parse : string → JS.Result Payload;
  telegram : nat → Request → option JS.Error;
  mcpClient : nat → MCPClient.t;
  sdk : nat → MCPClient.Sdk;
  existsSync : nat → string → bool;
  stat : nat → string → JS.Result Z;
  readdir : nat → string → JS.Result (list string)
}.

Abbreviation World := (list Event).
Abbreviation M := (Eff.M (W := World)).

(** The local variables that the loop over the content items assigns. *)
Record Parsed := {
  translatedFilePath : option string;
  originalFileName : string;
  fileSize : string
}.

(** How the loop of the function goes on after one pass. *)
Inductive Flow :=
| Return
| Continue (lastError : JS.Error).

Inductive LoopEnd :=
| Returned
| Exhausted (lastError : option JS.Error)
| OutOfFuel.

(** The name that the timeout search derives from the path of the upload. *)
Definition search_suffix (filePath : string) : string :=
  let fileName := JS.opt_or_else (JS.pop (JS.split "/" filePath)) "" in
  JS.replace_leading_digits_underscore fileName.

(** The predicate of [files.find] in the timeout branch. *)
Definition matches_translated (filePath f : string) : bool :=
  JS.startsWith "translated_" f && JS.endsWith (search_suffix filePath) f.

(** [error?.message?.includes('timeout') || error?.code === -32001]. *)
Definition is_timeout (error : JS.Error) : bool :=
  JS.includes "timeout" (JS.message error)
  || bool_decide (JS.code error = Some (-32001)).

(** The template literals of the messages. *)
Definition retry_text (attempt : nat) : string :=
  "🔄 Reintentando traducción (intento " +:+ pretty attempt +:+ "/"
    +:+ pretty MAX_RETRIES +:+ ")...".

Definition completed_text (originalFileName fileSize : string) : string :=
  "✅ ¡Traducción completada!" +:+ JS.nl +:+ JS.nl
    +:+ "📄 Original: " +:+ originalFileName +:+ JS.nl
    +:+ "📊 Tamaño: " +:+ fileSize.

Definition recovered_text : string :=
  "✅ ¡Traducción completada exitosamente!".

Definition backoff_text (attempt : nat) (delaySeconds : Z) : string :=
  "⚠️ Intento de traducción " +:+ pretty attempt
    +:+ " falló. Reintentando en " +:+ pretty delaySeconds
    +:+ " segundos...".

Definition failure_text (lastError : option JS.Error) : string :=
  "❌ La traducción falló después de " +:+ pretty MAX_RETRIES
    +:+ " intentos." +:+ JS.nl +:+ JS.nl
    +:+ "Error: "
    +:+ JS.opt_or_else (JS.message <$> lastError) "Error desconocido"
    +:+ JS.nl +:+ JS.nl
    +:+ "Por favor intenta de nuevo más tarde o contacta a soporte.".

(** The path under which the document handler stores an upload. *)
Definition localFilePath (cwd userId file_name : string) : string :=
  JS.join (JS.join cwd "temp") (userId +:+ "_" +:+ file_name).

Section Background.
Variable E : Env.
Variable chatId : Z.
Variable filePath : string.
Variable instructions : string.
Local Open Scope eff_scope.

Definition request (r : Request) : M unit :=
  λ w, match telegram E (length w) r with
       | Some e => (inl e, w ++ [NotSent r e])
       | None => (inr tt, w ++ [Sent r])
       end.

Definition setTimeout (ms : Z) : M unit :=
  Eff.modify (λ w, w ++ [Paused ms]).

(** [this.mcpClient.executeTool] during attempt [attempt]; the calls that
    reach a provider enter the trace. *)
Definition executeTool (attempt : nat) (toolName : string)
    (arguments : MCPClient.Args) : M MCPClient.ToolResult :=
  λ w,
    let '(answer, mw) :=
      MCPClient.run (MCPClient.executeTool (sdk E attempt) toolName arguments)
        (mcpClient E attempt) in
    (answer, w ++ (Called <$> MCPClient.called mw)).

Definition fs_readdir (attempt : nat) (dir : string) : M (list string) :=
  λ w, (readdir E attempt dir, w ++ [Listed dir]).

Definition targetLang : string :=
  let lowerInstructions := toLowerCase E instructions in
  if JS.includes "to spanish" lowerInstructions
     || JS.includes "a español" lowerInstructions then "es"
  else if JS.includes "to english" lowerInstructions
          || JS.includes "a inglés" lowerInstructions then "en"
  else if JS.includes "to french" lowerInstructions
          || JS.includes "a francés" lowerInstructions then "fr"
  else "es".

(** One pass of the loop over [content]; an error of [JSON.parse] is caught
    and logged inside the pass. *)
Definition parse_item (acc : Parsed) (item : MCPClient.ContentItem)
  : Parsed :=
  if bool_decide (MCPClient.item_type item = "text") then
    match JSON_parse E (MCPClient.item_text item) with
    | inr data =>
        match translatedFile data with
        | Some file =>
            if JS.truthy file then
              {| translatedFilePath := Some file;
                 originalFileName :=
                   JS.or_else
                     (match originalFile data with
                      | Some original =>
                          JS.opt_or_else (JS.pop (JS.split "/" original)) ""
                      | None => ""
                      end)
                     (originalFileName acc);
                 fileSize :=
                   JS.opt_or_else (fileSizeReadable data) (fileSize acc) |}
            else acc
        | None => acc
        end
    | inl _ => acc
    end
  else acc.

Definition parse_result (result : MCPClient.ToolResult) : Parsed :=
  let initial :=
    {| translatedFilePath := None;
       originalFileName :=
         JS.or_else (JS.opt_or_else (JS.pop (JS.split "/" filePath)) "")
           "document";
       fileSize := "N/A" |} in
  match result with
  | MCPClient.ResultObject content =>
      foldl parse_item initial (default [] content)
  | MCPClient.ResultOther => initial
  end.

(** The [try] block, after [attempt++]: it ends in [return] or in a
    [throw]. *)
Definition try_block (attempt : nat) : M Flow :=
  Eff.modify (λ w, w ++ [Started attempt]) ;;
  (if bool_decide (1 < attempt)%nat then
     request (sendMessage chatId (retry_text attempt)) ;;
     setTimeout 5000
   else Eff.ret tt) ;;
  request (sendChatAction chatId "upload_document") ;;
  let sourceLang := "en" in
  result <- executeTool attempt "translate_pdf"
              [("filePath", JS.VStr filePath);
               ("sourceLang", JS.VStr sourceLang);
               ("targetLang", JS.VStr targetLang)] ;;
  let parsed := parse_result result in
  match translatedFilePath parsed with
  | Some path =>
      if existsSync E attempt path then
        fileStats <- Eff.await (stat E attempt path) ;;
        request (sendDocument chatId path) ;;
        request (sendMessage chatId
          (completed_text (originalFileName parsed) (fileSize parsed))) ;;
        Eff.ret Return
      else
        Eff.throw
          (JS.mkError ("Archivo traducido no encontrado: " +:+ path) None)
  | None =>
      Eff.throw (JS.mkError "Archivo traducido no encontrado: null" None)
  end.

(** The [catch] block. *)
Definition catch_block (attempt : nat) (error : JS.Error) : M Flow :=
  recovered <-
    (if is_timeout error then
       setTimeout 10000 ;;
       let tempDir := JS.join (cwd E) "temp" in
       files <- fs_readdir attempt tempDir ;;
       match find (λ f, matches_translated filePath f) files with
       | Some translatedFile =>
           if JS.truthy translatedFile then
             let fullPath := JS.join tempDir translatedFile in
             request (sendDocument chatId fullPath) ;;
             request (sendMessage chatId recovered_text) ;;
             Eff.ret true
           else Eff.ret false
       | None => Eff.ret false
       end
     else Eff.ret false) ;;
  if recovered : bool then Eff.ret Return
  else
    (if bool_decide (attempt < MAX_RETRIES)%nat then
       let delaySeconds := 2 ^ Z.of_nat attempt * 5 in
       request (sendMessage chatId (backoff_text attempt delaySeconds)) ;;
       setTimeout (delaySeconds * 1000)
     else Eff.ret tt) ;;
    Eff.ret (Continue error).

(** [while (attempt < MAX_RETRIES) { try { attempt++; .. } catch { .. } }].
    [fuel] bounds the number of tests of the loop condition. *)
Fixpoint while_attempts (fuel : nat) (attempt : nat)
    (lastError : option JS.Error) : M LoopEnd :=
  match fuel with
  | O => Eff.ret OutOfFuel
  | S fuel =>
      if bool_decide (attempt < MAX_RETRIES)%nat then
        let attempt := S attempt in
        flow <- Eff.try_catch (try_block attempt) (catch_block attempt) ;;
        match flow with
        | Return => Eff.ret Returned
        | Continue error => while_attempts fuel attempt (Some error)
        end
      else Eff.ret (Exhausted lastError)
  end.

(** The method.  [Some tt] is the resolved promise; [None] would be a loop
    that outlives its fuel. *)
Definition processTranslationInBackground (userId query : string)
  : M (option unit) :=
  finish <- while_attempts (S MAX_RETRIES) 0 None ;;
  match finish with
  | Returned => Eff.ret (Some tt)
  | OutOfFuel => Eff.ret None
  | Exhausted lastError =>
      request (sendMessage chatId (failure_text lastError)) ;;
      Eff.ret (Some tt)
  end.

End Background.

End TelegramBot.

(** ** The document handler: the launch of the background translation

    The handler does not await the task; it attaches a [catch] that sends
    one message to the chat, and a [catch] to that request which logs. *)

Module DocumentHandler.
Import TelegramBot.

Definition launch_error_text (error : JS.Error) : string :=
  "❌ Error en la traducción: " +:+ JS.message error.

Section Launch.
Variable E : Env.
Variable chatId : Z.
Local Open Scope eff_scope.

Definition launch (userId localFilePath query caption : string)
  : M (option unit) :=
  Eff.try_catch
    (processTranslationInBackground E chatId localFilePath
       (JS.or_else caption "Translate to Spanish") userId query)
    (λ error,
       Eff.try_catch
         (request E (sendMessage chatId (launch_error_text error)))
         (λ err, Eff.ret tt) ;;
       Eff.ret (Some tt)).

End Launch.

End DocumentHandler.

(** ** [src/mcp/llm-orchestrator.ts]

    The class works in any world [W] in which its log lines, the assignment
    of the API key and the requests to the model can be recorded ([emit]);
    [generateText] is the answer of the AI SDK to a request.  Numbers that
    are only passed on ([maxTokens], [temperature]) have the type
    [Number]. *)

Module LLMOrchestrator.
Import Types.

Section Orchestrator.
Context {Number W : Type}.
Local Open Scope eff_scope.

Record LLMConfig := {
  provider : string;
  model : string;
  apiKey : string;
  maxTokens : option Number;
  temperature : option Number
}.

(** What [google(modelId)] returns. *)
Inductive LanguageModel := google (modelId : string).

Record CoreMessage := { msg_role : Role; msg_content : string }.

Record CoreTool := {
  tool_description : string;
  parameters : InputSchema;
  execute : unit → JS.Result JS.Value
}.

Record ToolCall := { toolName : string; args : MCPClient.Args }.

Record Step := { toolCalls : option (list ToolCall) }.

Record GenerateResult := { text : string; steps : list Step }.

Record GenerateOptions := {
  opt_model : LanguageModel;
  opt_messages : list CoreMessage;
  opt_tools : JS.Obj.t CoreTool;
  opt_system : string;
  opt_maxTokens : option Number;
  opt_temperature : option Number;
  opt_maxSteps : Z
}.

Inductive Event :=
| Info (text : string)
| Failure (text : string) (error : JS.Error)
| ApiKeySet (key : string)
| Generated (options : GenerateOptions).

Variable emit : Event → Eff.M (W := W) unit.
Variable generateText : GenerateOptions → JS.Result GenerateResult.
Variable config : LLMConfig.

Definition getModel : Eff.M (W := W) LanguageModel :=
  if bool_decide (provider config = "google") then
    emit (ApiKeySet (apiKey config)) ;;
    Eff.ret (google (model config))
  else if bool_decide (provider config = "anthropic") then
    Eff.throw
      (JS.mkError
         "Anthropic provider not yet implemented. Install @ai-sdk/anthropic"
         None)
  else if bool_decide (provider config = "openai") then
    Eff.throw
      (JS.mkError
         "OpenAI provider not yet implemented. Install @ai-sdk/openai" None)
  else
    Eff.throw
      (JS.mkError ("Unsupported provider: " +:+ provider config) None).

(** [tools[tool.name] = {..}] on the plain object [tools], for every tool
    in the order of the array. *)
Definition convertMCPToolsToAITools (mcpTools : list MCPTool)
  : JS.Obj.t CoreTool :=
  foldl (λ tools tool,
           JS.Obj.assign (tool_name tool)
             {| tool_description := description tool;
                parameters := inputSchema tool;
                execute :=
                  λ _, inl (JS.mkError
                              "Tool execution should be handled externally"
                              None) |}
             tools)
    JS.Obj.empty mcpTools.

Definition systemPrompt : string :=
  "You are a helpful AI assistant with access to various tools through the Model Context Protocol (MCP)."
    +:+ JS.nl
    +:+ "You can help users by using the available tools to perform tasks, access data, and answer questions."
    +:+ JS.nl
    +:+ "Always use the appropriate tools when they can help answer the user's question."
    +:+ JS.nl
    +:+ "Provide clear, concise responses and explain what you're doing when using tools.".

Definition request (model : LanguageModel) (messages : list CoreMessage)
    (tools : JS.Obj.t CoreTool) : Eff.M (W := W) GenerateResult :=
  let options :=
    {| opt_model := model;
       opt_messages := messages;
       opt_tools := tools;
       opt_system := systemPrompt;
       opt_maxTokens := maxTokens config;
       opt_temperature := temperature config;
       opt_maxSteps := 10 |} in
  emit (Generated options) ;;
  Eff.await (generateText options).

Section Callback.
Variable onToolCall
  : string → MCPClient.Args → Eff.M (W := W) MCPClient.ToolResult.

(** The loop over the tool calls of a step in [processQuery]: a call that
    fails is logged and the loop goes on. *)
Fixpoint each_toolCall (calls : list ToolCall) : Eff.M (W := W) unit :=
  match calls with
  | [] => Eff.ret tt
  | toolCall :: rest =>
      emit (Info ("Tool call requested: " +:+ toolName toolCall)) ;;
      Eff.try_catch
        (result <- onToolCall (toolName toolCall) (args toolCall) ;;
         emit (Info ("Tool call " +:+ toolName toolCall +:+ " completed")))
        (λ error,
           emit (Failure ("Tool call " +:+ toolName toolCall +:+ " failed:")
                   error)) ;;
      each_toolCall rest
  end.

Fixpoint each_step (steps : list Step) : Eff.M (W := W) unit :=
  match steps with
  | [] => Eff.ret tt
  | step :: rest =>
      match toolCalls step with
      | Some calls =>
          if bool_decide (0 < length calls)%nat then each_toolCall calls
          else Eff.ret tt
      | None => Eff.ret tt
      end ;;
      each_step rest
  end.

Definition processQuery (query : string)
    (conversationHistory : list ConversationMessage)
    (availableTools : list MCPTool) : Eff.M (W := W) string :=
  Eff.try_catch
    (emit (Info ("Processing query with " +:+ pretty (length availableTools)
                   +:+ " available tools")) ;;
     model <- getModel ;;
     let tools := convertMCPToolsToAITools availableTools in
     let messages :=
       (λ msg, {| msg_role := role msg; msg_content := content msg |})
         <$> conversationHistory in
     let messages :=
       messages ++ [{| msg_role := user; msg_content := query |}] in
     response <- request model messages tools ;;
     emit (Info ("LLM response received with "
                   +:+ pretty (length (steps response)) +:+ " steps")) ;;
     each_step (steps response) ;;
     Eff.ret (text response))
    (λ error,
       emit (Failure "Failed to process query:" error) ;;
       Eff.throw error).

(** The loops of [processQuerySimple]: the call is awaited outside any
    [try], so the first call that fails ends the loops. *)
Fixpoint each_toolCall_simple (calls : list ToolCall)
  : Eff.M (W := W) unit :=
  match calls with
  | [] => Eff.ret tt
  | toolCall :: rest =>
      emit (Info ("Executing tool: " +:+ toolName toolCall)) ;;
      onToolCall (toolName toolCall) (args toolCall) ;;
      each_toolCall_simple rest
  end.

Fixpoint each_step_simple (steps : list Step) : Eff.M (W := W) unit :=
  match steps with
  | [] => Eff.ret tt
  | step :: rest =>
      match toolCalls step with
      | Some calls =>
          if bool_decide (0 < length calls)%nat
          then each_toolCall_simple calls
          else Eff.ret tt
      | None => Eff.ret tt
      end ;;
      each_step_simple rest
  end.

Definition processQuerySimple (query : string)
    (availableTools : list MCPTool) : Eff.M (W := W) string :=
  Eff.try_catch
    (emit (Info ("Processing simple query with "
                   +:+ pretty (length availableTools)
                   +:+ " available tools")) ;;
     model <- getModel ;;
     let tools := convertMCPToolsToAITools availableTools in
     response <-
       request model [{| msg_role := user; msg_content := query |}] tools ;;
     emit (Info "LLM response received") ;;
     each_step_simple (steps response) ;;
     Eff.ret (text response))
    (λ error,
       emit (Failure "Failed to process query:" error) ;;
       Eff.throw error).

End Callback.
End Orchestrator.

Arguments LLMConfig : clear implicits.
Arguments GenerateOptions : clear implicits.
Arguments Event : clear implicits.

End LLMOrchestrator.

(** ** [src/bot/telegram-bot.ts]: the handlers of the commands and of the
    text messages

    One run of a handler, from the update to the end of the handler.  The
    world is the two objects that the handlers share, what the handler did
    towards the chat, the providers and the model, the number of readings
    of the clock ([Date.now()]) that the handler and the session store have
    made, and the array [toolResults] of the text handler.  The log lines
    of the handlers themselves are left out. *)

Module Handlers.
Import Types.

Record Ctx := { message_text : string; from_id : Z; chat_id : Z }.

(** [ctx.reply(text)], [ctx.reply(text, { parse_mode })],
    [ctx.sendChatAction(action)], [ctx.replyWithDocument({ source })]. *)
Inductive Outgoing :=
| reply (text : string) (parse_mode : option string)
| sendChatAction (action : string)
| replyWithDocument (source : string).

Section Handlers.
Context {Number : Type}.
Local Open Scope eff_scope.

Inductive Event :=
| Sent (chatId : Z) (request : Outgoing)
| NotSent (chatId : Z) (request : Outgoing) (error : JS.Error)
| Called (call : MCPClient.ProviderCall)
| Orchestrated (e : LLMOrchestrator.Event Number).

Record World := {
  mcpClient : MCPClient.t;
  sessionManager : SessionManager.t;
  happened : list Event;
  readings : nat;
  toolResults : list (string * MCPClient.ToolResult)
}.

(** The surroundings of a run.  The chat, the SDK of the providers and the
    file system are asked with the number of events so far, the clock with
    the number of readings so far. *)
Record Env := {
  servers : list MCPServerConfig;
  llm : LLMOrchestrator.LLMConfig Number;
  telegram : nat → Z → Outgoing → option JS.Error;
  sdk : nat → MCPClient.Sdk;
  Date_now : nat → Z;
  generateText
    : LLMOrchestrator.GenerateOptions Number
      → JS.Result LLMOrchestrator.GenerateResult;
  JSON_parse : string → JS.Result TelegramBot.Payload;
  existsSync : nat → string → bool
}.

Variable E : Env.

Definition M := Eff.M (W := World).

Definition record (events : list Event) (w : World) : World :=
  {| mcpClient := mcpClient w;
     sessionManager := sessionManager w;
     happened := happened w ++ events;
     readings := readings w;
     toolResults := toolResults w |}.

Definition send (ctx : Ctx) (request : Outgoing) : M unit :=
  λ w, match telegram E (length (happened w)) (chat_id ctx) request with
       | Some e => (inl e, record [NotSent (chat_id ctx) request e] w)
       | None => (inr tt, record [Sent (chat_id ctx) request] w)
       end.

Definition now : M Z :=
  λ w, (inr (Date_now E (readings w)),
        {| mcpClient := mcpClient w;
           sessionManager := sessionManager w;
           happened := happened w;
           readings := S (readings w);
           toolResults := toolResults w |}).

Definition store (op : SessionManager.t → SessionManager.t) : M unit :=
  Eff.modify (λ w,
    {| mcpClient := mcpClient w;
       sessionManager := op (sessionManager w);
       happened := happened w;
       readings := readings w;
       toolResults := toolResults w |}).

(** A method of [this.sessionManager] that reaches the session of [uid]
    through [getSession]; [op] is the method, given the readings of the
    clock.  For a user without a session the clock is read twice, first for
    [createdAt] and then for [lastActivity]; for a user with a session it
    is read once, and the method has no use for a reading of creation. *)
Definition sessions (uid : string)
    (op : Z → Z → SessionManager.t → SessionManager.t) : M unit :=
  held <- Eff.gets (λ w, sessionManager w !! uid) ;;
  match held with
  | None =>
      created <- now ;;
      time <- now ;;
      store (op created time)
  | Some _ =>
      time <- now ;;
      store (op time time)
  end.

(** A method of [this.mcpClient]; the calls that reach a provider are
    recorded. *)
Definition mcp {A} (op : MCPClient.Sdk → Eff.M (W := MCPClient.World) A)
  : M A :=
  λ w, let '(answer, mw) :=
         MCPClient.run (op (sdk E (length (happened w)))) (mcpClient w) in
       (answer,
        {| mcpClient := MCPClient.this mw;
           sessionManager := sessionManager w;
           happened := happened w ++ (Called <$> MCPClient.called mw);
           readings := readings w;
           toolResults := toolResults w |}).

Definition emit (e : LLMOrchestrator.Event Number) : M unit :=
  Eff.modify (record [Orchestrated e]).

Definition userId (ctx : Ctx) : string := pretty (from_id ctx).

(** [ctx.message.text.split(' ').slice(1)]. *)
Definition command_args (ctx : Ctx) : list string :=
  drop 1 (JS.split " " (message_text ctx)).

Definition tool_lines (tools : list MCPTool) : string :=
  String.concat JS.nl
    ((λ t, "• " +:+ tool_name t +:+ ": " +:+ description t) <$> tools).

(** [this.bot.command('connect', ..)]. *)
Definition connect (ctx : Ctx) : M unit :=
  match command_args ctx with
  | [] =>
      send ctx
        (reply ("Usage: /connect <server_id>" +:+ JS.nl +:+ JS.nl
                  +:+ "Available servers: (configure in servers.json)")
           None)
  | serverId :: _ =>
      Eff.try_catch
        (send ctx (reply ("Connecting to " +:+ serverId +:+ "...") None) ;;
         match find (λ s, bool_decide (id s = serverId)) (servers E) with
         | None =>
             send ctx
               (reply ("Server " +:+ serverId
                         +:+ " not found in configuration.") None)
         | Some serverConfig =>
             mcp (λ sdk, MCPClient.connect sdk serverConfig) ;;
             sessions (userId ctx)
               (λ created time,
                  SessionManager.addActiveServer created time (userId ctx)
                    serverId) ;;
             tools <- Eff.gets (λ w, MCPClient.getAllTools (mcpClient w)) ;;
             send ctx
               (reply ("✅ Connected to " +:+ name serverConfig +:+ "!"
                         +:+ JS.nl +:+ JS.nl
                         +:+ "Available tools ("
                         +:+ pretty (length tools) +:+ "):" +:+ JS.nl
                         +:+ tool_lines tools) None)
         end)
        (λ error,
           send ctx
             (reply ("❌ Failed to connect to " +:+ serverId +:+ ": "
                       +:+ JS.message error) None))
  end.

(** [this.bot.command('disconnect', ..)]. *)
Definition disconnect (ctx : Ctx) : M unit :=
  match command_args ctx with
  | [] => send ctx (reply "Usage: /disconnect <server_id>" None)
  | serverId :: _ =>
      Eff.try_catch
        (mcp (λ sdk, MCPClient.disconnect sdk serverId) ;;
         sessions (userId ctx)
           (λ created time,
              SessionManager.removeActiveServer created time (userId ctx)
                serverId) ;;
         send ctx (reply ("✅ Disconnected from " +:+ serverId) None))
        (λ error,
           send ctx
             (reply ("❌ Failed to disconnect: " +:+ JS.message error)
                None))
  end.

(** [this.bot.command('reset', ..)]. *)
Definition reset (ctx : Ctx) : M unit :=
  sessions (userId ctx)
    (λ created time,
       SessionManager.clearHistory created time (userId ctx)) ;;
  send ctx (reply "✅ Conversation history cleared!" None).

(** The callback that the text handler gives to [processQuery]. *)
Definition onToolCall (ctx : Ctx) (toolName : string)
    (arguments : MCPClient.Args) : M MCPClient.ToolResult :=
  send ctx (sendChatAction "typing") ;;
  result <- mcp (λ sdk, MCPClient.executeTool sdk toolName arguments) ;;
  Eff.modify (λ w,
    {| mcpClient := mcpClient w;
       sessionManager := sessionManager w;
       happened := happened w;
       readings := readings w;
       toolResults := toolResults w ++ [(toolName, result)] |}) ;;
  Eff.ret result.

(** The loops over the results of the tools, after the answer was sent. *)
Fixpoint each_item (ctx : Ctx) (content : list MCPClient.ContentItem)
  : M unit :=
  match content with
  | [] => Eff.ret tt
  | item :: rest =>
      (if bool_decide (MCPClient.item_type item = "text") then
         Eff.try_catch
           (data <- Eff.await (JSON_parse E (MCPClient.item_text item)) ;;
            exists_ <-
              Eff.gets (λ w,
                match TelegramBot.translatedFile data with
                | Some file =>
                    JS.truthy file
                    && existsSync E (length (happened w)) file
                | None => false
                end) ;;
            if exists_ : bool then
              send ctx
                (replyWithDocument
                   (default "" (TelegramBot.translatedFile data)))
            else Eff.ret tt)
           (λ err, Eff.ret tt)
       else Eff.ret tt) ;;
      each_item ctx rest
  end.

Fixpoint each_result (ctx : Ctx)
    (results : list (string * MCPClient.ToolResult)) : M unit :=
  match results with
  | [] => Eff.ret tt
  | (toolName, result) :: rest =>
      match result with
      | MCPClient.ResultObject content => each_item ctx (default [] content)
      | MCPClient.ResultOther => Eff.ret tt
      end ;;
      each_result ctx rest
  end.

(** [this.bot.on('text', ..)]. *)
Definition text (ctx : Ctx) : M unit :=
  if JS.startsWith "/" (message_text ctx) then Eff.ret tt
  else
    let query := message_text ctx in
    Eff.try_catch
      (send ctx (sendChatAction "typing") ;;
       tools <- Eff.gets (λ w, MCPClient.getAllTools (mcpClient w)) ;;
       if bool_decide (length tools = 0%nat) then
         send ctx
           (reply
              "No MCP servers connected. Please use /connect to connect to a server first."
              None)
       else
         sessions (userId ctx)
           (λ created time s,
              (SessionManager.getSession created time (userId ctx) s).2) ;;
         stamp <- now ;;
         sessions (userId ctx)
           (λ created time,
              SessionManager.addMessage created time (userId ctx)
                {| role := user; content := query; timestamp := stamp |}) ;;
         Eff.modify (λ w,
           {| mcpClient := mcpClient w;
              sessionManager := sessionManager w;
              happened := happened w;
              readings := readings w;
              toolResults := [] |}) ;;
         history <-
           Eff.gets (λ w,
             match sessionManager w !! userId ctx with
             | Some session => conversationHistory session
             | None => []
             end) ;;
         response <-
           LLMOrchestrator.processQuery emit (generateText E) (llm E)
             (onToolCall ctx) query history tools ;;
         stamp <- now ;;
         sessions (userId ctx)
           (λ created time,
              SessionManager.addMessage created time (userId ctx)
                {| role := assistant;
                   content := response;
                   timestamp := stamp |}) ;;
         send ctx (reply response (Some "Markdown")) ;;
         results <- Eff.gets toolResults ;;
         each_result ctx results)
      (λ error,
         send ctx (reply ("❌ Error: " +:+ JS.message error) None)).

(** The loop of [start] over the configured servers. *)
Fixpoint autoConnect_each (configs : list MCPServerConfig) : M unit :=
  match configs with
  | [] => Eff.ret tt
  | serverConfig :: rest =>
      (if default false (autoConnect serverConfig) then
         Eff.try_catch
           (mcp (λ sdk, MCPClient.connect sdk serverConfig))
           (λ error, Eff.ret tt)
       else Eff.ret tt) ;;
      autoConnect_each rest
  end.

End Handlers.

Arguments Event : clear implicits.
Arguments World : clear implicits.
Arguments Env : clear implicits.

End Handlers.

(** * Vocabulary of the properties *)

(** ** The order of the registry *)

(** A list of tools exposes a name. *)
Definition exposes (toolName : string) (tools : list Types.MCPTool) : Prop :=
  ∃ tool, tool ∈ tools ∧ Types.tool_name tool = toolName.


(** ** Statements that the code does not satisfy

    Each one is a reading of a sentence of the specification, kept as a
    predicate so that the code can be run against it on a concrete input. *)

Module Stated.
Import Types.

(** [clearHistory] empties the history and leaves the set of active servers
    and both time stamps as they were. *)
Definition clearHistory_changes_only_history (created now : Z)
    (uid : string)
    (sessions : gmap string Session) : Prop :=
  ∀ before, sessions !! uid = Some before →
    ∃ after,
      SessionManager.clearHistory created now uid sessions !! uid = Some after
      ∧ conversationHistory after = []
      ∧ activeServers after = activeServers before
      ∧ createdAt after = createdAt before
      ∧ lastActivity after = lastActivity before.

(** [disconnect] always leaves the registry without an entry for the
    server, and never rejects. *)
Definition disconnect_always_unregisters (sdk : MCPClient.Sdk)
    (serverId : string) (st : MCPClient.t) : Prop :=
  let '(answer, w) := MCPClient.run (MCPClient.disconnect sdk serverId) st in
  JS.StrMap.get serverId (MCPClient.availableTools (MCPClient.this w)) = None
  ∧ answer = inr tt.

(** A [connect] that fails leaves the registry without a new entry for the
    server, and a server that was not connected is not connected after
    it. *)
Definition connect_atomic (sdk : MCPClient.Sdk) (config : MCPServerConfig)
    (st : MCPClient.t) : Prop :=
  let '(answer, w) := MCPClient.run (MCPClient.connect sdk config) st in
  ∀ error, answer = inl error →
    JS.StrMap.get (id config) (MCPClient.availableTools (MCPClient.this w))
    = JS.StrMap.get (id config) (MCPClient.availableTools st)
    ∧ (id config ∉ MCPClient.getConnectedServers st →
       id config ∉ MCPClient.getConnectedServers (MCPClient.this w)).


End Stated.

(** ** Calls to the session store

    The operations of the store that reach a session through [getSession],
    as one type, each with the two readings of the clock that [getSession]
    can make, and a sequence of [addMessage] calls for one user, each with
    its own readings. *)

Inductive SessionOp :=
| OpAddMessage (message : Types.ConversationMessage)
| OpClearHistory
| OpAddActiveServer (serverId : string)
| OpRemoveActiveServer (serverId : string)
| OpGetActiveServers.

Definition run_op (created now : Z) (uid : string) (op : SessionOp)
    (sessions : gmap string Types.Session) : gmap string Types.Session :=
  match op with
  | OpAddMessage message =>
      SessionManager.addMessage created now uid message sessions
  | OpClearHistory => SessionManager.clearHistory created now uid sessions
  | OpAddActiveServer serverId =>
      SessionManager.addActiveServer created now uid serverId sessions
  | OpRemoveActiveServer serverId =>
      SessionManager.removeActiveServer created now uid serverId sessions
  | OpGetActiveServers =>
      (SessionManager.getActiveServers created now uid sessions).2
  end.

Definition addMessages (uid : string)
    (calls : list (Z * Z * Types.ConversationMessage))
    (sessions : gmap string Types.Session) : gmap string Types.Session :=
  foldl (λ acc call,
           SessionManager.addMessage call.1.1 call.1.2 uid call.2 acc)
    sessions calls.

(** The history of a user, empty for a user without a session. *)
Definition history_of (uid : string) (sessions : gmap string Types.Session)
  : list Types.ConversationMessage :=
  match sessions !! uid with
  | Some session => Types.conversationHistory session
  | None => []
  end.

(** ** What the teardown of a server answers

    The answers of the SDK to the two [close] calls that [disconnect] makes
    for a server; a map without the entry makes no call. *)

Definition client_teardown (sdk : MCPClient.Sdk) (serverId : string)
    (st : MCPClient.t) : option JS.Error :=
  match JS.StrMap.get serverId (MCPClient.clients st) with
  | Some client => MCPClient.client_close sdk client
  | None => None
  end.

Definition transport_teardown (sdk : MCPClient.Sdk) (serverId : string)
    (st : MCPClient.t) : option JS.Error :=
  match JS.StrMap.get serverId (MCPClient.transports st) with
  | Some transport => MCPClient.transport_close sdk transport
  | None => None
  end.

(** ** The uploads of the document handler

    The user id of an upload is [ctx.from.id.toString()] for the numeric id
    of a chat user: a non-empty string of decimal digits.  The name of the
    uploaded file is taken to be one path segment. *)

Fixpoint is_digits (s : string) : bool :=
  match s with
  | EmptyString => true
  | String a s' => JS.is_digit a && is_digits s'
  end.

Definition is_user_id (userId : string) : Prop :=
  userId ≠ "" ∧ is_digits userId = true.

Definition is_segment (file_name : string) : Prop :=
  JS.includes "/" file_name = false.

(** ** One attempt of the background translation, piece by piece *)

Section Attempt.
Import TelegramBot.
Variable E : Env.
Variable chatId : Z.
Variable filePath : string.
Variable instructions : string.

(** The chat transport accepts every request. *)
Definition reliable : Prop := ∀ ticks r, telegram E ticks r = None.

(** The call of [translate_pdf] that attempt [attempt] makes. *)
Definition tool_run (attempt : nat)
  : JS.Result MCPClient.ToolResult * MCPClient.World :=
  MCPClient.run
    (MCPClient.executeTool (sdk E attempt) "translate_pdf"
       [("filePath", JS.VStr filePath);
        ("sourceLang", JS.VStr "en");
        ("targetLang", JS.VStr (targetLang E instructions))])
    (mcpClient E attempt).

Definition provider_events (attempt : nat) : list Event :=
  Called <$> MCPClient.called (tool_run attempt).2.

(** What the [try] block of an attempt comes to, the traffic with the chat
    apart: the answer of the tool, the reading of the answer, the look at the
    translated file.  [inl error] is the error that the block throws,
    [inr (path, parsed)] the file that it goes on to send. *)
Definition attempt_outcome (attempt : nat) : JS.Result (string * Parsed) :=
  match (tool_run attempt).1 with
  | inl error => inl error
  | inr result =>
      let parsed := parse_result E filePath result in
      match translatedFilePath parsed with
      | Some path =>
          if existsSync E attempt path then
            match stat E attempt path with
            | inl error => inl error
            | inr _ => inr (path, parsed)
            end
          else
            inl (JS.mkError ("Archivo traducido no encontrado: " +:+ path)
                   None)
      | None => inl (JS.mkError "Archivo traducido no encontrado: null" None)
      end
  end.

(** The events of an attempt up to the end of the tool call. *)
Definition opening (attempt : nat) : list Event :=
  Started attempt
  :: (if bool_decide (1 < attempt)%nat
      then [Sent (sendMessage chatId (retry_text attempt)); Paused 5000]
      else [])
  ++ Sent (sendChatAction chatId "upload_document")
  :: provider_events attempt.

(** The announcement and the pause before the next attempt. *)
Definition backoff (attempt : nat) : list Event :=
  if bool_decide (attempt < MAX_RETRIES)%nat
  then [Sent (sendMessage chatId
                (backoff_text attempt (2 ^ Z.of_nat attempt * 5)));
        Paused (2 ^ Z.of_nat attempt * 5 * 1000)]
  else [].

(** The events of the timeout branch that finds [found]. *)
Definition recovery (found : string) : list Event :=
  [Paused 10000;
   Listed (JS.join (cwd E) "temp");
   Sent (sendDocument chatId (JS.join (JS.join (cwd E) "temp") found));
   Sent (sendMessage chatId recovered_text)].

(** Reading a trace.  A failure notice is a message to the chat that starts
    with the cross mark; a success is a document sent to the chat or a
    message to it that starts with the check mark; an attempt is opened by
    its log line. *)
Definition is_failure_notice (e : Event) : bool :=
  match e with
  | Sent (sendMessage c text) =>
      bool_decide (c = chatId) && JS.startsWith "❌" text
  | _ => false
  end.

Definition is_success (e : Event) : bool :=
  match e with
  | Sent (sendDocument c _) => bool_decide (c = chatId)
  | Sent (sendMessage c text) =>
      bool_decide (c = chatId) && JS.startsWith "✅" text
  | _ => false
  end.

Definition is_start (e : Event) : bool :=
  match e with Started _ => true | _ => false end.

Definition failure_notices (w : list Event) : list Event :=
  List.filter is_failure_notice w.

Definition successes (w : list Event) : list Event :=
  List.filter is_success w.

Definition attempts_started (w : list Event) : list Event :=
  List.filter is_start w.

End Attempt.

(** ** Concrete inputs *)

Module Sample.
Import Types.

Definition message (n : nat) : ConversationMessage :=
  {| role := user; content := pretty n; timestamp := Z.of_nat n |}.

Definition session42 : Session :=
  {| userId := "42";
     conversationHistory := [message 1; message 2];
     activeServers := ["pdf"];
     createdAt := 1000;
     lastActivity := 2000 |}.

Definition sessions42 : gmap string Session := {[ "42" := session42 ]}.

(** Twenty-five calls of [addMessage], one per millisecond. *)
Definition calls25 : list (Z * Z * ConversationMessage) :=
  (λ n, (Z.of_nat n, Z.of_nat n, message n)) <$> seq 1 25.

(** A session that was last used at time 0, and one used at time 1000. *)
Definition idle_session : Session :=
  {| userId := "7";
     conversationHistory := [message 1];
     activeServers := [];
     createdAt := 0;
     lastActivity := 0 |}.

Definition recent_session : Session :=
  {| userId := "8";
     conversationHistory := [message 2];
     activeServers := [];
     createdAt := 0;
     lastActivity := 1000 |}.

Definition two_sessions : gmap string Session :=
  <[ "8" := recent_session ]> {[ "7" := idle_session ]}.

(** A server with one tool, and the answers of the SDK. *)
Definition pdf_config : MCPServerConfig :=
  {| id := "pdf";
     name := "PDF tools";
     command := "node";
     args := ["server.js"];
     env := None;
     autoConnect := Some true |}.

Definition schema : InputSchema :=
  {| type := "object"; properties := None; required := None |}.

Definition translate_listed : MCPClient.ListedTool :=
  {| MCPClient.listed_name := "translate_pdf";
     MCPClient.listed_description := None;
     MCPClient.listed_inputSchema := schema |}.

Definition closed : JS.Error := JS.mkError "connection closed" None.

Definition sdk_ok : MCPClient.Sdk :=
  {| MCPClient.client_connect := λ _, None;
     MCPClient.client_listTools := λ _, inr [translate_listed];
     MCPClient.client_close := λ _, None;
     MCPClient.transport_close := λ _, None;
     MCPClient.client_callTool :=
       λ _ _ _, inr (MCPClient.ResultObject None) |}.

Definition sdk_listing_fails : MCPClient.Sdk :=
  {| MCPClient.client_connect := λ _, None;
     MCPClient.client_listTools := λ _, inl closed;
     MCPClient.client_close := λ _, None;
     MCPClient.transport_close := λ _, None;
     MCPClient.client_callTool :=
       λ _ _ _, inr (MCPClient.ResultObject None) |}.

Definition sdk_launch_fails : MCPClient.Sdk :=
  {| MCPClient.client_connect := λ _, Some closed;
     MCPClient.client_listTools := λ _, inr [translate_listed];
     MCPClient.client_close := λ _, None;
     MCPClient.transport_close := λ _, None;
     MCPClient.client_callTool :=
       λ _ _ _, inr (MCPClient.ResultObject None) |}.

Definition sdk_client_close_fails : MCPClient.Sdk :=
  {| MCPClient.client_connect := λ _, None;
     MCPClient.client_listTools := λ _, inr [translate_listed];
     MCPClient.client_close := λ _, Some closed;
     MCPClient.transport_close := λ _, None;
     MCPClient.client_callTool :=
       λ _ _ _, inr (MCPClient.ResultObject None) |}.

Definition sdk_transport_close_fails : MCPClient.Sdk :=
  {| MCPClient.client_connect := λ _, None;
     MCPClient.client_listTools := λ _, inr [translate_listed];
     MCPClient.client_close := λ _, None;
     MCPClient.transport_close := λ _, Some closed;
     MCPClient.client_callTool :=
       λ _ _ _, inr (MCPClient.ResultObject None) |}.

(** The object after a successful [connect] of the server ... *)
Definition connected : MCPClient.t :=
  MCPClient.this
    (MCPClient.run (MCPClient.connect sdk_ok pdf_config) MCPClient.empty).2.

(** ... and after a [disconnect] of it in which the transport fails to
    close: the client is gone, the transport and the tools are still
    there. *)
Definition half_disconnected : MCPClient.t :=
  MCPClient.this
    (MCPClient.run
       (MCPClient.disconnect sdk_transport_close_fails "pdf") connected).2.

(** The surroundings of a background task: the server is connected, every
    call of the tool fails with [call_error], the chat accepts every
    request, and the directory [temp] lists [files]. *)
Definition call_fails (call_error : JS.Error) : MCPClient.Sdk :=
  {| MCPClient.client_connect := λ _, None;
     MCPClient.client_listTools := λ _, inr [translate_listed];
     MCPClient.client_close := λ _, None;
     MCPClient.transport_close := λ _, None;
     MCPClient.client_callTool := λ _ _ _, inl call_error |}.

Definition surroundings (call_error : JS.Error) (files : list string)
  : TelegramBot.Env :=
  {| TelegramBot.cwd := "/app";
     TelegramBot.toLowerCase := λ s, s;
     TelegramBot.JSON_parse :=
       λ _, inl (JS.mkError "Unexpected end of JSON input" None);
     TelegramBot.telegram := λ _ _, None;
     TelegramBot.mcpClient := λ _, connected;
     TelegramBot.sdk := λ _, call_fails call_error;
     TelegramBot.existsSync := λ _ _, false;
     TelegramBot.stat := λ _ _, inl (JS.mkError "ENOENT" None);
     TelegramBot.readdir := λ _ _, inr files |}.

Definition refused : JS.Error := JS.mkError "unsupported document" None.

Definition timed_out : JS.Error :=
  JS.mkError "Request timed out" (Some (-32001)).

(** The upload [doc.pdf] of user 222, and the listing of [temp] in which the
    translation of the upload of user 111 comes first. *)
Definition upload222 : string :=
  TelegramBot.localFilePath "/app" "222" "doc.pdf".

Definition listing : list string :=
  ["111_doc.pdf"; "translated_111_doc.pdf"; "222_doc.pdf";
   "translated_222_doc.pdf"].

End Sample.

(** ** Sequences of calls to the session store

    A call is one of the operations that reach a session, a sweep, or
    [deleteSession]; a sequence of calls runs from left to right. *)

Inductive StoreCall :=
| CallOp (created now : Z) (uid : string) (op : SessionOp)
| CallSweep (now : Z)
| CallDelete (uid : string).

Definition run_call (call : StoreCall)
    (sessions : gmap string Types.Session) : gmap string Types.Session :=
  match call with
  | CallOp created now uid op => run_op created now uid op sessions
  | CallSweep now => (SessionManager.cleanupInactiveSessions now sessions).1
  | CallDelete uid => SessionManager.deleteSession uid sessions
  end.

Definition run_calls (calls : list StoreCall)
    (sessions : gmap string Types.Session) : gmap string Types.Session :=
  foldl (λ acc call, run_call call acc) sessions calls.

(** The calls that can reach the session of [uid]: the operations and the
    deletions for [uid], and every sweep. *)
Definition concerns (uid : string) (call : StoreCall) : bool :=
  match call with
  | CallOp _ _ uid' _ => bool_decide (uid' = uid)
  | CallSweep _ => true
  | CallDelete uid' => bool_decide (uid' = uid)
  end.

Definition is_op (call : StoreCall) : bool :=
  match call with CallOp _ _ _ _ => true | _ => false end.

(** What the store keeps true of every session it holds. *)
Definition session_ok (uid : string) (session : Types.Session) : Prop :=
  Types.userId session = uid
  ∧ (length (Types.conversationHistory session) ≤ 20)%nat
  ∧ NoDup (Types.activeServers session).

Definition store_ok (sessions : gmap string Types.Session) : Prop :=
  ∀ uid session, sessions !! uid = Some session → session_ok uid session.

(** The active servers of a user, none for a user without a session. *)
Definition active_of (uid : string) (sessions : gmap string Types.Session)
  : list string :=
  match sessions !! uid with
  | Some session => Types.activeServers session
  | None => []
  end.

(** A session that a sweep at [now] removes. *)
Definition expired (now : Z) (session : Types.Session) : Prop :=
  now - Types.lastActivity session > SessionManager.SESSION_TIMEOUT.

#[global] Instance expired_dec (now : Z) (session : Types.Session)
  : Decision (expired now session) := Z_gt_dec _ _.

(** The effect of an operation on the session of its user, [None] being the
    user without a session. *)
Definition touched (created now : Z) (uid : string)
    (before : option Types.Session)
  : Types.Session :=
  match before with
  | Some session =>
      {| Types.userId := Types.userId session;
         Types.conversationHistory := Types.conversationHistory session;
         Types.activeServers := Types.activeServers session;
         Types.createdAt := Types.createdAt session;
         Types.lastActivity := now |}
  | None =>
      {| Types.userId := uid;
         Types.conversationHistory := [];
         Types.activeServers := [];
         Types.createdAt := created;
         Types.lastActivity := now |}
  end.

Definition apply_op (op : SessionOp) (session : Types.Session)
  : Types.Session :=
  match op with
  | OpAddMessage message =>
      SessionManager.set_conversationHistory
        (JS.slice_last 20 (Types.conversationHistory session ++ [message]))
        session
  | OpClearHistory => SessionManager.set_conversationHistory [] session
  | OpAddActiveServer serverId =>
      SessionManager.set_activeServers
        (JS.StrSet.add serverId (Types.activeServers session)) session
  | OpRemoveActiveServer serverId =>
      SessionManager.set_activeServers
        (JS.StrSet.delete serverId (Types.activeServers session)) session
  | OpGetActiveServers => session
  end.

(** The messages that a sequence of calls appends for [uid], in the order of
    the calls. *)
Definition appended_for (uid : string) (calls : list StoreCall)
  : list Types.ConversationMessage :=
  omap (λ call,
          match call with
          | CallOp _ _ uid' (OpAddMessage message) =>
              if bool_decide (uid' = uid) then Some message else None
          | _ => None
          end) calls.

Definition is_addMessage (call : StoreCall) : bool :=
  match call with CallOp _ _ _ (OpAddMessage _) => true | _ => false end.

(** Three users write in turn. *)
Definition chatter : list StoreCall :=
  [CallOp 1 1 "7" (OpAddMessage
     {| Types.role := Types.user; Types.content := "hola";
        Types.timestamp := 1 |});
   CallOp 2 2 "8" (OpAddMessage
     {| Types.role := Types.user; Types.content := "hello";
        Types.timestamp := 2 |});
   CallOp 3 3 "7" (OpAddMessage
     {| Types.role := Types.assistant; Types.content := "buenas";
        Types.timestamp := 3 |});
   CallOp 4 4 "9" (OpAddMessage
     {| Types.role := Types.user; Types.content := "salut";
        Types.timestamp := 4 |})].

(** A store with two sessions that a sweep at time 2 000 000 removes and one
    that it keeps. *)
Definition session_at (uid : string) (last : Z) : Types.Session :=
  {| Types.userId := uid;
     Types.conversationHistory := [];
     Types.activeServers := [];
     Types.createdAt := 0;
     Types.lastActivity := last |}.

Definition three_sessions : gmap string Types.Session :=
  <[ "1" := session_at "1" 0 ]>
    (<[ "2" := session_at "2" 100 ]>
       {[ "3" := session_at "3" 1900000 ]}).

Definition hello : Types.ConversationMessage :=
  {| Types.role := Types.user; Types.content := "hello";
     Types.timestamp := 2000001 |}.

(** ** Sequences of calls to the provider connections *)

(** The object that an operation leaves, and what the operation answers. *)
Definition after {A} (op : Eff.M (W := MCPClient.World) A)
    (st : MCPClient.t) : MCPClient.t :=
  MCPClient.this (MCPClient.run op st).2.

Definition answer {A} (op : Eff.M (W := MCPClient.World) A)
    (st : MCPClient.t) : JS.Result A :=
  (MCPClient.run op st).1.

(** A [connect] or a [disconnect], each with the answers that the SDK gives
    during it. *)
Inductive McpCall :=
| DoConnect (sdk : MCPClient.Sdk) (config : Types.MCPServerConfig)
| DoDisconnect (sdk : MCPClient.Sdk) (serverId : string).

Definition run_mcp_call (call : McpCall) (st : MCPClient.t) : MCPClient.t :=
  match call with
  | DoConnect sdk config => after (MCPClient.connect sdk config) st
  | DoDisconnect sdk serverId => after (MCPClient.disconnect sdk serverId) st
  end.

Definition run_mcp_calls (calls : list McpCall) (st : MCPClient.t)
  : MCPClient.t :=
  foldl (λ acc call, run_mcp_call call acc) st calls.

(** What the three maps keep true of each other: one entry per key, and a
    transport for every server that has a client or a list of tools. *)
Definition registry_ok (st : MCPClient.t) : Prop :=
  NoDup (JS.StrMap.keys (MCPClient.clients st))
  ∧ NoDup (JS.StrMap.keys (MCPClient.transports st))
  ∧ NoDup (JS.StrMap.keys (MCPClient.availableTools st))
  ∧ JS.StrMap.keys (MCPClient.clients st)
    ⊆ JS.StrMap.keys (MCPClient.transports st)
  ∧ JS.StrMap.keys (MCPClient.availableTools st)
    ⊆ JS.StrMap.keys (MCPClient.transports st).

(** The server has no entry in any of the three maps. *)
Definition unknown (serverId : string) (st : MCPClient.t) : Prop :=
  (serverId ∉ JS.StrMap.keys (MCPClient.clients st))
  ∧ (serverId ∉ JS.StrMap.keys (MCPClient.transports st))
  ∧ (serverId ∉ JS.StrMap.keys (MCPClient.availableTools st)).

(** [getAllTools] has a tool of that name. *)
Definition listed (toolName : string) (st : MCPClient.t) : Prop :=
  ∃ tool, tool ∈ MCPClient.getAllTools st ∧ Types.tool_name tool = toolName.

(** Every [close] call succeeds. *)
Definition closes_all (sdk : MCPClient.Sdk) : Prop :=
  (∀ client, MCPClient.client_close sdk client = None)
  ∧ (∀ transport, MCPClient.transport_close sdk transport = None).

(** The entries of a map whose key is not in [gone]. *)
Definition without {V} (gone : list string) (m : list (string * V))
  : list (string * V) :=
  filter (λ entry, entry.1 ∉ gone) m.

(** The object without any entry for the server. *)
Definition forget (serverId : string) (st : MCPClient.t) : MCPClient.t :=
  MCPClient.delete_tools serverId
    (MCPClient.delete_transport serverId
       (MCPClient.delete_client serverId st)).

(** ** Reading the trace of a background task in any surroundings *)

Section Trace.
Import TelegramBot.
Variable E : Env.
Variable chatId : Z.
Variable filePath : string.
Variable instructions : string.

Definition is_call (e : Event) : bool :=
  match e with Called _ => true | _ => false end.

Definition provider_calls (w : list Event) : list Event :=
  List.filter is_call w.

Definition pauses (w : list Event) : list Z :=
  omap (λ e, match e with Paused ms => Some ms | _ => None end) w.

(** The requests to the chat, accepted or not. *)
Definition requests (w : list Event) : list Request :=
  omap (λ e, match e with
             | Sent r => Some r
             | NotSent r _ => Some r
             | _ => None
             end) w.

(** An event inside an attempt: it does not open an attempt, and a pause is
    one of the three that the task makes. *)
Definition quiet (e : Event) : Prop :=
  match e with
  | Started _ => False
  | Paused ms => ms ∈ [5000; 10000; 20000]
  | _ => True
  end.

(** An operation adds events to the trace, all of them [quiet], at most [n]
    of them calls of a provider. *)
Definition emits {A} (n : nat) (m : M A) : Prop :=
  ∀ w, ∃ evs,
    (m w).2 = w ++ evs
    ∧ Forall quiet evs
    ∧ (length (provider_calls evs) ≤ n)%nat.

(** The events of the passes [first + 1 .. first + count] when each of them
    fails with an error that is not a timeout. *)
Definition failed_passes (first count : nat) : list Event :=
  flat_map (λ attempt,
              opening E chatId filePath instructions attempt
                ++ backoff chatId attempt)
    (seq (S first) count).

(** One pass of the loop: the [try] block of an attempt with its [catch]
    block. *)
Definition pass (attempt : nat) : M Flow :=
  Eff.try_catch (try_block E chatId filePath instructions attempt)
    (catch_block E chatId filePath attempt).

End Trace.

(** The sentence of the specification on three failed attempts, read for
    any surroundings: when each of the three passes of the loop ends with an
    error that is not classed as a timeout, the trace of the task has one
    failure notice, which carries the message of the third error, and no
    success. *)
Module StatedTask.
Import TelegramBot.

Definition three_failures_one_notice (E : Env) (chatId : Z)
    (filePath instructions userId query : string) : Prop :=
  let first := pass E chatId filePath instructions 1 [] in
  let second := pass E chatId filePath instructions 2 first.2 in
  let third := pass E chatId filePath instructions 3 second.2 in
  ∀ e1 e2 e3,
    first.1 = inr (Continue e1) →
    second.1 = inr (Continue e2) →
    third.1 = inr (Continue e3) →
    is_timeout e1 = false → is_timeout e2 = false →
    is_timeout e3 = false →
    let run :=
      processTranslationInBackground E chatId filePath instructions userId
        query [] in
    failure_notices chatId run.2
    = [Sent (sendMessage chatId (failure_text (Some e3)))]
    ∧ successes chatId run.2 = [].

End StatedTask.

(** What a trace of the loop looks like: the attempts opened are numbered
    from [first + 1] on, there are [count] of them, at most [count] calls
    reach a provider, and every pause is one of the three. *)
Definition loop_trace (first count : nat) (evs : list TelegramBot.Event)
  : Prop :=
  attempts_started evs = TelegramBot.Started <$> seq (S first) count
  ∧ (length (provider_calls evs) ≤ count)%nat
  ∧ ∀ ms, ms ∈ pauses evs → ms ∈ [5000; 10000; 20000].

Module SampleTask.
Import Types.

Definition translated : string := "/app/temp/translated_222_doc.pdf".

Definition answer_text : string := "{translatedFile}".

Definition payload : TelegramBot.Payload :=
  {| TelegramBot.translatedFile := Some translated;
     TelegramBot.originalFile := Some "/app/temp/222_doc.pdf";
     TelegramBot.fileSizeReadable := Some "1.2 MB" |}.

(** The first call of the tool is refused, the later ones answer with the
    path of the translated file. *)
Definition second_call_answers (attempt : nat) : MCPClient.Sdk :=
  {| MCPClient.client_connect := λ _, None;
     MCPClient.client_listTools := λ _, inr [Sample.translate_listed];
     MCPClient.client_close := λ _, None;
     MCPClient.transport_close := λ _, None;
     MCPClient.client_callTool :=
       λ _ _ _,
         if bool_decide (attempt = 1%nat) then inl Sample.refused
         else inr (MCPClient.ResultObject
                     (Some [{| MCPClient.item_type := "text";
                               MCPClient.item_text := answer_text |}])) |}.

Definition second_time : TelegramBot.Env :=
  {| TelegramBot.cwd := "/app";
     TelegramBot.toLowerCase := λ s, s;
     TelegramBot.JSON_parse := λ _, inr payload;
     TelegramBot.telegram := λ _ _, None;
     TelegramBot.mcpClient := λ _, Sample.connected;
     TelegramBot.sdk := second_call_answers;
     TelegramBot.existsSync := λ _ _, true;
     TelegramBot.stat := λ _ _, inr 1258291;
     TelegramBot.readdir := λ _ _, inr [] |}.

Definition no_temp : JS.Error :=
  JS.mkError "ENOENT: no such file or directory, scandir" None.

(** The tool times out and the directory [temp] cannot be listed. *)
Definition listing_fails : TelegramBot.Env :=
  {| TelegramBot.cwd := "/app";
     TelegramBot.toLowerCase := λ s, s;
     TelegramBot.JSON_parse :=
       λ _, inl (JS.mkError "Unexpected end of JSON input" None);
     TelegramBot.telegram := λ _ _, None;
     TelegramBot.mcpClient := λ _, Sample.connected;
     TelegramBot.sdk := λ _, Sample.call_fails Sample.timed_out;
     TelegramBot.existsSync := λ _ _, false;
     TelegramBot.stat := λ _ _, inl (JS.mkError "ENOENT" None);
     TelegramBot.readdir := λ _ _, inl no_temp |}.

(** The chat rejects every request. *)
Definition blocked : JS.Error :=
  JS.mkError "403: Forbidden: bot was blocked by the user" (Some 403).

Definition chat_blocked : TelegramBot.Env :=
  {| TelegramBot.cwd := "/app";
     TelegramBot.toLowerCase := λ s, s;
     TelegramBot.JSON_parse := λ _, inr payload;
     TelegramBot.telegram := λ _ _, Some blocked;
     TelegramBot.mcpClient := λ _, Sample.connected;
     TelegramBot.sdk := second_call_answers;
     TelegramBot.existsSync := λ _ _, true;
     TelegramBot.stat := λ _ _, inr 1258291;
     TelegramBot.readdir := λ _ _, inr [] |}.

(** Every call of the tool answers with the path of the translated file,
    which is there; the chat accepts every request but the messages that
    start with the check mark, which it refuses as coming too fast. *)
Definition too_many : JS.Error :=
  JS.mkError "429: Too Many Requests: retry after 3" (Some 429).

Definition always_answers : MCPClient.Sdk :=
  {| MCPClient.client_connect := λ _, None;
     MCPClient.client_listTools := λ _, inr [Sample.translate_listed];
     MCPClient.client_close := λ _, None;
     MCPClient.transport_close := λ _, None;
     MCPClient.client_callTool :=
       λ _ _ _,
         inr (MCPClient.ResultObject
                (Some [{| MCPClient.item_type := "text";
                          MCPClient.item_text := answer_text |}])) |}.

Definition check_mark_refused : TelegramBot.Env :=
  {| TelegramBot.cwd := "/app";
     TelegramBot.toLowerCase := λ s, s;
     TelegramBot.JSON_parse := λ _, inr payload;
     TelegramBot.telegram :=
       λ _ r,
         match r with
         | TelegramBot.sendMessage _ text =>
             if JS.startsWith "✅" text then Some too_many else None
         | _ => None
         end;
     TelegramBot.mcpClient := λ _, Sample.connected;
     TelegramBot.sdk := λ _, always_answers;
     TelegramBot.existsSync := λ _ _, true;
     TelegramBot.stat := λ _ _, inr 1258291;
     TelegramBot.readdir := λ _ _, inr [] |}.



End SampleTask.

(** ** Watching the orchestrator

    A world that keeps what the orchestrator records and the calls that it
    passes to its callback; the callback answers from a table that is
    indexed by the number of calls made before. *)

Section Conversation.
Context {Number : Type}.
Import LLMOrchestrator.

Inductive Seen :=
| Orchestrated (e : Event Number)
| ToolCalled (name : string) (arguments : MCPClient.Args).

Definition emit_seen (e : Event Number) : Eff.M (W := list Seen) unit :=
  Eff.modify (λ w, w ++ [Orchestrated e]).

Definition tool_calls (w : list Seen) : list (string * MCPClient.Args) :=
  omap (λ e, match e with
             | ToolCalled name arguments => Some (name, arguments)
             | _ => None
             end) w.

Definition generated (w : list Seen) : list (GenerateOptions Number) :=
  omap (λ e, match e with
             | Orchestrated (Generated options) => Some options
             | _ => None
             end) w.

Definition api_keys (w : list Seen) : list string :=
  omap (λ e, match e with
             | Orchestrated (ApiKeySet key) => Some key
             | _ => None
             end) w.

Definition answering
    (answers : nat → string → MCPClient.Args → JS.Result MCPClient.ToolResult)
    (name : string) (arguments : MCPClient.Args)
  : Eff.M (W := list Seen) MCPClient.ToolResult :=
  λ w, (answers (length (tool_calls w)) name arguments,
        w ++ [ToolCalled name arguments]).

(** The tool calls of the steps of a response, in order. *)
Definition requested (steps : list Step) : list (string * MCPClient.Args) :=
  flat_map (λ step,
              (λ call, (toolName call, args call))
                <$> default [] (toolCalls step))
    steps.

(** The calls up to the first one that fails, that one included, and its
    error; [made] is the number of calls made before. *)
Fixpoint until_failure
    (answers : nat → string → MCPClient.Args → JS.Result MCPClient.ToolResult)
    (made : nat) (calls : list (string * MCPClient.Args))
  : list (string * MCPClient.Args) * option JS.Error :=
  match calls with
  | [] => ([], None)
  | call :: rest =>
      match answers made call.1 call.2 with
      | inl error => ([call], Some error)
      | inr _ =>
          let '(sofar, failure) := until_failure answers (S made) rest in
          (call :: sofar, failure)
      end
  end.

(** The messages that [processQuery] builds. *)
Definition as_message (msg : Types.ConversationMessage) : CoreMessage :=
  {| msg_role := Types.role msg; msg_content := Types.content msg |}.

Definition asks (query : string) : CoreMessage :=
  {| msg_role := Types.user; msg_content := query |}.

(** The message that [getModel] throws for a provider. *)
Definition provider_error (provider : string) : string :=
  if bool_decide (provider = "anthropic")
  then "Anthropic provider not yet implemented. Install @ai-sdk/anthropic"
  else if bool_decide (provider = "openai")
  then "OpenAI provider not yet implemented. Install @ai-sdk/openai"
  else "Unsupported provider: " +:+ provider.

(** The last tool of a list that has the name. *)
Definition last_named (name : string) (tools : list Types.MCPTool)
  : option Types.MCPTool :=
  last (filter (λ tool, Types.tool_name tool = name) tools).

(** What the loops leave in a world: the calls that were made, and nothing
    that counts as a request to the model or as a key. *)
Definition adds_calls (w w' : list Seen)
    (calls : list (string * MCPClient.Args)) : Prop :=
  tool_calls w' = tool_calls w ++ calls
  ∧ generated w' = generated w
  ∧ api_keys w' = api_keys w.

(** The options of the request that [processQuery] and [processQuerySimple]
    send for a list of messages. *)
Definition options_for (config : LLMConfig Number)
    (messages : list CoreMessage) (tools : list Types.MCPTool)
  : GenerateOptions Number :=
  {| opt_model := google (model config);
     opt_messages := messages;
     opt_tools := convertMCPToolsToAITools tools;
     opt_system := systemPrompt;
     opt_maxTokens := maxTokens config;
     opt_temperature := temperature config;
     opt_maxSteps := 10 |}.

End Conversation.

Arguments Seen : clear implicits.

Module SampleChat.
Import LLMOrchestrator.

Definition gemini : LLMConfig Z :=
  {| provider := "google";
     model := "gemini-2.0-flash";
     apiKey := "key";
     maxTokens := Some 4096;
     temperature := None |}.

Definition sonnet : LLMConfig Z :=
  {| provider := "anthropic";
     model := "claude";
     apiKey := "key";
     maxTokens := None;
     temperature := None |}.

Definition translate_tool : Types.MCPTool :=
  {| Types.tool_name := "translate_pdf";
     Types.description := "Translate a PDF";
     Types.inputSchema := Sample.schema |}.

Definition other_translate_tool : Types.MCPTool :=
  {| Types.tool_name := "translate_pdf";
     Types.description := "Translate with another engine";
     Types.inputSchema := Sample.schema |}.

(** A tool that a server has named [__proto__]. *)
Definition proto_tool : Types.MCPTool :=
  {| Types.tool_name := "__proto__";
     Types.description := "Inspect the prototype";
     Types.inputSchema := Sample.schema |}.

(** A second server that lists a tool of the same name, connected after
    the first. *)
Definition other_config : Types.MCPServerConfig :=
  {| Types.id := "other";
     Types.name := "Other tools";
     Types.command := "node";
     Types.args := ["other.js"];
     Types.env := None;
     Types.autoConnect := None |}.

Definition sdk_other : MCPClient.Sdk :=
  {| MCPClient.client_connect := λ _, None;
     MCPClient.client_listTools :=
       λ _, inr [{| MCPClient.listed_name := "translate_pdf";
                    MCPClient.listed_description :=
                      Some "Translate with another engine";
                    MCPClient.listed_inputSchema := Sample.schema |}];
     MCPClient.client_close := λ _, None;
     MCPClient.transport_close := λ _, None;
     MCPClient.client_callTool :=
       λ _ _ _, inr (MCPClient.ResultObject None) |}.

Definition two_servers : MCPClient.t :=
  after (MCPClient.connect sdk_other other_config) Sample.connected.

Definition two_calls : GenerateResult :=
  {| text := "done";
     steps :=
       [{| toolCalls :=
             Some [{| toolName := "translate_pdf"; args := [] |};
                   {| toolName := "summarize"; args := [] |}] |};
        {| toolCalls := None |}] |}.

(** Every call of a tool fails. *)
Definition failing (made : nat) (name : string) (arguments : MCPClient.Args)
  : JS.Result MCPClient.ToolResult :=
  inl Sample.refused.

End SampleChat.

(** ** Reading a run of a handler *)

Section HandlerVocabulary.
Context {Number : Type}.
Import Handlers.

(** The chat accepts every request. *)
Definition accepts (E : Env Number) : Prop :=
  ∀ ticks chat request, telegram E ticks chat request = None.

(** The requests to the chat, accepted or not, in order. *)
Definition outgoing (events : list (Event Number)) : list Outgoing :=
  omap (λ e, match e with
             | Sent _ request => Some request
             | NotSent _ request _ => Some request
             | _ => None
             end) events.

(** The requests to the model. *)
Definition asked (events : list (Event Number))
  : list (LLMOrchestrator.GenerateOptions Number) :=
  omap (λ e, match e with
             | Orchestrated (LLMOrchestrator.Generated options) =>
                 Some options
             | _ => None
             end) events.

(** The world with other objects and more events, the clock read
    [reads] more times. *)
Definition moved (w : World Number) (client : MCPClient.t)
    (store : SessionManager.t) (events : list (Event Number)) (reads : nat)
  : World Number :=
  {| mcpClient := client;
     sessionManager := store;
     happened := happened w ++ events;
     readings := (readings w + reads)%nat;
     toolResults := toolResults w |}.

(** A step of a handler that leaves the two shared objects and the clock
    alone and does not ask the model. *)
Definition quiet_step (w w' : World Number) : Prop :=
  sessionManager w' = sessionManager w
  ∧ mcpClient w' = mcpClient w
  ∧ readings w' = readings w
  ∧ asked (happened w') = asked (happened w)
  ∧ ∃ events, happened w' = happened w ++ events.

Definition frames {A} (m : Eff.M (W := World Number) A) : Prop :=
  ∀ w, quiet_step w (m w).2.

Definition settles {A} (m : Eff.M (W := World Number) A) : Prop :=
  ∀ w, ∃ a, (m w).1 = inr a.

(** The servers of the configuration that [start] connects. *)
Definition auto_connected (configs : list Types.MCPServerConfig)
  : list Types.MCPServerConfig :=
  List.filter (λ c, default false (Types.autoConnect c)) configs.

End HandlerVocabulary.

Module SampleBot.
Import Handlers.

(** User 7 and user 42 both have the server [pdf] among their active
    servers; the server is connected. *)
Definition session7 : Types.Session :=
  {| Types.userId := "7";
     Types.conversationHistory := [];
     Types.activeServers := ["pdf"];
     Types.createdAt := 500;
     Types.lastActivity := 600 |}.

Definition two_users : SessionManager.t :=
  <[ "7" := session7 ]> Sample.sessions42.

Definition surroundings : Env Z :=
  {| servers := [Sample.pdf_config; SampleChat.other_config];
     llm := SampleChat.gemini;
     telegram := λ _ _ _, None;
     sdk := λ _, Sample.sdk_ok;
     Date_now := λ reads, 5000 + Z.of_nat reads;
     generateText := λ _, inr SampleChat.two_calls;
     JSON_parse := λ _, inl (JS.mkError "Unexpected token" None);
     existsSync := λ _ _, false |}.

Definition world : World Z :=
  {| mcpClient := Sample.connected;
     sessionManager := two_users;
     happened := [];
     readings := 0;
     toolResults := [] |}.

(** The same users, no server being connected. *)
Definition fresh : World Z :=
  {| mcpClient := MCPClient.empty;
     sessionManager := two_users;
     happened := [];
     readings := 0;
     toolResults := [] |}.

Definition from7 (text : string) : Ctx :=
  {| message_text := text; from_id := 7; chat_id := 7 |}.

(** A sender who has no session. *)
Definition from9 (text : string) : Ctx :=
  {| message_text := text; from_id := 9; chat_id := 9 |}.

End SampleBot.

(** * Properties *)

(** ** Strings *)

Lemma append_String (a : ascii) (s t : string) :
  String a s +:+ t = String a (s +:+ t).
Proof. reflexivity. Qed.

Lemma append_empty (t : string) : "" +:+ t = t.
Proof. reflexivity. Qed.

Lemma append_assoc (s t u : string) : (s +:+ t) +:+ u = s +:+ t +:+ u.
Proof.
  induction s as [| a s IH]; [done |].
  by rewrite !append_String, IH.
Qed.

Lemma startsWith_spec (p s : string) :
  JS.startsWith p s = true ↔ ∃ r, s = p +:+ r.
Proof.
  unfold JS.startsWith. revert s.
  induction p as [| a p IH]; intros s.
  - split; [intros _; by exists s | intros _; by destruct s].
  - destruct s as [| b s]; simpl.
    + split; [discriminate | intros [r Hr]; discriminate Hr].
    + setoid_rewrite append_String.
      destruct (Ascii.ascii_dec a b) as [-> | Hne].
      * rewrite IH. split; intros [r Hr]; exists r; congruence.
      * split; [discriminate | intros [r Hr]; congruence].
Qed.

Lemma endsWith_unfold (suffix s : string) :
  JS.endsWith suffix s
  = if String.eqb s suffix then true
    else match s with
         | EmptyString => false
         | String _ s' => JS.endsWith suffix s'
         end.
Proof. by destruct s. Qed.

Lemma endsWith_spec (suffix s : string) :
  JS.endsWith suffix s = true ↔ ∃ p, s = p +:+ suffix.
Proof.
  induction s as [| a s IH]; rewrite endsWith_unfold.
  - destruct (String.eqb_spec "" suffix) as [<- | Hne].
    + split; [intros _; by exists "" | done].
    + split; [discriminate |]. intros [p Hp]. destruct p.
      * rewrite append_empty in Hp. congruence.
      * discriminate Hp.
  - destruct (String.eqb_spec (String a s) suffix) as [<- | Hne].
    + split; [intros _; by exists "" | done].
    + rewrite IH. split.
      * intros [p ->]. by exists (String a p).
      * intros [p Hp]. destruct p as [| b p].
        -- rewrite append_empty in Hp. congruence.
        -- rewrite append_String in Hp. injection Hp as _ ->. by exists p.
Qed.



Lemma truthy_startsWith (p s : string) :
  JS.truthy p = true → JS.startsWith p s = true → JS.truthy s = true.
Proof.
  intros Hp [r ->]%startsWith_spec. by destruct p.
Qed.

(** A string without the separator is one segment. *)
Lemma split_one_segment (c : ascii) (s : string) :
  JS.includes (String c "") s = false → JS.split c s = [s].
Proof.
  induction s as [| a s IH]; simpl; [done |].
  destruct (Ascii.ascii_dec c a) as [-> | Hne].
  - destruct s; discriminate.
  - intros Hincl. rewrite (proj2 (Ascii.eqb_neq a c)) by congruence.
    by rewrite IH.
Qed.

Lemma split_nonempty (c : ascii) (s : string) : JS.split c s ≠ [].
Proof.
  induction s as [| a s IH]; simpl; [done |].
  destruct (Ascii.eqb a c); [done |]. by destruct (JS.split c s).
Qed.

Lemma split_join (c : ascii) (dir file : string) :
  JS.split c (dir +:+ String c file) = JS.split c dir ++ JS.split c file.
Proof.
  induction dir as [| a dir IH].
  - rewrite append_empty. simpl. by rewrite Ascii.eqb_refl.
  - rewrite append_String. simpl. rewrite IH.
    destruct (Ascii.eqb a c); [done |].
    pose proof (split_nonempty c dir) as Hdir.
    by destruct (JS.split c dir).
Qed.

(** The last segment of [dir/file] is the last segment of [file]. *)
Lemma pop_split_join (c : ascii) (dir file : string) :
  JS.pop (JS.split c (dir +:+ String c file)) = JS.pop (JS.split c file).
Proof.
  unfold JS.pop. rewrite split_join.
  pose proof (split_nonempty c file) as Hfile.
  destruct (JS.split c file) as [| seg segs] using rev_ind; [done |].
  by rewrite app_assoc, !last_snoc.
Qed.

(** ** The name that the timeout search looks for *)

Lemma includes_char_cons (c a : ascii) (s : string) :
  JS.includes (String c "") (String a s)
  = Ascii.eqb c a || JS.includes (String c "") s.
Proof.
  simpl. destruct (Ascii.ascii_dec c a) as [-> | Hne].
  - rewrite Ascii.eqb_refl. by destruct s.
  - by rewrite (proj2 (Ascii.eqb_neq c a)).
Qed.

Lemma includes_char_append (c : ascii) (s t : string) :
  JS.includes (String c "") s = false →
  JS.includes (String c "") t = false →
  JS.includes (String c "") (s +:+ t) = false.
Proof.
  intros Hs Ht. induction s as [| a s IH].
  - by rewrite append_empty.
  - rewrite append_String, includes_char_cons.
    rewrite includes_char_cons in Hs. apply orb_false_iff in Hs as [Ha Hs].
    by rewrite Ha, IH.
Qed.

Lemma digit_not_slash (a : ascii) :
  JS.is_digit a = true → Ascii.eqb "/" a = false.
Proof.
  intros Hd. apply Ascii.eqb_neq. intros <-. discriminate Hd.
Qed.

Lemma digits_no_slash (u : string) :
  is_digits u = true → JS.includes "/" u = false.
Proof.
  induction u as [| a u IH]; [done |]. simpl is_digits.
  intros [Ha Hu]%andb_true_iff.
  by rewrite includes_char_cons, (digit_not_slash a Ha), IH.
Qed.

Lemma skip_digits_run (u rest : string) :
  is_digits u = true →
  JS.skip_digits (u +:+ String "_" rest) = String "_" rest.
Proof.
  induction u as [| a u IH]; [done |]. simpl is_digits.
  intros [Ha Hu]%andb_true_iff.
  rewrite append_String. simpl. by rewrite Ha, IH.
Qed.

Lemma replace_user_prefix (u rest : string) :
  is_user_id u →
  JS.replace_leading_digits_underscore (u +:+ "_" +:+ rest) = rest.
Proof.
  intros [Hne Hd]. destruct u as [| a u]; [done |].
  simpl in Hd. apply andb_true_iff in Hd as [Ha Hu].
  rewrite append_String. unfold JS.replace_leading_digits_underscore.
  rewrite Ha. change ("_" +:+ rest) with (String "_" rest).
  by rewrite skip_digits_run.
Qed.

Lemma search_suffix_upload (cwd userId file_name : string) :
  is_user_id userId → is_segment file_name →
  TelegramBot.search_suffix
    (TelegramBot.localFilePath cwd userId file_name) = file_name.
Proof.
  intros Hu Hf. unfold TelegramBot.search_suffix, TelegramBot.localFilePath.
  unfold JS.join at 1.
  change ("/" +:+ ?x) with (String "/" x).
  rewrite pop_split_join, split_one_segment.
  - simpl. unfold JS.or_else.
    destruct (JS.truthy (userId +:+ "_" +:+ file_name)) eqn:Ht.
    + by apply replace_user_prefix.
    + destruct Hu as [Hne _]. by destruct userId.
  - apply includes_char_append; [apply digits_no_slash, Hu |].
    change ("_" +:+ file_name) with (String "_" file_name).
    by rewrite includes_char_cons.
Qed.

Lemma find_ext {A} (f g : A → bool) (l : list A) :
  (∀ x, f x = g x) → find f l = find g l.
Proof.
  intros Hfg. induction l as [| x l IH]; [done |]. simpl.
  by rewrite Hfg, IH.
Qed.

(** ** The ordered map *)

Section StrMapFacts.
Context {V : Type}.
Implicit Types m : JS.StrMap.t V.

Lemma get_set_eq k v m : JS.StrMap.get k (JS.StrMap.set k v m) = Some v.
Proof.
  induction m as [| [k' v'] m IH]; simpl.
  - by rewrite decide_True.
  - destruct (decide (k' = k)) as [-> | Hne]; simpl.
    + by rewrite decide_True.
    + by rewrite decide_False.
Qed.

Lemma get_set_ne k k' v m :
  k ≠ k' → JS.StrMap.get k' (JS.StrMap.set k v m) = JS.StrMap.get k' m.
Proof.
  intros Hne. induction m as [| [k0 v0] m IH]; simpl.
  - by rewrite decide_False.
  - destruct (decide (k0 = k)) as [-> | Hne0]; simpl.
    + by rewrite !decide_False.
    + destruct (decide (k0 = k')); [done | exact IH].
Qed.

Lemma get_delete_eq k m : JS.StrMap.get k (JS.StrMap.delete k m) = None.
Proof.
  unfold JS.StrMap.delete.
  induction m as [| [k' v'] m IH]; [done |].
  rewrite filter_cons. simpl. destruct (decide (k' ≠ k)) as [Hne | Heq].
  - simpl. by rewrite decide_False.
  - exact IH.
Qed.

Lemma get_delete_ne k k' m :
  k ≠ k' → JS.StrMap.get k' (JS.StrMap.delete k m) = JS.StrMap.get k' m.
Proof.
  intros Hne. unfold JS.StrMap.delete.
  induction m as [| [k0 v0] m IH]; [done |].
  rewrite filter_cons. simpl. destruct (decide (k0 ≠ k)) as [Hne0 | Heq].
  - simpl. destruct (decide (k0 = k')); [done | exact IH].
  - apply dec_stable in Heq. subst k0. by rewrite decide_False.
Qed.

Lemma get_Some_keys k v m :
  JS.StrMap.get k m = Some v → k ∈ JS.StrMap.keys m.
Proof.
  unfold JS.StrMap.keys.
  induction m as [| [k0 v0] m IH]; [done |]. simpl.
  destruct (decide (k0 = k)) as [-> | Hne]; intros Hget.
  - apply list_elem_of_here.
  - apply list_elem_of_further, IH, Hget.
Qed.

End StrMapFacts.

(** ** [slice(-n)] *)

Section SliceLast.
Context {A : Type}.
Implicit Types l : list A.

Lemma slice_last_short n l : (length l ≤ n)%nat → JS.slice_last n l = l.
Proof.
  intros Hle. unfold JS.slice_last.
  replace (length l - n)%nat with 0%nat by lia. reflexivity.
Qed.

Lemma slice_last_length n l :
  length (JS.slice_last n l) = Nat.min n (length l).
Proof. unfold JS.slice_last. rewrite length_drop. lia. Qed.

Lemma slice_last_app_long n l1 l2 :
  (n ≤ length l2)%nat → JS.slice_last n (l1 ++ l2) = JS.slice_last n l2.
Proof.
  intros Hle. unfold JS.slice_last.
  rewrite length_app, drop_app.
  replace (length l1 + length l2 - n - length l1)%nat
    with (length l2 - n)%nat by lia.
  rewrite drop_ge by lia. reflexivity.
Qed.

Lemma slice_last_snoc n l x :
  (0 < n)%nat →
  JS.slice_last n (JS.slice_last n l ++ [x]) = JS.slice_last n (l ++ [x]).
Proof.
  intros Hn. unfold JS.slice_last.
  rewrite !length_app, length_drop. simpl.
  destruct (decide (length l ≤ n)%nat) as [Hle | Hgt].
  - replace (length l - n)%nat with 0%nat by lia. simpl.
    rewrite Nat.sub_0_r. reflexivity.
  - rewrite (drop_app l [x]).
    replace (length l + 1 - n - length l)%nat with 0%nat by lia.
    rewrite drop_app, length_drop, drop_drop. simpl.
    replace (length l - (length l - n) + 1 - n
             - (length l - (length l - n)))%nat
      with 0%nat by lia.
    replace (length l - n + (length l - (length l - n) + 1 - n))%nat
      with (length l + 1 - n)%nat by lia.
    reflexivity.
Qed.

End SliceLast.

(** ** The session store *)

Section SessionFacts.
Import Types SessionManager.
Implicit Types sessions : gmap string Session.

Lemma getSession_lookup created now uid sessions :
  (getSession created now uid sessions).2 !! uid
  = Some (getSession created now uid sessions).1.
Proof.
  unfold getSession. destruct (sessions !! uid); simpl;
    apply lookup_insert_eq.
Qed.

Lemma getSession_other created now uid uid' sessions :
  uid ≠ uid' →
  (getSession created now uid sessions).2 !! uid' = sessions !! uid'.
Proof.
  intros Hne. unfold getSession. destruct (sessions !! uid); simpl;
    by rewrite lookup_insert_ne.
Qed.

Lemma getSession_lastActivity created now uid sessions :
  lastActivity (getSession created now uid sessions).1 = now.
Proof. unfold getSession. by destruct (sessions !! uid). Qed.

Lemma getSession_history created now uid sessions :
  conversationHistory (getSession created now uid sessions).1
  = history_of uid sessions.
Proof. unfold getSession, history_of. by destruct (sessions !! uid). Qed.

Lemma addMessage_history created now uid message sessions :
  history_of uid (addMessage created now uid message sessions)
  = JS.slice_last 20 (history_of uid sessions ++ [message]).
Proof.
  unfold addMessage.
  destruct (getSession created now uid sessions) as [session sessions']
    eqn:Hget.
  pose proof (getSession_history created now uid sessions) as Hh.
  rewrite Hget in Hh. simpl in Hh.
  unfold history_of at 1. rewrite lookup_insert_eq. simpl. rewrite Hh.
  case_bool_decide as Hlen; [reflexivity |].
  rewrite slice_last_short; [reflexivity | lia].
Qed.

Lemma addMessages_snoc uid calls call sessions :
  addMessages uid (calls ++ [call]) sessions
  = addMessage call.1.1 call.1.2 uid call.2 (addMessages uid calls sessions).
Proof. unfold addMessages. by rewrite foldl_app. Qed.

Lemma addMessages_history uid calls sessions :
  calls ≠ [] →
  history_of uid (addMessages uid calls sessions)
  = JS.slice_last 20 (history_of uid sessions ++ calls.*2).
Proof.
  induction calls as [| call calls IH] using rev_ind; [done |].
  intros _. rewrite addMessages_snoc, addMessage_history, fmap_app. simpl.
  destruct calls as [| c0 calls0].
  - simpl. reflexivity.
  - rewrite IH by done. rewrite slice_last_snoc by lia.
    by rewrite app_assoc.
Qed.

Lemma cleanup_fold_absent now l sessions cleaned uid :
  sessions !! uid = None →
  (foldl (cleanup_step now) (sessions, cleaned) l).1 !! uid = None.
Proof.
  revert sessions cleaned.
  induction l as [| [k s] l IH]; intros sessions cleaned Hnone; [done |].
  simpl. case_bool_decide; apply IH; [| done].
  destruct (decide (k = uid)) as [-> | Hne].
  - apply lookup_delete_eq.
  - by rewrite lookup_delete_ne.
Qed.

Lemma cleanup_fold_expired now l sessions cleaned uid session :
  (uid, session) ∈ l →
  now - lastActivity session > SESSION_TIMEOUT →
  (foldl (cleanup_step now) (sessions, cleaned) l).1 !! uid = None.
Proof.
  revert sessions cleaned.
  induction l as [| [k s] l IH]; intros sessions cleaned Hin Hexp.
  - by apply elem_of_nil in Hin.
  - apply elem_of_cons in Hin as [Heq | Hin].
    + injection Heq as <- <-. simpl.
      rewrite bool_decide_eq_true_2 by done.
      apply cleanup_fold_absent, lookup_delete_eq.
    + simpl. case_bool_decide; by apply IH.
Qed.

Lemma cleanup_fold_kept now l sessions cleaned uid :
  (∀ session, (uid, session) ∈ l →
     now - lastActivity session ≤ SESSION_TIMEOUT) →
  (foldl (cleanup_step now) (sessions, cleaned) l).1 !! uid
  = sessions !! uid.
Proof.
  revert sessions cleaned.
  induction l as [| [k s] l IH]; intros sessions cleaned Hall; [done |].
  simpl. case_bool_decide as Hexp.
  - rewrite IH.
    + apply lookup_delete_ne. intros ->.
      specialize (Hall s (list_elem_of_here _ _)). lia.
    + intros session Hin. apply Hall. by apply list_elem_of_further.
  - apply IH. intros session Hin. apply Hall. by apply list_elem_of_further.
Qed.

End SessionFacts.

(** ** The passes of the background translation *)

Section SupervisorFacts.
Import TelegramBot.
Variable E : Env.
Variable chatId : Z.
Variable filePath : string.
Variable instructions : string.
Hypothesis Hreliable : reliable E.

Lemma request_sent (r : Request) (w : World) :
  request E r w = (inr tt, w ++ [Sent r]).
Proof. unfold request. by rewrite Hreliable. Qed.

Lemma executeTool_events (attempt : nat) (w : World) :
  executeTool E attempt "translate_pdf"
    [("filePath", JS.VStr filePath);
     ("sourceLang", JS.VStr "en");
     ("targetLang", JS.VStr (targetLang E instructions))] w
  = ((tool_run E filePath instructions attempt).1,
     w ++ provider_events E filePath instructions attempt).
Proof.
  unfold executeTool, provider_events, tool_run.
  by destruct (MCPClient.run _ _).
Qed.

Lemma bind_run {A B} (m : M A) (k : A → M B) (w : World) :
  Eff.bind m k w
  = match m w with
    | (inl e, w') => (inl e, w')
    | (inr a, w') => k a w'
    end.
Proof. reflexivity. Qed.

Ltac trace_eq :=
  repeat rewrite <- app_assoc; simpl; rewrite ?app_nil_r; reflexivity.

Ltac eff :=
  repeat first
    [ rewrite request_sent
    | rewrite executeTool_events
    | rewrite bind_run
    | progress cbv beta iota
    | progress unfold Eff.modify, Eff.ret, Eff.throw, Eff.await,
        setTimeout, fs_readdir ].

Lemma try_block_run (attempt : nat) (w : World) :
  try_block E chatId filePath instructions attempt w
  = match attempt_outcome E filePath instructions attempt with
    | inl error =>
        (inl error, w ++ opening E chatId filePath instructions attempt)
    | inr (path, parsed) =>
        (inr Return,
         w ++ opening E chatId filePath instructions attempt
           ++ [Sent (sendDocument chatId path);
               Sent (sendMessage chatId
                       (completed_text (originalFileName parsed)
                          (fileSize parsed)))])
    end.
Proof.
  unfold try_block, attempt_outcome, opening.
  case_bool_decide; eff;
    (destruct (tool_run E filePath instructions attempt).1 as [e | result];
     [trace_eq |]);
    (destruct (translatedFilePath (parse_result E filePath result))
       as [path |]; [| trace_eq]);
    (destruct (existsSync E attempt path); [| trace_eq]);
    eff; destruct (stat E attempt path); eff; trace_eq.
Qed.

Lemma find_matches_truthy (files : list string) (found : string) :
  find (λ f, matches_translated filePath f) files = Some found →
  JS.truthy found = true.
Proof.
  intros [_ Hm]%find_some. unfold matches_translated in Hm.
  apply andb_true_iff in Hm as [Hstart _].
  by apply (truthy_startsWith "translated_").
Qed.

Lemma catch_block_run (attempt : nat) (error : JS.Error) (w : World) :
  let tempDir := JS.join (cwd E) "temp" in
  catch_block E chatId filePath attempt error w
  = if is_timeout error then
      match readdir E attempt tempDir with
      | inl failure => (inl failure, w ++ [Paused 10000; Listed tempDir])
      | inr files =>
          match find (λ f, matches_translated filePath f) files with
          | Some found => (inr Return, w ++ recovery E chatId found)
          | None =>
              (inr (Continue error),
               w ++ [Paused 10000; Listed tempDir]
                 ++ backoff chatId attempt)
          end
      end
    else (inr (Continue error), w ++ backoff chatId attempt).
Proof.
  intros tempDir. unfold catch_block, backoff, recovery. fold tempDir.
  destruct (is_timeout error); eff.
  - destruct (readdir E attempt tempDir) as [failure | files]; eff;
      [trace_eq |].
    destruct (find _ files) as [found |] eqn:Hfind; eff.
    + rewrite (find_matches_truthy files found Hfind). eff. trace_eq.
    + case_bool_decide; eff; trace_eq.
  - case_bool_decide; eff; trace_eq.
Qed.

(** One pass of the loop. *)
Lemma while_attempts_step (fuel attempt : nat) (lastError : option JS.Error)
    (w : World) :
  (attempt < MAX_RETRIES)%nat →
  while_attempts E chatId filePath instructions (S fuel) attempt lastError w
  = match Eff.try_catch
            (try_block E chatId filePath instructions (S attempt))
            (catch_block E chatId filePath (S attempt)) w with
    | (inl e, w') => (inl e, w')
    | (inr Return, w') => (inr Returned, w')
    | (inr (Continue error), w') =>
        while_attempts E chatId filePath instructions fuel (S attempt)
          (Some error) w'
    end.
Proof.
  intros Hlt. simpl. rewrite bool_decide_eq_true_2 by done.
  rewrite bind_run.
  destruct (Eff.try_catch _ _ w) as [[e | [| error]] w']; reflexivity.
Qed.

Lemma while_attempts_exit (fuel attempt : nat) (lastError : option JS.Error)
    (w : World) :
  (MAX_RETRIES ≤ attempt)%nat →
  while_attempts E chatId filePath instructions (S fuel) attempt lastError w
  = (inr (Exhausted lastError), w).
Proof.
  intros Hge. simpl. rewrite bool_decide_eq_false_2 by lia. reflexivity.
Qed.

(** A pass whose [try] block fails with an error that is not a timeout. *)
Lemma failed_pass (attempt : nat) (error : JS.Error) (w : World) :
  attempt_outcome E filePath instructions attempt = inl error →
  is_timeout error = false →
  Eff.try_catch (try_block E chatId filePath instructions attempt)
    (catch_block E chatId filePath attempt) w
  = (inr (Continue error),
     w ++ opening E chatId filePath instructions attempt
       ++ backoff chatId attempt).
Proof.
  intros Hout Hnot. unfold Eff.try_catch.
  rewrite try_block_run, Hout, catch_block_run, Hnot. trace_eq.
Qed.


(** A pass that ends with an error that is not a timeout: the [try] block
    failed before it sent anything. *)
Lemma failing_pass_outcome (attempt : nat) (error : JS.Error) (w : World) :
  (pass E chatId filePath instructions attempt w).1
  = inr (Continue error) →
  is_timeout error = false →
  attempt_outcome E filePath instructions attempt = inl error.
Proof.
  unfold pass, Eff.try_catch. rewrite try_block_run.
  destruct (attempt_outcome E filePath instructions attempt)
    as [e | [path parsed]]; [| discriminate].
  rewrite catch_block_run. cbv zeta.
  destruct (is_timeout e) eqn:Htime.
  - destruct (readdir E attempt _) as [failure | files]; [discriminate |].
    destruct (find _ files); [discriminate |].
    intros [= ->]. congruence.
  - by intros [= ->].
Qed.


End SupervisorFacts.

(** ** The session store: history, time stamps, sweep *)

Section SessionClaims.
Import Types SessionManager.
Implicit Types sessions : gmap string Session.

Lemma clearHistory_lookup created now uid sessions session :
  sessions !! uid = Some session →
  clearHistory created now uid sessions !! uid
  = Some {| userId := userId session;
            conversationHistory := [];
            activeServers := activeServers session;
            createdAt := createdAt session;
            lastActivity := now |}.
Proof.
  intros Hs. unfold clearHistory, getSession. rewrite Hs.
  by rewrite lookup_insert_eq.
Qed.

Lemma run_other created now uid uid' op sessions :
  uid ≠ uid' → run_op created now uid op sessions !! uid' = sessions !! uid'.
Proof.
  intros Hne.
  pose proof (getSession_other created now uid uid' sessions Hne) as Hget.
  destruct op; simpl;
    unfold addMessage, clearHistory, addActiveServer, removeActiveServer,
      getActiveServers;
    destruct (getSession created now uid sessions) as [s sessions']; simpl in *;
    rewrite ?lookup_insert_ne by done; done.
Qed.

End SessionClaims.

(** C5, as the code has it.  For a user with a session, [clearHistory]
    empties the history and keeps the user id, the set of active servers and
    [createdAt]; [lastActivity] becomes the time of the call, since the
    session is reached through [getSession]; the sessions of the other users
    are the same as before. *)
Theorem clearHistory_frame (created now : Z) (uid : string)
    (sessions : gmap string Types.Session) (before : Types.Session) :
  sessions !! uid = Some before →
  (∃ after,
     SessionManager.clearHistory created now uid sessions !! uid = Some after
     ∧ Types.conversationHistory after = []
     ∧ Types.userId after = Types.userId before
     ∧ Types.activeServers after = Types.activeServers before
     ∧ Types.createdAt after = Types.createdAt before
     ∧ Types.lastActivity after = now)
  ∧ ∀ other, other ≠ uid →
      SessionManager.clearHistory created now uid sessions !! other
      = sessions !! other.
Proof.
  intros Hs. split.
  - eexists. split; [by apply clearHistory_lookup |]. by simpl.
  - intros other Hne.
    apply (run_other created now uid other OpClearHistory). done.
Qed.

Lemma clearHistory_frame_witness :
  Sample.sessions42 !! "42" = Some Sample.session42
  ∧ (∃ after,
       SessionManager.clearHistory 5000 5000 "42" Sample.sessions42 !! "42"
       = Some after
       ∧ Types.conversationHistory after = []
       ∧ Types.userId after = "42"
       ∧ Types.activeServers after = ["pdf"]
       ∧ Types.createdAt after = 1000
       ∧ Types.lastActivity after = 5000).
Proof.
  split; [reflexivity |].
  apply (clearHistory_frame 5000 5000 "42" Sample.sessions42 Sample.session42).
  reflexivity.
Defined.

(** C5, as the specification has it, fails: the session of user 42 was last
    used at time 2000, and after [clearHistory] at time 5000 its
    [lastActivity] is 5000. *)
Lemma clearHistory_touches_lastActivity :
  ¬ Stated.clearHistory_changes_only_history 5000 5000 "42" Sample.sessions42.
Proof.
  intros Hclaim.
  destruct (Hclaim Sample.session42 eq_refl)
    as (after & Hafter & _ & _ & _ & Hlast).
  rewrite (clearHistory_lookup 5000 5000 "42" Sample.sessions42 Sample.session42
             eq_refl) in Hafter.
  injection Hafter as <-. simpl in Hlast. discriminate Hlast.
Qed.

(** C6.  After the [k]-th of a sequence of [addMessage] calls for one user,
    whatever the session held before: if more than 20 messages have been
    appended, the history is exactly the last 20 of them, in the order of
    the calls; if the history before together with the appended messages has
    at most 20 entries, it is kept in full; in general it is the last 20
    entries of the history before followed by the appended messages. *)
Theorem addMessage_keeps_last_20 (uid : string)
    (calls : list (Z * Z * Types.ConversationMessage)) (k : nat)
    (sessions : gmap string Types.Session) :
  (k ≤ length calls)%nat →
  let appended := take k calls.*2 in
  let after := addMessages uid (take k calls) sessions in
  ((20 < k)%nat →
     history_of uid after = drop (k - 20) appended
     ∧ length (history_of uid after) = 20%nat)
  ∧ ((length (history_of uid sessions) + k ≤ 20)%nat →
     history_of uid after
     = history_of uid sessions ++ appended)
  ∧ ((0 < k)%nat →
     history_of uid after
     = JS.slice_last 20 (history_of uid sessions ++ appended)).
Proof.
  intros Hk appended after.
  assert (length appended = k) as Hlen.
  { unfold appended. rewrite length_take, length_fmap. lia. }
  assert (appended = (take k calls).*2) as Happ.
  { unfold appended. by rewrite fmap_take. }
  assert ((0 < k)%nat → take k calls ≠ []) as Hsome.
  { intros Hpos Hnil. apply (f_equal length) in Hnil.
    rewrite length_take in Hnil. simpl in Hnil. lia. }
  split; [| split].
  - intros Hlong.
    assert (take k calls ≠ []) as Hne by (apply Hsome; lia).
    unfold after. rewrite addMessages_history by done.
    rewrite <- Happ, slice_last_app_long by lia.
    split.
    + unfold JS.slice_last. by rewrite Hlen.
    + rewrite slice_last_length. lia.
  - intros Hshort. unfold after.
    destruct (decide (take k calls = [])) as [Hnil | Hne].
    + rewrite Happ, Hnil. simpl. by rewrite app_nil_r.
    + rewrite addMessages_history by done.
      rewrite <- Happ. apply slice_last_short.
      rewrite length_app. lia.
  - intros Hpos. unfold after.
    rewrite addMessages_history by (by apply Hsome). by rewrite Happ.
Qed.

Lemma addMessage_keeps_last_20_witness :
  (23 ≤ length Sample.calls25)%nat
  ∧ history_of "42"
      (addMessages "42" (take 23 Sample.calls25)
         Sample.sessions42)
    = Sample.message <$> seq 4 20.
Proof.
  split; [vm_compute; lia |].
  refine (proj1 (proj1 (addMessage_keeps_last_20 "42" Sample.calls25 23
                          Sample.sessions42 _) _)).
  - vm_compute; lia.
  - lia.
Defined.

(** C7.  A sweep at time [now] removes a session exactly when
    [now - lastActivity] exceeds 30 minutes (1 800 000 ms): such a session is
    absent afterwards; a session within the window, the threshold itself
    included, is still there and unchanged; and a user without a session has
    none afterwards. *)
Theorem cleanup_removes_exactly_expired (now : Z) (uid : string)
    (sessions : gmap string Types.Session) :
  SessionManager.SESSION_TIMEOUT = 1800000
  ∧ (∀ session, sessions !! uid = Some session →
       (now - Types.lastActivity session > 1800000 →
          (SessionManager.cleanupInactiveSessions now sessions).1 !! uid
          = None)
       ∧ (now - Types.lastActivity session ≤ 1800000 →
          (SessionManager.cleanupInactiveSessions now sessions).1 !! uid
          = Some session))
  ∧ (sessions !! uid = None →
       (SessionManager.cleanupInactiveSessions now sessions).1 !! uid = None).
Proof.
  split; [reflexivity |].
  unfold SessionManager.cleanupInactiveSessions. split.
  - intros session Hs. split.
    + intros Hexp.
      apply cleanup_fold_expired with session; [| exact Hexp].
      by apply elem_of_map_to_list.
    + intros Hin. rewrite cleanup_fold_kept; [done |].
      intros session' Hin'. apply elem_of_map_to_list in Hin'.
      rewrite Hs in Hin'. injection Hin' as <-.
      change SessionManager.SESSION_TIMEOUT with 1800000. lia.
  - intros Hnone. by apply cleanup_fold_absent.
Qed.

Lemma cleanup_removes_exactly_expired_witness :
  (SessionManager.cleanupInactiveSessions 1800001 Sample.two_sessions).1
    !! "7" = None
  ∧ (SessionManager.cleanupInactiveSessions 1800001 Sample.two_sessions).1
      !! "8" = Some Sample.recent_session
  ∧ (SessionManager.cleanupInactiveSessions 1801000 Sample.two_sessions).1
      !! "8" = Some Sample.recent_session.
Proof.
  pose proof (cleanup_removes_exactly_expired 1800001 "7"
                Sample.two_sessions) as (_ & H7 & _).
  pose proof (cleanup_removes_exactly_expired 1800001 "8"
                Sample.two_sessions) as (_ & H8 & _).
  pose proof (cleanup_removes_exactly_expired 1801000 "8"
                Sample.two_sessions) as (_ & H8' & _).
  split; [| split].
  - apply (H7 Sample.idle_session); [reflexivity | simpl; lia].
  - apply (H8 Sample.recent_session); [reflexivity | simpl; lia].
  - apply (H8' Sample.recent_session); [reflexivity | simpl; lia].
Defined.

(** C10.  Each operation of the session store that reaches a session goes
    through [getSession]: after it the user has a session whose
    [lastActivity] is the time of the call, [now], the last reading of the
    clock in the call; and for a user without a session the operation works
    on a new session (empty history, no active server, [createdAt] the
    reading [created] that precedes [now], [lastActivity] being [now]) and
    returns normally, the stored session being that new one with the effect
    of the operation. *)
Theorem store_operations_create_and_touch (created now : Z) (uid : string)
    (op : SessionOp) (sessions : gmap string Types.Session) :
  (∃ session,
     run_op created now uid op sessions !! uid = Some session
     ∧ Types.lastActivity session = now)
  ∧ (sessions !! uid = None →
     (SessionManager.getSession created now uid sessions).1
     = {| Types.userId := uid;
          Types.conversationHistory := [];
          Types.activeServers := [];
          Types.createdAt := created;
          Types.lastActivity := now |}
     ∧ run_op created now uid op sessions !! uid
       = Some {| Types.userId := uid;
                 Types.conversationHistory :=
                   match op with
                   | OpAddMessage message => [message]
                   | _ => []
                   end;
                 Types.activeServers :=
                   match op with
                   | OpAddActiveServer serverId => [serverId]
                   | _ => []
                   end;
                 Types.createdAt := created;
                 Types.lastActivity := now |}
     ∧ (SessionManager.getActiveServers created now uid sessions).1 = []).
Proof.
  split.
  - pose proof (getSession_lastActivity created now uid sessions) as Hlast.
    pose proof (getSession_lookup created now uid sessions) as Hlook.
    destruct op; simpl;
      unfold SessionManager.addMessage, SessionManager.clearHistory,
        SessionManager.addActiveServer, SessionManager.removeActiveServer,
        SessionManager.getActiveServers;
      destruct (SessionManager.getSession created now uid sessions)
        as [session sessions'];
      simpl in *; rewrite ?lookup_insert_eq; eauto.
  - intros Hnone.
    unfold SessionManager.getActiveServers, SessionManager.getSession.
    rewrite Hnone. simpl. split; [reflexivity |]. split; [| reflexivity].
    destruct op; simpl;
      unfold SessionManager.addMessage, SessionManager.clearHistory,
        SessionManager.addActiveServer, SessionManager.removeActiveServer,
        SessionManager.getActiveServers, SessionManager.getSession;
      rewrite Hnone; simpl; by rewrite lookup_insert_eq.
Qed.

Lemma store_operations_create_and_touch_witness :
  Sample.sessions42 !! "99" = None
  ∧ run_op 4999 5000 "99" (OpAddActiveServer "pdf")
      Sample.sessions42 !! "99"
    = Some {| Types.userId := "99";
              Types.conversationHistory := [];
              Types.activeServers := ["pdf"];
              Types.createdAt := 4999;
              Types.lastActivity := 5000 |}.
Proof.
  split; [reflexivity |].
  refine (proj1 (proj2 (proj2 (store_operations_create_and_touch 4999 5000 "99"
            (OpAddActiveServer "pdf") Sample.sessions42) _))).
  reflexivity.
Defined.

(** ** The provider connections and the registry *)

Ltac run_eff :=
  unfold MCPClient.run, MCPClient.start, Eff.try_catch, Eff.bind, Eff.gets,
    Eff.await_void, Eff.await, Eff.throw, Eff.ret, MCPClient.update,
    MCPClient.logger, MCPClient.record_call, Eff.modify;
  simpl.

Lemma disconnect_run (sdk : MCPClient.Sdk) (serverId : string)
    (st : MCPClient.t) :
  MCPClient.run (MCPClient.disconnect sdk serverId) st
  = match client_teardown sdk serverId st with
    | Some error =>
        (inl error,
         {| MCPClient.this := st;
            MCPClient.logged :=
              [MCPClient.LogError
                 ("Failed to disconnect from " +:+ serverId +:+ ":") error];
            MCPClient.called := [] |})
    | None =>
        let st1 :=
          match JS.StrMap.get serverId (MCPClient.clients st) with
          | Some _ => MCPClient.delete_client serverId st
          | None => st
          end in
        match transport_teardown sdk serverId st with
        | Some error =>
            (inl error,
             {| MCPClient.this := st1;
                MCPClient.logged :=
                  [MCPClient.LogError
                     ("Failed to disconnect from " +:+ serverId +:+ ":")
                     error];
                MCPClient.called := [] |})
        | None =>
            let st2 :=
              match JS.StrMap.get serverId (MCPClient.transports st) with
              | Some _ => MCPClient.delete_transport serverId st1
              | None => st1
              end in
            (inr tt,
             {| MCPClient.this := MCPClient.delete_tools serverId st2;
                MCPClient.logged :=
                  [MCPClient.LogInfo
                     ("Disconnected from server: " +:+ serverId)];
                MCPClient.called := [] |})
        end
    end.
Proof.
  unfold MCPClient.disconnect, client_teardown, transport_teardown.
  run_eff.
  destruct (JS.StrMap.get serverId (MCPClient.clients st)) as [client |];
    simpl.
  - destruct (MCPClient.client_close sdk client) as [e |]; simpl;
      [reflexivity |].
    destruct (JS.StrMap.get serverId (MCPClient.transports st))
      as [transport |]; simpl; [| reflexivity].
    destruct (MCPClient.transport_close sdk transport); reflexivity.
  - destruct (JS.StrMap.get serverId (MCPClient.transports st))
      as [transport |]; simpl; [| reflexivity].
    destruct (MCPClient.transport_close sdk transport); reflexivity.
Qed.

(** C1, as the code has it.  When the client and the transport of the
    server close without an error (or are not there), [disconnect] resolves
    and the server has no client, no transport and no tools afterwards, the
    tools of the other servers being untouched.  When one of the two [close]
    calls fails, the error is logged and thrown again to the caller, and the
    registry is what it was before the call. *)
Theorem disconnect_unregisters_unless_teardown_fails (sdk : MCPClient.Sdk)
    (serverId : string) (st : MCPClient.t) :
  let answer := (MCPClient.run (MCPClient.disconnect sdk serverId) st).1 in
  let w := (MCPClient.run (MCPClient.disconnect sdk serverId) st).2 in
  (client_teardown sdk serverId st = None →
   transport_teardown sdk serverId st = None →
     answer = inr tt
     ∧ JS.StrMap.get serverId (MCPClient.clients (MCPClient.this w)) = None
     ∧ JS.StrMap.get serverId (MCPClient.transports (MCPClient.this w))
       = None
     ∧ JS.StrMap.get serverId (MCPClient.availableTools (MCPClient.this w))
       = None
     ∧ (∀ other, other ≠ serverId →
          JS.StrMap.get other (MCPClient.availableTools (MCPClient.this w))
          = JS.StrMap.get other (MCPClient.availableTools st))
     ∧ MCPClient.logged w
       = [MCPClient.LogInfo ("Disconnected from server: " +:+ serverId)])
  ∧ (∀ error,
       client_teardown sdk serverId st = Some error
       ∨ (client_teardown sdk serverId st = None
          ∧ transport_teardown sdk serverId st = Some error) →
       answer = inl error
       ∧ MCPClient.availableTools (MCPClient.this w)
         = MCPClient.availableTools st
       ∧ MCPClient.logged w
         = [MCPClient.LogError
              ("Failed to disconnect from " +:+ serverId +:+ ":") error]).
Proof.
  intros answer w. subst answer w. rewrite disconnect_run. split.
  - intros Hc Ht. rewrite Hc, Ht. simpl.
    unfold client_teardown, transport_teardown in *.
    split; [reflexivity |].
    destruct (JS.StrMap.get serverId (MCPClient.clients st)) eqn:Hgc;
      destruct (JS.StrMap.get serverId (MCPClient.transports st)) eqn:Hgt;
      simpl; rewrite ?get_delete_eq, ?Hgc, ?Hgt;
      (repeat split; try reflexivity);
      intros other Hne; by rewrite get_delete_ne.
  - intros error [Hc | [Hc Ht]].
    + rewrite Hc. simpl. done.
    + rewrite Hc, Ht. simpl. split; [reflexivity |]. split; [| reflexivity].
      by destruct (JS.StrMap.get serverId (MCPClient.clients st)).
Qed.

Lemma disconnect_unregisters_unless_teardown_fails_witness :
  (client_teardown Sample.sdk_ok "pdf" Sample.connected = None
   ∧ transport_teardown Sample.sdk_ok "pdf" Sample.connected = None
   ∧ JS.StrMap.get "pdf"
       (MCPClient.availableTools
          (MCPClient.this
             (MCPClient.run (MCPClient.disconnect Sample.sdk_ok "pdf")
                Sample.connected).2)) = None)
  ∧ (client_teardown Sample.sdk_client_close_fails "pdf" Sample.connected
     = Some Sample.closed
     ∧ (MCPClient.run
          (MCPClient.disconnect Sample.sdk_client_close_fails "pdf")
          Sample.connected).1 = inl Sample.closed).
Proof.
  split.
  - split; [reflexivity |]. split; [reflexivity |].
    refine (proj1 (proj2 (proj2 (proj2
      (proj1 (disconnect_unregisters_unless_teardown_fails Sample.sdk_ok
                "pdf" Sample.connected) _ _))))); reflexivity.
  - split; [reflexivity |].
    refine (proj1 (proj2 (disconnect_unregisters_unless_teardown_fails
                            Sample.sdk_client_close_fails "pdf"
                            Sample.connected) Sample.closed _)).
    left. reflexivity.
Defined.

(** C1, as the specification has it, fails: the client of the connected
    server fails to close; [disconnect] rejects with that error and the tools
    of the server are still registered. *)
Lemma disconnect_keeps_tools_when_close_fails :
  ¬ Stated.disconnect_always_unregisters Sample.sdk_client_close_fails "pdf"
      Sample.connected.
Proof.
  unfold Stated.disconnect_always_unregisters.
  rewrite disconnect_run. simpl. intros [Hgone _]. discriminate Hgone.
Qed.

Lemma connect_run (sdk : MCPClient.Sdk) (config : Types.MCPServerConfig)
    (st : MCPClient.t) :
  let transport := MCPClient.new_StdioClientTransport config in
  let client := MCPClient.new_Client transport in
  let opening :=
    MCPClient.LogInfo
      ("Connecting to MCP server: " +:+ Types.name config
         +:+ " (" +:+ Types.id config +:+ ")") in
  let failure error :=
    MCPClient.LogError
      ("Failed to connect to " +:+ Types.name config +:+ ":") error in
  let recorded :=
    MCPClient.set_transport (Types.id config) transport
      (MCPClient.set_client (Types.id config) client st) in
  MCPClient.run (MCPClient.connect sdk config) st
  = match MCPClient.client_connect sdk client with
    | Some error =>
        (inl error,
         {| MCPClient.this := st;
            MCPClient.logged := [opening; failure error];
            MCPClient.called := [] |})
    | None =>
        match MCPClient.client_listTools sdk client with
        | inl error =>
            (inl error,
             {| MCPClient.this := recorded;
                MCPClient.logged := [opening; failure error];
                MCPClient.called := [] |})
        | inr listed =>
            let tools := MCPClient.convert_tool <$> listed in
            (inr tt,
             {| MCPClient.this :=
                  MCPClient.set_tools (Types.id config) tools recorded;
                MCPClient.logged :=
                  [opening;
                   MCPClient.LogInfo
                     ("Connected to " +:+ Types.name config +:+ ", found "
                        +:+ pretty (length tools) +:+ " tools: "
                        +:+ String.concat ", " (Types.tool_name <$> tools))];
                MCPClient.called := [] |})
        end
    end.
Proof.
  unfold MCPClient.connect. run_eff.
  destruct (MCPClient.client_connect sdk _); simpl; [reflexivity |].
  destruct (MCPClient.client_listTools sdk _); reflexivity.
Qed.

(** C4, as the code has it.  When [connect] fails, the registry is the one
    from before the call, so that its flattened view has not changed.  A
    failure of the launch leaves the whole object as it was.  A failure of
    the tool listing comes after the client and the transport have been
    stored: the server is then among the connected servers. *)
Theorem connect_failure_keeps_registry (sdk : MCPClient.Sdk)
    (config : Types.MCPServerConfig) (st : MCPClient.t) (error : JS.Error) :
  (MCPClient.run (MCPClient.connect sdk config) st).1 = inl error →
  let w := (MCPClient.run (MCPClient.connect sdk config) st).2 in
  let transport := MCPClient.new_StdioClientTransport config in
  let client := MCPClient.new_Client transport in
  MCPClient.availableTools (MCPClient.this w) = MCPClient.availableTools st
  ∧ MCPClient.getAllTools (MCPClient.this w) = MCPClient.getAllTools st
  ∧ (MCPClient.client_connect sdk client = Some error
     ∧ MCPClient.this w = st
     ∨ MCPClient.client_connect sdk client = None
       ∧ MCPClient.client_listTools sdk client = inl error
       ∧ MCPClient.clients (MCPClient.this w)
         = JS.StrMap.set (Types.id config) client (MCPClient.clients st)
       ∧ MCPClient.transports (MCPClient.this w)
         = JS.StrMap.set (Types.id config) transport
             (MCPClient.transports st)
       ∧ Types.id config
         ∈ MCPClient.getConnectedServers (MCPClient.this w)).
Proof.
  intros Hfail w transport client. subst w. revert Hfail.
  rewrite connect_run. fold transport. fold client.
  destruct (MCPClient.client_connect sdk client) as [e |]; simpl.
  - intros [= ->]. repeat split. left. done.
  - destruct (MCPClient.client_listTools sdk client) as [e | listed]; simpl;
      [| discriminate].
    intros [= ->]. repeat split. right. repeat split.
    unfold MCPClient.getConnectedServers. simpl.
    apply get_Some_keys with client, get_set_eq.
Qed.

Lemma connect_failure_keeps_registry_witness :
  (MCPClient.run
     (MCPClient.connect Sample.sdk_launch_fails Sample.pdf_config)
     Sample.connected).1 = inl Sample.closed
  ∧ MCPClient.getAllTools
      (MCPClient.this
         (MCPClient.run
            (MCPClient.connect Sample.sdk_launch_fails Sample.pdf_config)
            Sample.connected).2)
    = MCPClient.getAllTools Sample.connected.
Proof.
  split; [reflexivity |].
  refine (proj1 (proj2 (connect_failure_keeps_registry
                          Sample.sdk_launch_fails Sample.pdf_config
                          Sample.connected Sample.closed _))).
  reflexivity.
Defined.

(** C4, as the specification has it, fails: on the empty object the launch
    succeeds and the tool listing fails; [connect] rejects, and the server
    is among the connected servers. *)
Lemma connect_listing_failure_leaves_client :
  ¬ Stated.connect_atomic Sample.sdk_listing_fails Sample.pdf_config
      MCPClient.empty.
Proof.
  unfold Stated.connect_atomic. rewrite connect_run. simpl.
  intros Hclaim. destruct (Hclaim Sample.closed eq_refl) as [_ Hnot].
  apply Hnot.
  - unfold MCPClient.getConnectedServers. simpl. apply not_elem_of_nil.
  - unfold MCPClient.getConnectedServers. simpl. apply list_elem_of_here.
Qed.

(** *** Routing *)

Lemma existsb_exposes (toolName : string) (tools : list Types.MCPTool) :
  existsb (λ t, bool_decide (Types.tool_name t = toolName)) tools = true
  ↔ exposes toolName tools.
Proof.
  unfold exposes. induction tools as [| tool tools IH]; simpl.
  - split; [discriminate |]. intros (t & Hin & _). by apply elem_of_nil in Hin.
  - rewrite orb_true_iff, IH, bool_decide_eq_true. split.
    + intros [Heq | (t & Hin & Heq)].
      * exists tool. split; [apply list_elem_of_here | done].
      * exists t. split; [by apply list_elem_of_further | done].
    + intros (t & Hin & Heq). apply elem_of_cons in Hin as [-> | Hin].
      * by left.
      * right. by exists t.
Qed.

Lemma find_owner_first (toolName serverId : string)
    (before after : list (string * list Types.MCPTool))
    (tools : list Types.MCPTool) :
  exposes toolName tools →
  (∀ entry, entry ∈ before → ¬ exposes toolName entry.2) →
  MCPClient.find_owner toolName (before ++ (serverId, tools) :: after)
  = Some serverId.
Proof.
  intros Hexp. induction before as [| [s ts] before IH]; intros Hnone; simpl.
  - apply existsb_exposes in Hexp. by rewrite Hexp.
  - destruct (existsb _ ts) eqn:Hts.
    + apply existsb_exposes in Hts.
      by destruct (Hnone (s, ts) (list_elem_of_here _ _)).
    + apply IH. intros entry Hin. apply Hnone.
      by apply list_elem_of_further.
Qed.


Lemma find_owner_is_first (toolName serverId : string)
    (entries : list (string * list Types.MCPTool)) :
  MCPClient.find_owner toolName entries = Some serverId →
  ∃ before tools after,
    entries = before ++ (serverId, tools) :: after
    ∧ exposes toolName tools
    ∧ ∀ entry, entry ∈ before → ¬ exposes toolName entry.2.
Proof.
  induction entries as [| [s ts] entries IH]; [discriminate |]. simpl.
  destruct (existsb _ ts) eqn:Hts.
  - intros [= ->]. exists [], ts, entries. split; [done |].
    split; [by apply existsb_exposes |].
    intros entry Hin. by apply elem_of_nil in Hin.
  - intros Hfind.
    destruct (IH Hfind) as (before & tools & after & -> & He & Hn).
    exists ((s, ts) :: before), tools, after. split; [done |].
    split; [done |]. intros entry Hin.
    apply elem_of_cons in Hin as [-> | Hin]; [| by apply Hn].
    simpl. rewrite <- existsb_exposes, Hts. discriminate.
Qed.

Lemma executeTool_run (sdk : MCPClient.Sdk) (toolName : string)
    (arguments : MCPClient.Args) (st : MCPClient.t) :
  let opening :=
    MCPClient.LogInfo ("Executing tool: " +:+ toolName +:+ " with args:") in
  let not_found :=
    JS.mkError ("Tool " +:+ toolName +:+ " not found in any connected server")
      None in
  let quiet error :=
    (inl error : JS.Result MCPClient.ToolResult,
     {| MCPClient.this := st;
        MCPClient.logged := [opening];
        MCPClient.called := [] |}) in
  MCPClient.run (MCPClient.executeTool sdk toolName arguments) st
  = match MCPClient.find_owner toolName
            (JS.StrMap.entries (MCPClient.availableTools st)) with
    | None => quiet not_found
    | Some serverId =>
        if JS.truthy serverId then
          match JS.StrMap.get serverId (MCPClient.clients st) with
          | None =>
              quiet (JS.mkError ("Client for server " +:+ serverId
                                   +:+ " not found") None)
          | Some client =>
              let call :=
                {| MCPClient.call_server := serverId;
                   MCPClient.call_client := client;
                   MCPClient.call_tool := toolName;
                   MCPClient.call_args := arguments |} in
              match MCPClient.client_callTool sdk client toolName arguments
              with
              | inl error =>
                  (inl error,
                   {| MCPClient.this := st;
                      MCPClient.logged :=
                        [opening;
                         MCPClient.LogError
                           ("Failed to execute tool " +:+ toolName +:+ ":")
                           error];
                      MCPClient.called := [call] |})
              | inr result =>
                  (inr result,
                   {| MCPClient.this := st;
                      MCPClient.logged :=
                        [opening;
                         MCPClient.LogInfo
                           ("Tool " +:+ toolName
                              +:+ " executed successfully")];
                      MCPClient.called := [call] |})
              end
          end
        else quiet not_found
    end.
Proof.
  unfold MCPClient.executeTool. run_eff.
  destruct (MCPClient.find_owner toolName _) as [serverId |]; simpl;
    [| reflexivity].
  destruct (JS.truthy serverId); simpl; [| reflexivity].
  destruct (JS.StrMap.get serverId (MCPClient.clients st)) as [client |];
    simpl; [| reflexivity].
  destruct (MCPClient.client_callTool sdk client toolName arguments);
    reflexivity.
Qed.






(** *** Reading a trace *)

Section TraceFacts.
Import TelegramBot.
Variable E : Env.
Variable chatId : Z.
Variable filePath : string.
Variable instructions : string.

Lemma failure_notices_app (w1 w2 : World) :
  failure_notices chatId (w1 ++ w2)
  = failure_notices chatId w1 ++ failure_notices chatId w2.
Proof. apply List.filter_app. Qed.

Lemma successes_app (w1 w2 : World) :
  successes chatId (w1 ++ w2) = successes chatId w1 ++ successes chatId w2.
Proof. apply List.filter_app. Qed.

Lemma attempts_started_app (w1 w2 : World) :
  attempts_started (w1 ++ w2) = attempts_started w1 ++ attempts_started w2.
Proof. apply List.filter_app. Qed.

Lemma filter_provider_events (f : Event → bool) (attempt : nat) :
  (∀ call, f (Called call) = false) →
  List.filter f (provider_events E filePath instructions attempt) = [].
Proof.
  intros Hf. unfold provider_events.
  induction (MCPClient.called _) as [| call calls IH]; [done |].
  simpl. by rewrite Hf.
Qed.

(** The marks of the messages are read off the first bytes of the texts. *)
Lemma failure_notices_opening (attempt : nat) :
  failure_notices chatId (opening E chatId filePath instructions attempt)
  = [].
Proof.
  unfold failure_notices, opening. simpl. rewrite List.filter_app. simpl.
  rewrite filter_provider_events by done.
  case_bool_decide; [| done]. simpl.
  change (JS.startsWith "❌" (retry_text attempt)) with false.
  by rewrite andb_false_r.
Qed.

Lemma failure_notices_backoff (attempt : nat) :
  failure_notices chatId (backoff chatId attempt) = [].
Proof.
  unfold failure_notices, backoff. case_bool_decide; [| done]. simpl.
  change (JS.startsWith "❌" (backoff_text attempt _)) with false.
  by rewrite andb_false_r.
Qed.


Lemma failure_notices_failure_text (lastError : option JS.Error) :
  failure_notices chatId [Sent (sendMessage chatId (failure_text lastError))]
  = [Sent (sendMessage chatId (failure_text lastError))].
Proof.
  unfold failure_notices. simpl.
  rewrite bool_decide_eq_true_2 by done.
  by change (JS.startsWith "❌" (failure_text lastError)) with true.
Qed.

Lemma successes_opening (attempt : nat) :
  successes chatId (opening E chatId filePath instructions attempt) = [].
Proof.
  unfold successes, opening. simpl. rewrite List.filter_app. simpl.
  rewrite filter_provider_events by done.
  case_bool_decide; [| done]. simpl.
  change (JS.startsWith "✅" (retry_text attempt)) with false.
  by rewrite andb_false_r.
Qed.

Lemma successes_backoff (attempt : nat) :
  successes chatId (backoff chatId attempt) = [].
Proof.
  unfold successes, backoff. case_bool_decide; [| done]. simpl.
  change (JS.startsWith "✅" (backoff_text attempt _)) with false.
  by rewrite andb_false_r.
Qed.

Lemma successes_failure_text (lastError : option JS.Error) :
  successes chatId [Sent (sendMessage chatId (failure_text lastError))] = [].
Proof.
  unfold successes. simpl.
  change (JS.startsWith "✅" (failure_text lastError)) with false.
  by rewrite andb_false_r.
Qed.


Lemma started_opening (attempt : nat) :
  attempts_started (opening E chatId filePath instructions attempt)
  = [Started attempt].
Proof.
  unfold attempts_started, opening. simpl. rewrite List.filter_app. simpl.
  rewrite filter_provider_events by done. by case_bool_decide.
Qed.

Lemma started_backoff (attempt : nat) :
  attempts_started (backoff chatId attempt) = [].
Proof. unfold attempts_started, backoff. by case_bool_decide. Qed.


End TraceFacts.


Lemma find_first {A} (f : A → bool) (l : list A) (x : A) :
  find f l = Some x →
  ∃ before after,
    l = before ++ x :: after
    ∧ f x = true
    ∧ ∀ y, y ∈ before → f y = false.
Proof.
  induction l as [| a l IH]; [discriminate |]. simpl.
  destruct (f a) eqn:Hfa.
  - intros [= ->]. exists [], l. split; [done |]. split; [done |].
    intros y Hy. by apply elem_of_nil in Hy.
  - intros Hfind. destruct (IH Hfind) as (before & after & -> & Hx & Hb).
    exists (a :: before), after. split; [done |]. split; [done |].
    intros y [-> | Hy]%elem_of_cons; [done | by apply Hb].
Qed.





(** ** The background translation: failure, recovery, search *)

(** C2, as the code has it.  The chat accepting every request: when the
    three passes of the loop of a background translation each end with an
    error that is not classed as a timeout, every attempt has failed before
    it sent anything, and the task resolves after the third attempt; its
    trace is the three attempts with the two announced pauses between them,
    followed by one message; that message is the only failure notice of the
    trace, and its text carries the message of the third error (or the
    fixed words when that message is empty); no document and no message of
    success is sent to the chat. *)
Theorem three_failures_one_failure_notice (E : TelegramBot.Env)
    (chatId : Z) (filePath instructions userId query : string)
    (e1 e2 e3 : JS.Error) :
  reliable E →
  let first := pass E chatId filePath instructions 1 [] in
  let second := pass E chatId filePath instructions 2 first.2 in
  let third := pass E chatId filePath instructions 3 second.2 in
  first.1 = inr (TelegramBot.Continue e1) →
  second.1 = inr (TelegramBot.Continue e2) →
  third.1 = inr (TelegramBot.Continue e3) →
  TelegramBot.is_timeout e1 = false →
  TelegramBot.is_timeout e2 = false →
  TelegramBot.is_timeout e3 = false →
  let run :=
    TelegramBot.processTranslationInBackground E chatId filePath
      instructions userId query [] in
  let notice :=
    TelegramBot.Sent
      (TelegramBot.sendMessage chatId
         (TelegramBot.failure_text (Some e3))) in
  run.1 = inr (Some tt)
  ∧ (attempt_outcome E filePath instructions 1 = inl e1
     ∧ attempt_outcome E filePath instructions 2 = inl e2
     ∧ attempt_outcome E filePath instructions 3 = inl e3)
  ∧ run.2
    = opening E chatId filePath instructions 1 ++ backoff chatId 1
      ++ opening E chatId filePath instructions 2 ++ backoff chatId 2
      ++ opening E chatId filePath instructions 3 ++ [notice]
  ∧ failure_notices chatId run.2 = [notice]
  ∧ TelegramBot.failure_text (Some e3)
    = "❌ La traducción falló después de 3 intentos." +:+ JS.nl +:+ JS.nl
      +:+ "Error: " +:+ JS.or_else (JS.message e3) "Error desconocido"
      +:+ JS.nl +:+ JS.nl
      +:+ "Por favor intenta de nuevo más tarde o contacta a soporte."
  ∧ successes chatId run.2 = []
  ∧ attempts_started run.2
    = [TelegramBot.Started 1; TelegramBot.Started 2; TelegramBot.Started 3].
Proof.
  intros Hrel first second third Hp1 Hp2 Hp3 Ht1 Ht2 Ht3 run notice.
  pose proof (failing_pass_outcome E chatId filePath instructions Hrel
                1 e1 [] Hp1 Ht1) as H1.
  pose proof (failing_pass_outcome E chatId filePath instructions Hrel
                2 e2 first.2 Hp2 Ht2) as H2.
  pose proof (failing_pass_outcome E chatId filePath instructions Hrel
                3 e3 second.2 Hp3 Ht3) as H3.
  clear Hp1 Hp2 Hp3. clearbody first second third.
  assert (run
          = (inr (Some tt),
             opening E chatId filePath instructions 1 ++ backoff chatId 1
             ++ opening E chatId filePath instructions 2 ++ backoff chatId 2
             ++ opening E chatId filePath instructions 3 ++ [notice]))
    as Hrun.
  { unfold run, TelegramBot.processTranslationInBackground.
    change (S TelegramBot.MAX_RETRIES) with 4%nat.
    rewrite bind_run.
    rewrite while_attempts_step by (unfold TelegramBot.MAX_RETRIES; lia).
    rewrite (failed_pass E chatId filePath instructions Hrel 1 e1) by done.
    rewrite while_attempts_step by (unfold TelegramBot.MAX_RETRIES; lia).
    rewrite (failed_pass E chatId filePath instructions Hrel 2 e2) by done.
    rewrite while_attempts_step by (unfold TelegramBot.MAX_RETRIES; lia).
    rewrite (failed_pass E chatId filePath instructions Hrel 3 e3) by done.
    rewrite while_attempts_exit by (unfold TelegramBot.MAX_RETRIES; lia).
    rewrite bind_run, (request_sent E Hrel). unfold Eff.ret.
    f_equal. change (backoff chatId 3) with (@nil TelegramBot.Event).
    rewrite app_nil_l, app_nil_r. by rewrite <- !app_assoc. }
  clearbody run. subst run. cbn [fst snd].
  split; [reflexivity |]. split; [done |]. split; [reflexivity |].
  split; [| split; [| split]].
  - rewrite !failure_notices_app, !failure_notices_opening,
      !failure_notices_backoff.
    apply failure_notices_failure_text.
  - reflexivity.
  - rewrite !successes_app, !successes_opening, !successes_backoff.
    apply successes_failure_text.
  - by rewrite !attempts_started_app, !started_opening, !started_backoff.
Qed.

Lemma sample_reliable (call_error : JS.Error) (files : list string) :
  reliable (Sample.surroundings call_error files).
Proof. intros ticks r. reflexivity. Qed.

Lemma three_failures_one_failure_notice_witness :
  (reliable (Sample.surroundings Sample.refused Sample.listing)
   ∧ (pass (Sample.surroundings Sample.refused Sample.listing) 5
        Sample.upload222 "to french" 1 []).1
     = inr (TelegramBot.Continue Sample.refused)
   ∧ (pass (Sample.surroundings Sample.refused Sample.listing) 5
        Sample.upload222 "to french" 2
        (pass (Sample.surroundings Sample.refused Sample.listing) 5
           Sample.upload222 "to french" 1 []).2).1
     = inr (TelegramBot.Continue Sample.refused)
   ∧ (pass (Sample.surroundings Sample.refused Sample.listing) 5
        Sample.upload222 "to french" 3
        (pass (Sample.surroundings Sample.refused Sample.listing) 5
           Sample.upload222 "to french" 2
           (pass (Sample.surroundings Sample.refused Sample.listing) 5
              Sample.upload222 "to french" 1 []).2).2).1
     = inr (TelegramBot.Continue Sample.refused)
   ∧ TelegramBot.is_timeout Sample.refused = false)
  ∧ failure_notices 5
      (TelegramBot.processTranslationInBackground
         (Sample.surroundings Sample.refused Sample.listing) 5
         Sample.upload222 "to french" "222" "to french" []).2
    = [TelegramBot.Sent
         (TelegramBot.sendMessage 5
            (TelegramBot.failure_text (Some Sample.refused)))]
  ∧ successes 5
      (TelegramBot.processTranslationInBackground
         (Sample.surroundings Sample.refused Sample.listing) 5
         Sample.upload222 "to french" "222" "to french" []).2
    = [].
Proof.
  split.
  - split; [apply sample_reliable |]. repeat split; reflexivity.
  - pose proof (three_failures_one_failure_notice
                  (Sample.surroundings Sample.refused Sample.listing) 5
                  Sample.upload222 "to french" "222" "to french"
                  Sample.refused Sample.refused Sample.refused
                  (sample_reliable _ _)) as Hclaim.
    cbv zeta in Hclaim.
    destruct Hclaim as (_ & _ & _ & Hnotices & _ & Hsuccesses & _);
      try reflexivity.
    by split.
Defined.

(** C2, as the specification has it, fails: the chat refuses the message
    of completion and nothing else.  Each attempt sends the translated
    document and then fails with the error of the refused message, which is
    not a timeout; after the third attempt the failure notice goes out, and
    three documents have been delivered. *)
Lemma three_failures_after_delivery :
  ¬ StatedTask.three_failures_one_notice SampleTask.check_mark_refused 5
      Sample.upload222 "to french" "222" "to french".
Proof.
  intros Hclaim. unfold StatedTask.three_failures_one_notice in Hclaim.
  cbv zeta in Hclaim.
  destruct (Hclaim SampleTask.too_many SampleTask.too_many
              SampleTask.too_many)
    as [_ Hnone]; try (vm_compute; reflexivity).
  vm_compute in Hnone. discriminate Hnone.
Qed.



(** C9.  For an upload stored as [temp/<userId>_<name>], the user id being
    a non-empty run of digits and the name one path segment: the name that
    the timeout search derives is [<name>], without the user id; the search
    accepts exactly the files that start with [translated_] and end with
    [<name>]; what it finds is the first such file of the listing, and that
    is the file the timeout branch sends; the upload of any other user with
    the same name gives the same search, and the translation of that other
    upload is accepted by it. *)
Theorem timeout_search_ignores_user (cwd userId file_name : string) :
  is_user_id userId → is_segment file_name →
  let filePath := TelegramBot.localFilePath cwd userId file_name in
  TelegramBot.search_suffix filePath = file_name
  ∧ (∀ f, TelegramBot.matches_translated filePath f = true
          ↔ (∃ r, f = "translated_" +:+ r) ∧ (∃ p, f = p +:+ file_name))
  ∧ (∀ files found,
       find (λ f, TelegramBot.matches_translated filePath f) files
       = Some found →
       (∃ before after,
          files = before ++ found :: after
          ∧ TelegramBot.matches_translated filePath found = true
          ∧ ∀ f, f ∈ before →
              TelegramBot.matches_translated filePath f = false)
       ∧ ∀ E chatId attempt error w,
           reliable E → TelegramBot.cwd E = cwd →
           TelegramBot.is_timeout error = true →
           TelegramBot.readdir E attempt (JS.join cwd "temp") = inr files →
           TelegramBot.catch_block E chatId filePath attempt error w
           = (inr TelegramBot.Return, w ++ recovery E chatId found))
  ∧ (∀ other, is_user_id other →
       (∀ files,
          find (λ f, TelegramBot.matches_translated
                       (TelegramBot.localFilePath cwd other file_name) f)
            files
          = find (λ f, TelegramBot.matches_translated filePath f) files)
       ∧ TelegramBot.matches_translated filePath
           ("translated_" +:+ other +:+ "_" +:+ file_name) = true).
Proof.
  intros Hu Hf filePath.
  pose proof (search_suffix_upload cwd userId file_name Hu Hf) as Hsuffix.
  fold filePath in Hsuffix.
  assert (∀ f, TelegramBot.matches_translated filePath f = true
               ↔ (∃ r, f = "translated_" +:+ r)
                 ∧ (∃ p, f = p +:+ file_name))
    as Hmatch.
  { intros f. unfold TelegramBot.matches_translated.
    by rewrite Hsuffix, andb_true_iff, startsWith_spec, endsWith_spec. }
  split; [exact Hsuffix |]. split; [exact Hmatch |]. split.
  - intros files found Hfind. split.
    + by apply (find_first _ files found).
    + intros E chatId attempt error w Hrel Hcwd Htime Hdir.
      rewrite (catch_block_run E chatId filePath Hrel).
      by rewrite Htime, Hcwd, Hdir, Hfind.
  - intros other Ho. split.
    + intros files. apply find_ext. intros f.
      unfold TelegramBot.matches_translated.
      by rewrite Hsuffix, (search_suffix_upload cwd other file_name Ho Hf).
    + apply Hmatch. split; [by eexists |].
      exists ("translated_" +:+ other +:+ "_").
      by rewrite !append_assoc.
Qed.

Lemma sample_user_id (digits : string) :
  digits ≠ "" → is_digits digits = true → is_user_id digits.
Proof. by split. Qed.

Lemma timeout_search_ignores_user_witness :
  (is_user_id "222" ∧ is_segment "doc.pdf" ∧ is_user_id "111"
   ∧ "111" ≠ "222")
  ∧ TelegramBot.matches_translated
      (TelegramBot.localFilePath "/app" "222" "doc.pdf")
      ("translated_" +:+ "111" +:+ "_" +:+ "doc.pdf") = true.
Proof.
  assert (is_user_id "222") as H222 by (by apply sample_user_id).
  assert (is_user_id "111") as H111 by (by apply sample_user_id).
  split; [by repeat split |].
  exact (proj2 (proj2 (proj2 (proj2
    (timeout_search_ignores_user "/app" "222" "doc.pdf" H222 eq_refl)))
    "111" H111)).
Defined.

(** The loop of the background task ends within its fuel, whatever the
    surroundings answer: the task resolves or rejects. *)
Lemma while_attempts_within_fuel (E : TelegramBot.Env) (chatId : Z)
    (filePath instructions : string) (fuel attempt : nat)
    (lastError : option JS.Error) (w : list TelegramBot.Event) :
  (TelegramBot.MAX_RETRIES - attempt < fuel)%nat →
  (TelegramBot.while_attempts E chatId filePath instructions fuel attempt
     lastError w).1 ≠ inr TelegramBot.OutOfFuel.
Proof.
  revert attempt lastError w.
  induction fuel as [| fuel IH]; intros attempt lastError w Hfuel; [lia |].
  simpl. case_bool_decide as Hlt; [| done].
  rewrite bind_run.
  destruct (Eff.try_catch _ _ w) as [[e | [| error]] w']; [done | done |].
  apply IH. lia.
Qed.

Lemma processTranslationInBackground_total (E : TelegramBot.Env)
    (chatId : Z) (filePath instructions userId query : string)
    (w : list TelegramBot.Event) :
  (TelegramBot.processTranslationInBackground E chatId filePath
     instructions userId query w).1 ≠ inr None.
Proof.
  unfold TelegramBot.processTranslationInBackground. rewrite bind_run.
  pose proof (while_attempts_within_fuel E chatId filePath instructions
                (S TelegramBot.MAX_RETRIES) 0 None w) as Hfuel.
  destruct (TelegramBot.while_attempts _ _ _ _ _ _ _ w)
    as [[e | [| lastError |]] w'].
  - done.
  - done.
  - rewrite bind_run. unfold TelegramBot.request.
    by destruct (TelegramBot.telegram E (length w') _).
  - exfalso. apply Hfuel; [unfold TelegramBot.MAX_RETRIES; lia | done].
Qed.

(** * Further properties *)

(** ** The session store under sequences of calls *)

Section StoreFacts.
Import Types SessionManager.
Implicit Types sessions : gmap string Session.

Lemma getSession_touched created now uid sessions :
  (getSession created now uid sessions).1
  = touched created now uid (sessions !! uid).
Proof. unfold getSession. by destruct (sessions !! uid). Qed.

Lemma run_op_lookup created now uid op sessions :
  run_op created now uid op sessions !! uid
  = Some (apply_op op (touched created now uid (sessions !! uid))).
Proof.
  pose proof (getSession_touched created now uid sessions) as Hget.
  pose proof (getSession_lookup created now uid sessions) as Hlook.
  destruct op; simpl;
    unfold addMessage, clearHistory, addActiveServer, removeActiveServer,
      getActiveServers;
    destruct (getSession created now uid sessions) as [session sessions'];
    simpl in *; subst session; rewrite ?lookup_insert_eq; try done.
  f_equal. f_equal. case_bool_decide as Hlen; [done |].
  rewrite slice_last_short; [done | lia].
Qed.

Lemma cleanup_lookup now uid sessions :
  (cleanupInactiveSessions now sessions).1 !! uid
  = match sessions !! uid with
    | Some session =>
        if decide (expired now session) then None else Some session
    | None => None
    end.
Proof.
  unfold cleanupInactiveSessions.
  destruct (sessions !! uid) as [session |] eqn:Hs.
  - destruct (decide (expired now session)) as [Hexp | Hkeep].
    + apply cleanup_fold_expired with session; [| exact Hexp].
      by apply elem_of_map_to_list.
    + rewrite cleanup_fold_kept; [done |].
      intros session' Hin. apply elem_of_map_to_list in Hin.
      rewrite Hs in Hin. injection Hin as <-. unfold expired in Hkeep. lia.
  - by apply cleanup_fold_absent.
Qed.

Lemma run_call_lookup_same call uid sessions1 sessions2 :
  sessions1 !! uid = sessions2 !! uid →
  run_call call sessions1 !! uid = run_call call sessions2 !! uid.
Proof.
  intros Hsame. destruct call as [created now uid' op | now | uid']; simpl.
  - destruct (decide (uid' = uid)) as [-> | Hne].
    + by rewrite !run_op_lookup, Hsame.
    + by rewrite !run_other.
  - by rewrite !cleanup_lookup, Hsame.
  - unfold deleteSession. destruct (decide (uid' = uid)) as [-> | Hne].
    + by rewrite !lookup_delete_eq.
    + by rewrite !lookup_delete_ne.
Qed.

Lemma run_call_lookup_other call uid sessions :
  concerns uid call = false →
  run_call call sessions !! uid = sessions !! uid.
Proof.
  destruct call as [created now uid' op | now | uid']; simpl.
  - intros Hne%bool_decide_eq_false. by apply run_other.
  - discriminate.
  - intros Hne%bool_decide_eq_false. unfold deleteSession.
    by rewrite lookup_delete_ne.
Qed.

Lemma run_calls_snoc calls call sessions :
  run_calls (calls ++ [call]) sessions
  = run_call call (run_calls calls sessions).
Proof. unfold run_calls. by rewrite foldl_app. Qed.

End StoreFacts.

(** X1.  The session of a user after any sequence of calls is the session
    after the calls that concern that user alone (its own operations and
    deletions, and the sweeps): the operations of other users, however they
    are interleaved, leave no trace in it. *)
Theorem session_depends_on_own_calls (uid : string)
    (calls : list StoreCall) (sessions : gmap string Types.Session) :
  run_calls calls sessions !! uid
  = run_calls (List.filter (concerns uid) calls) sessions !! uid.
Proof.
  induction calls as [| call calls IH] using rev_ind; [done |].
  rewrite List.filter_app, run_calls_snoc. simpl.
  destruct (concerns uid call) eqn:Hc.
  - rewrite run_calls_snoc. by apply run_call_lookup_same.
  - rewrite app_nil_r, <- IH. by apply run_call_lookup_other.
Qed.

(** X2.  When users only append messages, in any interleaving, the history
    of a user is the last 20 entries of its former history followed by its
    own messages, in the order in which it sent them; no message of another
    user enters it. *)
Theorem interleaved_histories_are_separate (uid : string)
    (calls : list StoreCall) (sessions : gmap string Types.Session) :
  forallb is_addMessage calls = true →
  (length (history_of uid sessions) ≤ 20)%nat →
  history_of uid (run_calls calls sessions)
  = JS.slice_last 20 (history_of uid sessions ++ appended_for uid calls).
Proof.
  intros Hall Hlen.
  induction calls as [| call calls IH] using rev_ind.
  - simpl. rewrite app_nil_r. by rewrite slice_last_short.
  - rewrite forallb_app in Hall. apply andb_true_iff in Hall as [Hcalls Hcall].
    specialize (IH Hcalls). rewrite run_calls_snoc.
    unfold appended_for. rewrite omap_app. fold (appended_for uid calls).
    destruct call as [created now uid' [message | | | |] | |]; try discriminate.
    simpl. case_bool_decide as Huid; simpl.
    + subst uid'. rewrite addMessage_history, IH.
      rewrite slice_last_snoc by lia. by rewrite app_assoc.
    + rewrite app_nil_r, <- IH. unfold history_of.
      pose proof (run_other created now uid' uid (OpAddMessage message)
                    (run_calls calls sessions) Huid) as Hother.
      simpl in Hother. by rewrite Hother.
Qed.

Lemma interleaved_histories_are_separate_witness :
  (forallb is_addMessage chatter = true
   ∧ (length (history_of "7" ∅) ≤ 20)%nat)
  ∧ Types.content <$> history_of "7" (run_calls chatter ∅)
    = ["hola"; "buenas"].
Proof.
  split; [split; [reflexivity | vm_compute; lia] |].
  rewrite (interleaved_histories_are_separate "7" chatter ∅);
    [reflexivity | reflexivity | vm_compute; lia].
Defined.

Section StoreInvariant.
Import Types SessionManager.
Implicit Types sessions : gmap string Session.

Lemma StrSet_add_NoDup (x : string) (s : list string) :
  NoDup s → NoDup (JS.StrSet.add x s).
Proof.
  intros Hs. unfold JS.StrSet.add, JS.StrSet.has.
  case_bool_decide as Hin; [done |].
  apply NoDup_app. split; [done |]. split.
  - intros y Hy Hy'. apply list_elem_of_singleton in Hy'. by subst y.
  - apply NoDup_singleton.
Qed.

Lemma StrSet_delete_NoDup (x : string) (s : list string) :
  NoDup s → NoDup (JS.StrSet.delete x s).
Proof. apply NoDup_filter. Qed.

Lemma touched_ok created now uid (before : option Session) :
  (∀ session, before = Some session → session_ok uid session) →
  session_ok uid (touched created now uid before).
Proof.
  intros Hbefore. destruct before as [session |]; simpl.
  - destruct (Hbefore session eq_refl) as (Hid & Hlen & Hnd).
    by repeat split.
  - split; [done |]. split; [simpl; lia | apply NoDup_nil_2].
Qed.

Lemma apply_op_ok uid op session :
  session_ok uid session → session_ok uid (apply_op op session).
Proof.
  intros (Hid & Hlen & Hnd). destruct op; simpl; unfold session_ok; simpl.
  - split; [done |]. split; [| done]. rewrite slice_last_length. lia.
  - split; [done |]. split; [simpl; lia | done].
  - split; [done |]. split; [done |]. by apply StrSet_add_NoDup.
  - split; [done |]. split; [done |]. by apply StrSet_delete_NoDup.
  - done.
Qed.

Lemma run_call_ok call sessions :
  store_ok sessions → store_ok (run_call call sessions).
Proof.
  intros Hok uid session.
  destruct call as [created now uid' op | now | uid']; simpl.
  - destruct (decide (uid' = uid)) as [-> | Hne].
    + rewrite run_op_lookup. intros [= <-].
      apply apply_op_ok, touched_ok. intros s Hs. by apply Hok.
    + rewrite run_other by done. apply Hok.
  - rewrite cleanup_lookup.
    destruct (sessions !! uid) as [s |] eqn:Hs; [| done].
    destruct (decide (expired now s)); [done |].
    intros [= <-]. by apply Hok.
  - unfold deleteSession. destruct (decide (uid' = uid)) as [-> | Hne].
    + by rewrite lookup_delete_eq.
    + rewrite lookup_delete_ne by done. apply Hok.
Qed.

Lemma StrSet_add_elem (x y : string) (s : list string) :
  y ∈ JS.StrSet.add x s ↔ y = x ∨ y ∈ s.
Proof.
  unfold JS.StrSet.add, JS.StrSet.has. case_bool_decide as Hin.
  - split; [by right |]. by intros [-> | Hy].
  - rewrite elem_of_app, list_elem_of_singleton. tauto.
Qed.

Lemma StrSet_delete_elem (x y : string) (s : list string) :
  y ∈ JS.StrSet.delete x s ↔ y ≠ x ∧ y ∈ s.
Proof. unfold JS.StrSet.delete. by rewrite list_elem_of_filter. Qed.

Lemma active_of_run_op created now uid op sessions :
  active_of uid (run_op created now uid op sessions)
  = match op with
    | OpAddActiveServer serverId =>
        JS.StrSet.add serverId (active_of uid sessions)
    | OpRemoveActiveServer serverId =>
        JS.StrSet.delete serverId (active_of uid sessions)
    | _ => active_of uid sessions
    end.
Proof.
  unfold active_of at 1. rewrite run_op_lookup. unfold active_of.
  by destruct op, (sessions !! uid).
Qed.

End StoreInvariant.

(** X3.  Every session that the store holds keeps three facts: it is filed
    under its own user id, its history has at most 20 messages, and its list
    of active servers has no repetition.  Each call keeps them, so they hold
    after any sequence of operations, sweeps and deletions on a new
    store. *)
Theorem store_invariant (calls : list StoreCall) :
  store_ok (run_calls calls ∅).
Proof.
  induction calls as [| call calls IH] using rev_ind.
  - intros uid session Hs. unfold run_calls in Hs. simpl in Hs.
    by rewrite lookup_empty in Hs.
  - rewrite run_calls_snoc. by apply run_call_ok.
Qed.

Lemma StrSet_delete_absent (x : string) (s : list string) :
  x ∉ s → JS.StrSet.delete x s = s.
Proof.
  intros Hx. unfold JS.StrSet.delete.
  induction s as [| y s IH]; [done |].
  rewrite filter_cons. rewrite not_elem_of_cons in Hx. destruct Hx as [Hy Hs].
  rewrite decide_True by done. by rewrite IH.
Qed.

Lemma StrSet_delete_middle (x : string) (before after : list string) :
  x ∉ before → x ∉ after →
  JS.StrSet.delete x (before ++ x :: after) = before ++ after.
Proof.
  intros Hb Ha.
  pose proof (StrSet_delete_absent x before Hb) as Hdb.
  pose proof (StrSet_delete_absent x after Ha) as Hda.
  unfold JS.StrSet.delete in *.
  rewrite filter_app, filter_cons, decide_False by (intros H; by apply H).
  by rewrite Hdb, Hda.
Qed.

(** X4.  The active servers of a user behave as a set in insertion order.
    After [addActiveServer] the server is active beside the ones that were:
    a server that was not active is put last, and a server that was active
    already leaves the list as it is, so adding twice is adding once.  After
    [removeActiveServer] the server is not active and the others are, in
    the order they had: removing a server that was not active leaves the
    list as it is, and removing the one occurrence of an active server
    leaves what was before it followed by what was after it.
    [getActiveServers] returns the list and leaves it as it is.  A list
    without repetition stays so under the three operations, and on a store
    built by calls from the new store [getActiveServers] never returns a
    server twice. *)
Theorem active_servers_are_a_set (created now : Z) (uid serverId : string)
    (sessions : gmap string Types.Session) :
  let added :=
    SessionManager.addActiveServer created now uid serverId sessions in
  let removed :=
    SessionManager.removeActiveServer created now uid serverId sessions in
  let listed := SessionManager.getActiveServers created now uid sessions in
  (∀ x, x ∈ active_of uid added ↔ x = serverId ∨ x ∈ active_of uid sessions)
  ∧ (serverId ∈ active_of uid sessions →
     active_of uid added = active_of uid sessions)
  ∧ (serverId ∉ active_of uid sessions →
     active_of uid added = active_of uid sessions ++ [serverId])
  ∧ (∀ created' now',
       active_of uid
         (SessionManager.addActiveServer created' now' uid serverId added)
       = active_of uid added)
  ∧ (∀ x, x ∈ active_of uid removed
          ↔ x ≠ serverId ∧ x ∈ active_of uid sessions)
  ∧ (serverId ∉ active_of uid sessions →
     active_of uid removed = active_of uid sessions)
  ∧ (∀ before after,
       active_of uid sessions = before ++ serverId :: after →
       serverId ∉ before → serverId ∉ after →
       active_of uid removed = before ++ after)
  ∧ listed.1 = active_of uid sessions
  ∧ active_of uid listed.2 = active_of uid sessions
  ∧ (NoDup (active_of uid sessions) →
     NoDup (active_of uid added) ∧ NoDup (active_of uid removed)
     ∧ NoDup listed.1)
  ∧ (∀ calls created' now',
       NoDup (SessionManager.getActiveServers created' now' uid
                (run_calls calls ∅)).1).
Proof.
  intros added removed listed.
  pose proof (active_of_run_op created now uid (OpAddActiveServer serverId)
                sessions) as Hadd.
  pose proof (active_of_run_op created now uid (OpRemoveActiveServer serverId)
                sessions) as Hremove.
  pose proof (active_of_run_op created now uid OpGetActiveServers sessions)
    as Hget.
  simpl in Hadd, Hremove, Hget. fold added in Hadd. fold removed in Hremove.
  assert (serverId ∈ active_of uid added) as Hin.
  { rewrite Hadd. apply StrSet_add_elem. by left. }
  assert (∀ created' now' store,
            (SessionManager.getActiveServers created' now' uid store).1
            = active_of uid store) as Hlisted.
  { intros created' now' store.
    unfold SessionManager.getActiveServers, active_of.
    pose proof (getSession_touched created' now' uid store) as Ht.
    destruct (SessionManager.getSession created' now' uid store)
      as [s store'].
    simpl in *. subst s. by destruct (store !! uid). }
  split; [| split; [| split; [| split; [| split; [| split; [| split;
    [| split; [| split; [| split]]]]]]]]].
  - intros x. rewrite Hadd. apply StrSet_add_elem.
  - intros Hactive. rewrite Hadd. unfold JS.StrSet.add, JS.StrSet.has.
    by rewrite bool_decide_eq_true_2.
  - intros Hnew. rewrite Hadd. unfold JS.StrSet.add, JS.StrSet.has.
    by rewrite bool_decide_eq_false_2.
  - intros created' now'.
    pose proof (active_of_run_op created' now' uid
                  (OpAddActiveServer serverId) added) as Hagain.
    simpl in Hagain. rewrite Hagain. unfold JS.StrSet.add, JS.StrSet.has.
    by rewrite bool_decide_eq_true_2.
  - intros x. rewrite Hremove. apply StrSet_delete_elem.
  - intros Hnew. rewrite Hremove. by apply StrSet_delete_absent.
  - intros before after Hsplit Hb Ha. rewrite Hremove, Hsplit.
    by apply StrSet_delete_middle.
  - apply Hlisted.
  - exact Hget.
  - intros Hnd. split; [| split].
    + rewrite Hadd. by apply StrSet_add_NoDup.
    + rewrite Hremove. by apply StrSet_delete_NoDup.
    + unfold listed. by rewrite Hlisted.
  - intros calls created' now'. rewrite Hlisted. unfold active_of.
    assert (store_ok (run_calls calls ∅)) as Hok.
    { induction calls as [| call calls IH] using rev_ind.
      - intros u session Hs. unfold run_calls in Hs. simpl in Hs.
        by rewrite lookup_empty in Hs.
      - rewrite run_calls_snoc. by apply run_call_ok. }
    destruct (run_calls calls ∅ !! uid) as [session |] eqn:Hs.
    + by destruct (Hok uid session Hs) as (_ & _ & Hnd).
    + apply NoDup_nil_2.
Qed.

Section SweepFacts.
Import Types SessionManager.
Implicit Types sessions : gmap string Session.

Lemma cleanup_fold_count now (l : list (string * Session)) sessions cleaned :
  (foldl (cleanup_step now) (sessions, cleaned) l).2
  = (cleaned + length (filter (λ kv, expired now kv.2) l))%nat.
Proof.
  revert sessions cleaned.
  induction l as [| [k s] l IH]; intros sessions cleaned; simpl; [lia |].
  rewrite filter_cons. simpl. unfold expired at 2.
  case_bool_decide as Hexp.
  - rewrite decide_True by done. rewrite IH. simpl. lia.
  - rewrite decide_False by done. by rewrite IH.
Qed.

Lemma filter_none {A} (P : A → Prop) `{∀ x, Decision (P x)} (l : list A) :
  (∀ x, x ∈ l → ¬ P x) → filter P l = [].
Proof.
  induction l as [| a l IH]; intros Hnone; [done |].
  rewrite filter_cons, decide_False by (apply Hnone, list_elem_of_here).
  apply IH. intros x Hx. by apply Hnone, list_elem_of_further.
Qed.

Lemma size_filter_list (P : string * Session → Prop)
    `{∀ kv, Decision (P kv)} sessions :
  size (filter P sessions) = length (filter P (map_to_list sessions)).
Proof.
  rewrite map_filter_alt, map_size_list_to_map; [done |].
  apply (sublist_NoDup _ (map_to_list sessions).*1).
  - apply NoDup_fst_map_to_list.
  - apply fmap_sublist, sublist_filter.
Qed.

Lemma size_filter_split (P : string * Session → Prop)
    `{∀ kv, Decision (P kv)} sessions :
  (size (filter (λ kv, ¬ P kv) sessions) + size (filter P sessions))%nat
  = size sessions.
Proof.
  rewrite <- (map_filter_union_complement P sessions) at 3.
  rewrite map_size_disj_union by apply map_disjoint_filter_complement.
  lia.
Qed.

End SweepFacts.

(** X5.  A sweep at time [now] leaves exactly the sessions that are not
    expired at [now], each as it was; its counter is the number of sessions
    that were expired, so that the sessions left and the sessions counted
    add up to the sessions before.  A second sweep at the same time removes
    nothing. *)
Theorem sweep_is_a_filter (now : Z) (sessions : gmap string Types.Session) :
  let swept := (SessionManager.cleanupInactiveSessions now sessions).1 in
  let cleaned := (SessionManager.cleanupInactiveSessions now sessions).2 in
  swept = filter (λ kv, ¬ expired now kv.2) sessions
  ∧ cleaned = size (filter (λ kv, expired now kv.2) sessions)
  ∧ (size swept + cleaned)%nat = size sessions
  ∧ SessionManager.cleanupInactiveSessions now swept = (swept, 0%nat).
Proof.
  intros swept cleaned.
  assert (swept = filter (λ kv, ¬ expired now kv.2) sessions) as Hswept.
  { apply map_eq. intros uid. unfold swept.
    rewrite cleanup_lookup, map_lookup_filter.
    destruct (sessions !! uid) as [s |]; simpl; [| done].
    destruct (decide (expired now s)) as [Hexp | Hkeep].
    - by rewrite (option_guard_False (¬ expired now s)) by tauto.
    - by rewrite (option_guard_True (¬ expired now s)). }
  assert (cleaned = size (filter (λ kv, expired now kv.2) sessions))
    as Hcleaned.
  { unfold cleaned, SessionManager.cleanupInactiveSessions.
    rewrite cleanup_fold_count. simpl.
    by rewrite (size_filter_list (λ kv, expired now kv.2)). }
  split; [done |]. split; [done |]. split.
  - rewrite Hswept, Hcleaned.
    apply (size_filter_split (λ kv, expired now kv.2)).
  - assert ((SessionManager.cleanupInactiveSessions now swept).1 = swept)
      as Hagain.
    { apply map_eq. intros uid. rewrite cleanup_lookup.
      destruct (swept !! uid) as [s |] eqn:Hs; [| done].
      rewrite decide_False; [done |].
      rewrite Hswept in Hs. apply map_lookup_filter_Some in Hs. tauto. }
    assert ((SessionManager.cleanupInactiveSessions now swept).2 = 0%nat)
      as Hzero.
    { unfold SessionManager.cleanupInactiveSessions.
      rewrite cleanup_fold_count. simpl.
      rewrite filter_none; [done |].
      intros [uid s] Hin Hexp. simpl in Hexp.
      apply elem_of_map_to_list in Hin.
      rewrite Hswept in Hin. apply map_lookup_filter_Some in Hin. tauto. }
    destruct (SessionManager.cleanupInactiveSessions now swept).
    simpl in *. by subst.
Qed.

(** X6.  A user whose session a sweep has removed, or whose session was
    deleted, starts afresh at the next message: the history is that message
    alone, no server is active, and the time stamps are the two readings of
    the clock in that call, [created] for [createdAt] and [later] for
    [lastActivity]; what the session held before is gone. *)
Theorem removed_session_starts_afresh (now created later : Z) (uid : string)
    (message : Types.ConversationMessage)
    (sessions : gmap string Types.Session) (session : Types.Session) :
  sessions !! uid = Some session →
  let fresh :=
    {| Types.userId := uid;
       Types.conversationHistory := [message];
       Types.activeServers := [];
       Types.createdAt := created;
       Types.lastActivity := later |} in
  (expired now session →
   SessionManager.addMessage created later uid message
     (SessionManager.cleanupInactiveSessions now sessions).1 !! uid
   = Some fresh)
  ∧ SessionManager.addMessage created later uid message
      (SessionManager.deleteSession uid sessions) !! uid
    = Some fresh.
Proof.
  intros Hs fresh.
  assert (∀ gone : gmap string Types.Session, gone !! uid = None →
            SessionManager.addMessage created later uid message gone
              !! uid
            = Some fresh) as Hfresh.
  { intros gone Hgone.
    pose proof (run_op_lookup created later uid (OpAddMessage message) gone)
      as Hop.
    simpl in Hop. rewrite Hop, Hgone. reflexivity. }
  split.
  - intros Hexp. apply Hfresh. rewrite cleanup_lookup, Hs.
    by rewrite decide_True.
  - apply Hfresh. unfold SessionManager.deleteSession.
    apply lookup_delete_eq.
Qed.

Lemma removed_session_starts_afresh_witness :
  (three_sessions !! "2" = Some (session_at "2" 100)
   ∧ expired 2000000 (session_at "2" 100))
  ∧ SessionManager.addMessage 2000001 2000002 "2" hello
      (SessionManager.cleanupInactiveSessions 2000000 three_sessions).1
      !! "2"
    = Some {| Types.userId := "2";
              Types.conversationHistory := [hello];
              Types.activeServers := [];
              Types.createdAt := 2000001;
              Types.lastActivity := 2000002 |}.
Proof.
  assert (expired 2000000 (session_at "2" 100)) as Hexp
    by (unfold expired; simpl; unfold SessionManager.SESSION_TIMEOUT; lia).
  split; [split; [reflexivity | exact Hexp] |].
  exact (proj1 (removed_session_starts_afresh 2000000 2000001 2000002 "2"
                  hello three_sessions (session_at "2" 100) eq_refl) Hexp).
Defined.

(** X7.  The operations of the store never remove a session and never move
    its creation: after any sequence of operations of any users, a user who
    had a session still has one, filed under the same user id and with the
    same [createdAt]. *)
Theorem operations_keep_the_session (uid : string) (calls : list StoreCall)
    (sessions : gmap string Types.Session) (before : Types.Session) :
  forallb is_op calls = true →
  sessions !! uid = Some before →
  ∃ after,
    run_calls calls sessions !! uid = Some after
    ∧ Types.userId after = Types.userId before
    ∧ Types.createdAt after = Types.createdAt before.
Proof.
  intros Hall Hs.
  induction calls as [| call calls IH] using rev_ind.
  - exists before. by split.
  - rewrite forallb_app in Hall. apply andb_true_iff in Hall as [Hcalls Hcall].
    destruct (IH Hcalls) as (middle & Hm & Hid & Hcreated).
    rewrite run_calls_snoc.
    destruct call as [created now uid' op | |]; try discriminate. simpl.
    destruct (decide (uid' = uid)) as [-> | Hne].
    + rewrite run_op_lookup, Hm. eexists. split; [done |].
      by destruct op.
    + rewrite run_other by done. by exists middle.
Qed.

Lemma operations_keep_the_session_witness :
  (forallb is_op chatter = true
   ∧ three_sessions !! "3" = Some (session_at "3" 1900000))
  ∧ ∃ after,
      run_calls chatter three_sessions !! "3" = Some after
      ∧ Types.userId after = "3"
      ∧ Types.createdAt after = 0.
Proof.
  split; [by split |].
  apply (operations_keep_the_session "3" chatter three_sessions
           (session_at "3" 1900000)); reflexivity.
Defined.

(** ** The provider connections under sequences of calls *)

Section StrMapMore.
Context {V : Type}.
Implicit Types m : list (string * V).

Lemma get_None_keys k m : JS.StrMap.get k m = None ↔ k ∉ JS.StrMap.keys m.
Proof.
  unfold JS.StrMap.keys. induction m as [| [k0 v0] m IH]; simpl.
  - split; [intros _; apply not_elem_of_nil | done].
  - rewrite not_elem_of_cons. destruct (decide (k0 = k)) as [-> | Hne].
    + split; [discriminate | intros [Hne _]; done].
    + rewrite IH. split; [intros Hk; by split | by intros [_ Hk]].
Qed.

Lemma keys_get_Some k m :
  k ∈ JS.StrMap.keys m → ∃ v, JS.StrMap.get k m = Some v.
Proof.
  intros Hin. destruct (JS.StrMap.get k m) as [v |] eqn:Hget; [by exists v |].
  by apply get_None_keys in Hget.
Qed.

Lemma keys_set k v m :
  JS.StrMap.keys (JS.StrMap.set k v m)
  = if decide (k ∈ JS.StrMap.keys m)
    then JS.StrMap.keys m
    else JS.StrMap.keys m ++ [k].
Proof.
  unfold JS.StrMap.keys. induction m as [| [k0 v0] m IH].
  - destruct (decide (k ∈ ([] : list (string * V)).*1)) as [Hin | _]; [| done].
    by apply elem_of_nil in Hin.
  - cbn [JS.StrMap.set]. rewrite fmap_cons. cbn [fst].
    destruct (decide (k0 = k)) as [-> | Hne].
    + rewrite fmap_cons. cbn [fst].
      destruct (decide (k ∈ k :: m.*1)) as [_ | Hout]; [done |].
      exfalso. apply Hout, list_elem_of_here.
    + rewrite fmap_cons, IH. cbn [fst].
      destruct (decide (k ∈ m.*1)) as [Hin | Hout];
        destruct (decide (k ∈ k0 :: m.*1)) as [Hin' | Hout']; try done.
      * exfalso. by apply Hout', list_elem_of_further.
      * exfalso. apply elem_of_cons in Hin' as [-> | Hin']; done.
Qed.

Lemma keys_delete k m :
  JS.StrMap.keys (JS.StrMap.delete k m)
  = filter (λ k', k' ≠ k) (JS.StrMap.keys m).
Proof.
  unfold JS.StrMap.keys, JS.StrMap.delete.
  induction m as [| [k0 v0] m IH]; [done |].
  rewrite fmap_cons, !filter_cons. cbn [fst].
  destruct (decide (k0 ≠ k)); rewrite ?fmap_cons; cbn [fst]; by rewrite IH.
Qed.

Lemma delete_absent k m :
  k ∉ JS.StrMap.keys m → JS.StrMap.delete k m = m.
Proof.
  unfold JS.StrMap.keys, JS.StrMap.delete.
  induction m as [| [k0 v0] m IH]; [done |].
  rewrite fmap_cons, not_elem_of_cons. cbn [fst]. intros [Hne Hout].
  rewrite filter_cons. cbn [fst].
  destruct (decide (k0 ≠ k)) as [_ | Heq]; [by rewrite IH |].
  exfalso. apply Heq. congruence.
Qed.

Lemma delete_set_fresh k v m :
  k ∉ JS.StrMap.keys m → JS.StrMap.delete k (JS.StrMap.set k v m) = m.
Proof.
  unfold JS.StrMap.keys, JS.StrMap.delete.
  induction m as [| [k0 v0] m IH].
  - intros _. cbn [JS.StrMap.set]. rewrite filter_cons. cbn [fst].
    destruct (decide (k ≠ k)) as [Hne | _]; done.
  - rewrite fmap_cons, not_elem_of_cons. cbn [fst]. intros [Hne Hout].
    cbn [JS.StrMap.set].
    destruct (decide (k0 = k)) as [Heq | _]; [congruence |].
    rewrite filter_cons. cbn [fst].
    destruct (decide (k0 ≠ k)) as [_ | Heq]; [by rewrite IH |].
    exfalso. apply Heq. congruence.
Qed.

Lemma keys_delete_absent k m : k ∉ JS.StrMap.keys (JS.StrMap.delete k m).
Proof. rewrite keys_delete, list_elem_of_filter. by intros [Hne _]. Qed.

Lemma delete_commute k1 k2 m :
  JS.StrMap.delete k1 (JS.StrMap.delete k2 m)
  = JS.StrMap.delete k2 (JS.StrMap.delete k1 m).
Proof.
  unfold JS.StrMap.delete. induction m as [| [k0 v0] m IH]; [done |].
  rewrite !filter_cons. cbn [fst].
  destruct (decide (k0 ≠ k2)), (decide (k0 ≠ k1));
    rewrite ?filter_cons; cbn [fst];
    repeat (destruct (decide _); try done); by rewrite IH.
Qed.

Lemma keys_set_NoDup k v m :
  NoDup (JS.StrMap.keys m) → NoDup (JS.StrMap.keys (JS.StrMap.set k v m)).
Proof.
  intros Hnd. rewrite keys_set. case_decide as Hin; [done |].
  apply NoDup_app. split; [done |]. split; [| apply NoDup_singleton].
  intros x Hx Hx'. apply list_elem_of_singleton in Hx'. by subst x.
Qed.

Lemma keys_delete_NoDup k m :
  NoDup (JS.StrMap.keys m) → NoDup (JS.StrMap.keys (JS.StrMap.delete k m)).
Proof. intros Hnd. rewrite keys_delete. by apply NoDup_filter. Qed.

Lemma keys_set_elem k k' v m :
  k' ∈ JS.StrMap.keys (JS.StrMap.set k v m)
  ↔ k' = k ∨ k' ∈ JS.StrMap.keys m.
Proof.
  rewrite keys_set. case_decide as Hin.
  - split; [by right |]. by intros [-> | Hk].
  - rewrite elem_of_app, list_elem_of_singleton. tauto.
Qed.

Lemma keys_delete_elem k k' m :
  k' ∈ JS.StrMap.keys (JS.StrMap.delete k m)
  ↔ k' ≠ k ∧ k' ∈ JS.StrMap.keys m.
Proof. by rewrite keys_delete, list_elem_of_filter. Qed.

End StrMapMore.

Lemma disconnect_answer (sdk : MCPClient.Sdk) (serverId : string)
    (st : MCPClient.t) :
  answer (MCPClient.disconnect sdk serverId) st
  = match client_teardown sdk serverId st with
    | Some error => inl error
    | None =>
        match transport_teardown sdk serverId st with
        | Some error => inl error
        | None => inr tt
        end
    end.
Proof.
  unfold answer. rewrite disconnect_run.
  destruct (client_teardown sdk serverId st); [done |]. cbv zeta.
  by destruct (transport_teardown sdk serverId st).
Qed.

Lemma disconnect_after (sdk : MCPClient.Sdk) (serverId : string)
    (st : MCPClient.t) :
  after (MCPClient.disconnect sdk serverId) st
  = match client_teardown sdk serverId st with
    | Some _ => st
    | None =>
        match transport_teardown sdk serverId st with
        | Some _ => MCPClient.delete_client serverId st
        | None => forget serverId st
        end
    end.
Proof.
  unfold after. rewrite disconnect_run.
  destruct (client_teardown sdk serverId st); [done |]. cbv zeta.
  assert (Hclient :
    match JS.StrMap.get serverId (MCPClient.clients st) with
    | Some _ => MCPClient.delete_client serverId st
    | None => st
    end = MCPClient.delete_client serverId st).
  { destruct (JS.StrMap.get serverId (MCPClient.clients st)) eqn:Hget;
      [done |].
    apply get_None_keys in Hget. unfold MCPClient.delete_client.
    rewrite delete_absent by done. by destruct st. }
  rewrite Hclient.
  destruct (transport_teardown sdk serverId st); [done |]. cbn [snd].
  cbn [MCPClient.this]. unfold forget. f_equal.
  destruct (JS.StrMap.get serverId (MCPClient.transports st)) eqn:Hget;
    [done |].
  apply get_None_keys in Hget.
  unfold MCPClient.delete_transport, MCPClient.delete_client.
  cbn [MCPClient.clients MCPClient.transports MCPClient.availableTools].
  by rewrite (delete_absent _ (MCPClient.transports st)).
Qed.

Lemma connect_answer (sdk : MCPClient.Sdk) (config : Types.MCPServerConfig)
    (st : MCPClient.t) :
  let client :=
    MCPClient.new_Client (MCPClient.new_StdioClientTransport config) in
  answer (MCPClient.connect sdk config) st
  = match MCPClient.client_connect sdk client with
    | Some error => inl error
    | None =>
        match MCPClient.client_listTools sdk client with
        | inl error => inl error
        | inr _ => inr tt
        end
    end.
Proof.
  intros client. unfold answer. rewrite connect_run. fold client.
  destruct (MCPClient.client_connect sdk client); [done |].
  by destruct (MCPClient.client_listTools sdk client).
Qed.

Lemma connect_after (sdk : MCPClient.Sdk) (config : Types.MCPServerConfig)
    (st : MCPClient.t) :
  let transport := MCPClient.new_StdioClientTransport config in
  let client := MCPClient.new_Client transport in
  let recorded :=
    MCPClient.set_transport (Types.id config) transport
      (MCPClient.set_client (Types.id config) client st) in
  after (MCPClient.connect sdk config) st
  = match MCPClient.client_connect sdk client with
    | Some _ => st
    | None =>
        match MCPClient.client_listTools sdk client with
        | inl _ => recorded
        | inr listed =>
            MCPClient.set_tools (Types.id config)
              (MCPClient.convert_tool <$> listed) recorded
        end
    end.
Proof.
  intros transport client recorded. unfold after. rewrite connect_run.
  fold transport client recorded.
  destruct (MCPClient.client_connect sdk client); [done |].
  by destruct (MCPClient.client_listTools sdk client).
Qed.

(** X8.  A [connect] that resolves stores the client and the transport that
    it built and sets the tools of the server to the conversion of the
    listed ones: the list from an earlier [connect] of the same id is
    replaced, not extended.  A server that was registered keeps its place
    in the order of the registry, a new one goes to the end.  The entries of
    the other servers, in the three maps, are the ones from before. *)
Theorem connect_replaces_in_place (sdk : MCPClient.Sdk)
    (config : Types.MCPServerConfig) (st : MCPClient.t) :
  answer (MCPClient.connect sdk config) st = inr tt →
  let transport := MCPClient.new_StdioClientTransport config in
  let client := MCPClient.new_Client transport in
  let st' := after (MCPClient.connect sdk config) st in
  let registered := JS.StrMap.keys (MCPClient.availableTools st) in
  ∃ tools,
    MCPClient.client_listTools sdk client = inr tools
    ∧ JS.StrMap.get (Types.id config) (MCPClient.availableTools st')
      = Some (MCPClient.convert_tool <$> tools)
    ∧ JS.StrMap.get (Types.id config) (MCPClient.clients st') = Some client
    ∧ JS.StrMap.get (Types.id config) (MCPClient.transports st')
      = Some transport
    ∧ JS.StrMap.keys (MCPClient.availableTools st')
      = (if decide (Types.id config ∈ registered)
         then registered
         else registered ++ [Types.id config])
    ∧ ∀ other, other ≠ Types.id config →
        JS.StrMap.get other (MCPClient.availableTools st')
        = JS.StrMap.get other (MCPClient.availableTools st)
        ∧ JS.StrMap.get other (MCPClient.clients st')
          = JS.StrMap.get other (MCPClient.clients st)
        ∧ JS.StrMap.get other (MCPClient.transports st')
          = JS.StrMap.get other (MCPClient.transports st).
Proof.
  intros Hok transport client st' registered. subst st'.
  pose proof (connect_answer sdk config st) as Hanswer.
  pose proof (connect_after sdk config st) as Hafter.
  cbv zeta in Hanswer, Hafter. fold transport client in Hanswer, Hafter.
  rewrite Hok in Hanswer. rewrite Hafter.
  destruct (MCPClient.client_connect sdk client); [discriminate |].
  destruct (MCPClient.client_listTools sdk client) as [| tools];
    [discriminate |].
  exists tools. split; [done |].
  cbn [MCPClient.set_tools MCPClient.set_transport MCPClient.set_client
       MCPClient.availableTools MCPClient.clients MCPClient.transports].
  rewrite !get_set_eq, keys_set. repeat (split; [done |]).
  intros other Hne. by rewrite !get_set_ne.
Qed.

Lemma connect_replaces_in_place_witness :
  ∃ tools,
    MCPClient.client_listTools Sample.sdk_ok
      (MCPClient.new_Client
         (MCPClient.new_StdioClientTransport Sample.pdf_config))
    = inr tools
    ∧ JS.StrMap.get (Types.id Sample.pdf_config)
        (MCPClient.availableTools
           (after (MCPClient.connect Sample.sdk_ok Sample.pdf_config)
              Sample.connected))
      = Some (MCPClient.convert_tool <$> tools).
Proof.
  destruct (connect_replaces_in_place Sample.sdk_ok Sample.pdf_config
              Sample.connected) as (tools & Hlist & Htools & _).
  - vm_compute. reflexivity.
  - exists tools. split; [exact Hlist | exact Htools].
Defined.

(** X9.  For a server that has no entry in any of the three maps, a
    [connect] that resolves followed by a [disconnect] whose two [close]
    calls succeed gives back the object from before the [connect]: the
    other servers keep their entries and their order. *)
Theorem connect_then_disconnect (sdk sdk' : MCPClient.Sdk)
    (config : Types.MCPServerConfig) (st : MCPClient.t) :
  unknown (Types.id config) st →
  answer (MCPClient.connect sdk config) st = inr tt →
  closes_all sdk' →
  let st' := after (MCPClient.connect sdk config) st in
  answer (MCPClient.disconnect sdk' (Types.id config)) st' = inr tt
  ∧ after (MCPClient.disconnect sdk' (Types.id config)) st' = st.
Proof.
  intros (Hclients & Htransports & Htools) Hok [Hclient Htransport] st'.
  subst st'.
  rewrite disconnect_answer, disconnect_after.
  assert (Hc : ∀ st0, client_teardown sdk' (Types.id config) st0 = None).
  { intros st0. unfold client_teardown.
    by destruct (JS.StrMap.get _ (MCPClient.clients st0)). }
  assert (Ht : ∀ st0, transport_teardown sdk' (Types.id config) st0 = None).
  { intros st0. unfold transport_teardown.
    by destruct (JS.StrMap.get _ (MCPClient.transports st0)). }
  rewrite Hc, Ht. split; [done |].
  pose proof (connect_answer sdk config st) as Hanswer.
  pose proof (connect_after sdk config st) as Hafter.
  cbv zeta in Hanswer, Hafter. rewrite Hok in Hanswer. rewrite Hafter.
  destruct (MCPClient.client_connect sdk _); [discriminate |].
  destruct (MCPClient.client_listTools sdk _) as [| tools];
    [discriminate |].
  unfold forget, MCPClient.delete_tools, MCPClient.delete_transport,
    MCPClient.delete_client, MCPClient.set_tools, MCPClient.set_transport,
    MCPClient.set_client.
  cbn [MCPClient.availableTools MCPClient.clients MCPClient.transports].
  rewrite !delete_set_fresh by done. by destruct st.
Qed.

Lemma connect_then_disconnect_witness :
  after (MCPClient.disconnect Sample.sdk_ok (Types.id Sample.pdf_config))
    (after (MCPClient.connect Sample.sdk_ok Sample.pdf_config)
       MCPClient.empty)
  = MCPClient.empty.
Proof.
  apply (connect_then_disconnect Sample.sdk_ok Sample.sdk_ok
           Sample.pdf_config MCPClient.empty).
  - repeat split; apply not_elem_of_nil.
  - vm_compute. reflexivity.
  - split; intros; reflexivity.
Defined.

(** X10.  After a [disconnect] that resolved, a further [disconnect] of the
    same id resolves as well, whatever the SDK would answer: the server has
    no client and no transport left, so no [close] call is made, and the
    object stays as the first call left it. *)
Theorem disconnect_again_is_quiet (sdk sdk' : MCPClient.Sdk)
    (serverId : string) (st : MCPClient.t) :
  answer (MCPClient.disconnect sdk serverId) st = inr tt →
  let st' := after (MCPClient.disconnect sdk serverId) st in
  unknown serverId st'
  ∧ client_teardown sdk' serverId st' = None
  ∧ transport_teardown sdk' serverId st' = None
  ∧ answer (MCPClient.disconnect sdk' serverId) st' = inr tt
  ∧ after (MCPClient.disconnect sdk' serverId) st' = st'.
Proof.
  intros Hok st'. subst st'.
  rewrite disconnect_answer in Hok. rewrite (disconnect_after sdk).
  destruct (client_teardown sdk serverId st); [discriminate |].
  destruct (transport_teardown sdk serverId st); [discriminate |].
  assert (Hunknown : unknown serverId (forget serverId st)).
  { repeat split; apply keys_delete_absent. }
  destruct Hunknown as (Hclients & Htransports & Htools).
  assert (Hc : client_teardown sdk' serverId (forget serverId st) = None).
  { unfold client_teardown.
    by rewrite (proj2 (get_None_keys _ _) Hclients). }
  assert (Ht : transport_teardown sdk' serverId (forget serverId st) = None).
  { unfold transport_teardown.
    by rewrite (proj2 (get_None_keys _ _) Htransports). }
  split; [done |]. split; [done |]. split; [done |].
  rewrite disconnect_answer, disconnect_after, Hc, Ht. split; [done |].
  unfold forget at 1.
  unfold MCPClient.delete_tools, MCPClient.delete_transport,
    MCPClient.delete_client.
  cbn [MCPClient.availableTools MCPClient.clients MCPClient.transports].
  rewrite !delete_absent by done. by destruct (forget serverId st).
Qed.

Lemma disconnect_again_is_quiet_witness :
  answer (MCPClient.disconnect Sample.sdk_client_close_fails
            (Types.id Sample.pdf_config))
    (after (MCPClient.disconnect Sample.sdk_ok (Types.id Sample.pdf_config))
       Sample.connected)
  = inr tt.
Proof.
  apply (disconnect_again_is_quiet Sample.sdk_ok
           Sample.sdk_client_close_fails (Types.id Sample.pdf_config)
           Sample.connected).
  vm_compute. reflexivity.
Defined.

Lemma elem_of_concat {A} (x : A) (ls : list (list A)) :
  x ∈ concat ls ↔ ∃ l, x ∈ l ∧ l ∈ ls.
Proof.
  induction ls as [| l0 ls IH]; simpl.
  - split; [intros Hx; by apply elem_of_nil in Hx |].
    intros (l & _ & Hl). by apply elem_of_nil in Hl.
  - rewrite elem_of_app, IH. split.
    + intros [Hx | (l & Hx & Hl)].
      * exists l0. split; [done | apply list_elem_of_here].
      * exists l. split; [done | by apply list_elem_of_further].
    + intros (l & Hx & Hl). apply elem_of_cons in Hl as [-> | Hl].
      * by left.
      * right. by exists l.
Qed.

Lemma listed_exposed (toolName : string) (st : MCPClient.t) :
  listed toolName st
  ↔ ∃ entry, entry ∈ JS.StrMap.entries (MCPClient.availableTools st)
             ∧ exposes toolName entry.2.
Proof.
  unfold listed, exposes, MCPClient.getAllTools, JS.StrMap.values,
    JS.StrMap.entries.
  split.
  - intros (tool & Hin & Hname).
    apply elem_of_concat in Hin as (tools & Htool & Htools).
    apply list_elem_of_fmap in Htools as (entry & -> & Hentry).
    exists entry. split; [done |]. by exists tool.
  - intros (entry & Hentry & tool & Htool & Hname). exists tool.
    split; [| done]. apply elem_of_concat. exists entry.2.
    split; [done |]. apply list_elem_of_fmap. by exists entry.
Qed.

(** X11.  [executeTool] and [getAllTools] agree on what exists: the loop of
    [executeTool] finds a server exactly for the names of the tools that
    [getAllTools] returns.  For any other name [executeTool] rejects with
    the not-found error, after the opening log line only: no call reaches a
    server and the object is not changed. *)
Theorem executeTool_knows_listed_tools (sdk : MCPClient.Sdk)
    (toolName : string) (arguments : MCPClient.Args) (st : MCPClient.t) :
  (listed toolName st
   ↔ ∃ serverId,
       MCPClient.find_owner toolName
         (JS.StrMap.entries (MCPClient.availableTools st)) = Some serverId)
  ∧ (¬ listed toolName st →
     MCPClient.run (MCPClient.executeTool sdk toolName arguments) st
     = (inl (JS.mkError
               ("Tool " +:+ toolName +:+ " not found in any connected server")
               None),
        {| MCPClient.this := st;
           MCPClient.logged :=
             [MCPClient.LogInfo
                ("Executing tool: " +:+ toolName +:+ " with args:")];
           MCPClient.called := [] |})).
Proof.
  assert (Hiff : listed toolName st
    ↔ ∃ serverId,
        MCPClient.find_owner toolName
          (JS.StrMap.entries (MCPClient.availableTools st)) = Some serverId).
  { rewrite listed_exposed. split.
    - intros (entry & Hentry & Hexp).
      destruct (MCPClient.find_owner toolName _) as [serverId |] eqn:Hfind;
        [by exists serverId |].
      exfalso. revert Hfind Hentry.
      generalize (JS.StrMap.entries (MCPClient.availableTools st)).
      intros entries. induction entries as [| [s ts] entries IH];
        intros Hfind Hentry; [by apply elem_of_nil in Hentry |].
      simpl in Hfind. destruct (existsb _ ts) eqn:Hts; [discriminate |].
      apply elem_of_cons in Hentry as [-> | Hentry]; [| by apply IH].
      apply existsb_exposes in Hexp. simpl in Hexp. congruence.
    - intros (serverId & Hfind).
      apply find_owner_is_first in Hfind
        as (before & tools & rest & Hentries & Hexp & _).
      exists (serverId, tools). split; [| done].
      rewrite Hentries. apply elem_of_app. right. apply list_elem_of_here. }
  split; [exact Hiff |]. intros Hnot. rewrite executeTool_run. cbv zeta.
  destruct (MCPClient.find_owner toolName _) as [serverId |] eqn:Hfind;
    [| done].
  exfalso. apply Hnot, Hiff. by exists serverId.
Qed.

Lemma executeTool_knows_listed_tools_witness :
  (MCPClient.run (MCPClient.executeTool Sample.sdk_ok "summarize" [])
     Sample.connected).1
  = inl (JS.mkError "Tool summarize not found in any connected server" None).
Proof.
  destruct (executeTool_knows_listed_tools Sample.sdk_ok "summarize" []
              Sample.connected) as [Hiff Hrefused].
  rewrite Hrefused; [reflexivity |].
  intros Hlisted. apply Hiff in Hlisted as (serverId & Hfind).
  vm_compute in Hfind. discriminate.
Defined.

Lemma registry_ok_recorded (serverId : string) (client : MCPClient.Client)
    (transport : MCPClient.StdioClientTransport) (st : MCPClient.t) :
  registry_ok st →
  registry_ok
    (MCPClient.set_transport serverId transport
       (MCPClient.set_client serverId client st)).
Proof.
  intros (Hc & Ht & Ha & Hct & Hat). unfold registry_ok.
  cbn [MCPClient.set_transport MCPClient.set_client MCPClient.clients
       MCPClient.transports MCPClient.availableTools].
  split; [by apply keys_set_NoDup |]. split; [by apply keys_set_NoDup |].
  split; [done |]. split; intros x; rewrite ?keys_set_elem.
  - intros [-> | Hx]; [by left | right; by apply Hct].
  - intros Hx. right. by apply Hat.
Qed.

Lemma registry_ok_set_tools (serverId : string) (tools : list Types.MCPTool)
    (st : MCPClient.t) :
  serverId ∈ JS.StrMap.keys (MCPClient.transports st) →
  registry_ok st → registry_ok (MCPClient.set_tools serverId tools st).
Proof.
  intros Hin (Hc & Ht & Ha & Hct & Hat). unfold registry_ok.
  cbn [MCPClient.set_tools MCPClient.clients MCPClient.transports
       MCPClient.availableTools].
  split; [done |]. split; [done |]. split; [by apply keys_set_NoDup |].
  split; [done |]. intros x. rewrite keys_set_elem.
  intros [-> | Hx]; [done | by apply Hat].
Qed.

Lemma registry_ok_delete_client (serverId : string) (st : MCPClient.t) :
  registry_ok st → registry_ok (MCPClient.delete_client serverId st).
Proof.
  intros (Hc & Ht & Ha & Hct & Hat). unfold registry_ok.
  cbn [MCPClient.delete_client MCPClient.clients MCPClient.transports
       MCPClient.availableTools].
  split; [by apply keys_delete_NoDup |]. split; [done |]. split; [done |].
  split; [| done]. intros x. rewrite keys_delete_elem.
  intros [_ Hx]. by apply Hct.
Qed.

Lemma registry_ok_forget (serverId : string) (st : MCPClient.t) :
  registry_ok st → registry_ok (forget serverId st).
Proof.
  intros (Hc & Ht & Ha & Hct & Hat). unfold registry_ok, forget.
  cbn [MCPClient.delete_tools MCPClient.delete_transport
       MCPClient.delete_client MCPClient.clients MCPClient.transports
       MCPClient.availableTools].
  split; [by apply keys_delete_NoDup |].
  split; [by apply keys_delete_NoDup |].
  split; [by apply keys_delete_NoDup |].
  split; intros x; rewrite !keys_delete_elem; intros [Hne Hx]; split;
    try done; [by apply Hct | by apply Hat].
Qed.

Lemma registry_ok_call (call : McpCall) (st : MCPClient.t) :
  registry_ok st → registry_ok (run_mcp_call call st).
Proof.
  intros Hok. destruct call as [sdk config | sdk serverId]; simpl.
  - rewrite connect_after.
    destruct (MCPClient.client_connect sdk _); [done |].
    destruct (MCPClient.client_listTools sdk _) as [| tools];
      [by apply registry_ok_recorded |].
    apply registry_ok_set_tools; [| by apply registry_ok_recorded].
    cbn [MCPClient.set_transport MCPClient.transports].
    apply keys_set_elem. by left.
  - rewrite disconnect_after.
    destruct (client_teardown sdk serverId st); [done |].
    destruct (transport_teardown sdk serverId st);
      [by apply registry_ok_delete_client | by apply registry_ok_forget].
Qed.

(** X12.  Whatever [connect] and [disconnect] calls are made on a new
    object, and whichever of them fail, each of the three maps has one
    entry per server id, and every server that has a client or a list of
    tools has a transport: a transport is stored with the client, before
    the tools, and is removed after the client and before the tools. *)
Theorem registry_invariant (calls : list McpCall) :
  registry_ok (run_mcp_calls calls MCPClient.empty).
Proof.
  unfold run_mcp_calls.
  assert (Hempty : registry_ok MCPClient.empty).
  { unfold registry_ok, MCPClient.empty. simpl.
    repeat split; try apply NoDup_nil_2; intros x Hx; exact Hx. }
  revert Hempty. generalize MCPClient.empty.
  induction calls as [| call calls IH]; intros st Hok; [done |].
  simpl. apply IH. by apply registry_ok_call.
Qed.

Lemma teardown_elsewhere (sdk sdk' : MCPClient.Sdk) (a b : string)
    (st : MCPClient.t) :
  a ≠ b →
  client_teardown sdk a (after (MCPClient.disconnect sdk' b) st)
  = client_teardown sdk a st
  ∧ transport_teardown sdk a (after (MCPClient.disconnect sdk' b) st)
    = transport_teardown sdk a st.
Proof.
  intros Hne. rewrite disconnect_after.
  unfold client_teardown, transport_teardown.
  destruct (match JS.StrMap.get b (MCPClient.clients st) with
            | Some client => MCPClient.client_close sdk' client
            | None => None
            end); [done |].
  destruct (match JS.StrMap.get b (MCPClient.transports st) with
            | Some transport => MCPClient.transport_close sdk' transport
            | None => None
            end);
    unfold forget;
    cbn [MCPClient.delete_tools MCPClient.delete_transport
         MCPClient.delete_client MCPClient.clients MCPClient.transports
         MCPClient.availableTools];
    by rewrite ?get_delete_ne by done.
Qed.

Lemma delete_client_forget (a b : string) (st : MCPClient.t) :
  MCPClient.delete_client a (forget b st)
  = forget b (MCPClient.delete_client a st).
Proof.
  unfold forget, MCPClient.delete_tools, MCPClient.delete_transport,
    MCPClient.delete_client.
  cbn [MCPClient.clients MCPClient.transports MCPClient.availableTools].
  by rewrite (delete_commute a b).
Qed.

Lemma forget_forget (a b : string) (st : MCPClient.t) :
  forget a (forget b st) = forget b (forget a st).
Proof.
  unfold forget, MCPClient.delete_tools, MCPClient.delete_transport,
    MCPClient.delete_client.
  cbn [MCPClient.clients MCPClient.transports MCPClient.availableTools].
  by rewrite (delete_commute a b (MCPClient.clients st)),
    (delete_commute a b (MCPClient.transports st)),
    (delete_commute a b (MCPClient.availableTools st)).
Qed.

Lemma delete_client_delete_client (a b : string) (st : MCPClient.t) :
  MCPClient.delete_client a (MCPClient.delete_client b st)
  = MCPClient.delete_client b (MCPClient.delete_client a st).
Proof.
  unfold MCPClient.delete_client.
  cbn [MCPClient.clients MCPClient.transports MCPClient.availableTools].
  by rewrite (delete_commute a b).
Qed.

(** X13.  Two [disconnect] calls for different servers do not see each
    other: each gives the answer that it gives alone, and the object after
    both is the same in either order.  This holds as well when one of them,
    or both, fail. *)
Theorem disconnects_commute (sdk_a sdk_b : MCPClient.Sdk) (a b : string)
    (st : MCPClient.t) :
  a ≠ b →
  answer (MCPClient.disconnect sdk_a a)
    (after (MCPClient.disconnect sdk_b b) st)
  = answer (MCPClient.disconnect sdk_a a) st
  ∧ answer (MCPClient.disconnect sdk_b b)
      (after (MCPClient.disconnect sdk_a a) st)
    = answer (MCPClient.disconnect sdk_b b) st
  ∧ after (MCPClient.disconnect sdk_a a)
      (after (MCPClient.disconnect sdk_b b) st)
    = after (MCPClient.disconnect sdk_b b)
        (after (MCPClient.disconnect sdk_a a) st).
Proof.
  intros Hne.
  destruct (teardown_elsewhere sdk_a sdk_b a b st Hne) as [Hca Hta].
  destruct (teardown_elsewhere sdk_b sdk_a b a st (not_eq_sym Hne))
    as [Hcb Htb].
  rewrite !disconnect_answer, Hca, Hta, Hcb, Htb.
  split; [done |]. split; [done |].
  rewrite (disconnect_after sdk_a a (after _ st)), Hca, Hta.
  rewrite (disconnect_after sdk_b b (after _ st)), Hcb, Htb.
  rewrite !disconnect_after.
  destruct (client_teardown sdk_a a st), (client_teardown sdk_b b st);
    try done;
    destruct (transport_teardown sdk_a a st),
      (transport_teardown sdk_b b st);
    try done;
    auto using delete_client_forget, forget_forget,
      delete_client_delete_client, eq_sym.
Qed.

Lemma disconnects_commute_witness :
  after (MCPClient.disconnect Sample.sdk_transport_close_fails "pdf")
    (after (MCPClient.disconnect Sample.sdk_ok "other") Sample.connected)
  = after (MCPClient.disconnect Sample.sdk_ok "other")
      (after (MCPClient.disconnect Sample.sdk_transport_close_fails "pdf")
         Sample.connected).
Proof.
  apply (disconnects_commute Sample.sdk_transport_close_fails Sample.sdk_ok
           "pdf" "other" Sample.connected).
  discriminate.
Defined.

Lemma disconnect_world (sdk : MCPClient.Sdk) (serverId : string)
    (w : MCPClient.World) :
  MCPClient.disconnect sdk serverId w
  = let r := MCPClient.run (MCPClient.disconnect sdk serverId)
               (MCPClient.this w) in
    (r.1,
     {| MCPClient.this := MCPClient.this r.2;
        MCPClient.logged := MCPClient.logged w ++ MCPClient.logged r.2;
        MCPClient.called := MCPClient.called w |}).
Proof.
  destruct w as [st logged called].
  unfold MCPClient.disconnect. run_eff.
  destruct (JS.StrMap.get serverId (MCPClient.clients st)) as [client |];
    simpl.
  - destruct (MCPClient.client_close sdk client) as [e |]; simpl;
      [reflexivity |].
    destruct (JS.StrMap.get serverId (MCPClient.transports st))
      as [transport |]; simpl; [| reflexivity].
    destruct (MCPClient.transport_close sdk transport); reflexivity.
  - destruct (JS.StrMap.get serverId (MCPClient.transports st))
      as [transport |]; simpl; [| reflexivity].
    destruct (MCPClient.transport_close sdk transport); reflexivity.
Qed.

Lemma closes_all_teardown (sdk : MCPClient.Sdk) (serverId : string)
    (st : MCPClient.t) :
  closes_all sdk →
  client_teardown sdk serverId st = None
  ∧ transport_teardown sdk serverId st = None.
Proof.
  intros [Hclient Htransport]. unfold client_teardown, transport_teardown.
  split.
  - by destruct (JS.StrMap.get serverId (MCPClient.clients st)).
  - by destruct (JS.StrMap.get serverId (MCPClient.transports st)).
Qed.

Lemma disconnect_each_closing (sdk : MCPClient.Sdk) (serverIds : list string)
    (w : MCPClient.World) :
  closes_all sdk →
  (MCPClient.disconnect_each sdk serverIds w).1
  = inr ((λ serverId, (serverId, inr tt)) <$> serverIds)
  ∧ MCPClient.this (MCPClient.disconnect_each sdk serverIds w).2
    = foldl (λ st serverId, forget serverId st) (MCPClient.this w) serverIds.
Proof.
  intros Hcloses. revert w.
  induction serverIds as [| serverId rest IH]; intros w; [done |].
  cbn [MCPClient.disconnect_each]. rewrite disconnect_world. cbv zeta.
  pose proof (disconnect_answer sdk serverId (MCPClient.this w)) as Hanswer.
  pose proof (disconnect_after sdk serverId (MCPClient.this w)) as Hafter.
  unfold answer in Hanswer. unfold after in Hafter.
  destruct (closes_all_teardown sdk serverId (MCPClient.this w) Hcloses)
    as [Hc Ht].
  rewrite Hc, Ht in Hanswer, Hafter. rewrite Hanswer, Hafter.
  match goal with
  | |- context [MCPClient.disconnect_each sdk rest ?w1] =>
      destruct (IH w1) as [IHanswer IHthis];
      destruct (MCPClient.disconnect_each sdk rest w1) as [outcomes w2]
  end.
  simpl in IHanswer, IHthis. subst outcomes. simpl. by split.
Qed.

Section Without.
Context {V : Type}.
Implicit Types m : list (string * V).

Lemma without_nil m : without [] m = m.
Proof.
  unfold without. induction m as [| entry m IH]; [done |].
  rewrite filter_cons.
  destruct (decide (entry.1 ∉ [])) as [_ | Hin]; [by rewrite IH |].
  exfalso. apply Hin, not_elem_of_nil.
Qed.

Lemma without_cons k gone m :
  without (k :: gone) m = without gone (JS.StrMap.delete k m).
Proof.
  unfold without, JS.StrMap.delete. induction m as [| entry m IH]; [done |].
  rewrite !filter_cons.
  destruct (decide (entry.1 ∉ k :: gone)) as [Hout | Hin];
    destruct (decide (entry.1 ≠ k)) as [Hne | Heq];
    rewrite ?filter_cons.
  - apply not_elem_of_cons in Hout as [_ Hout].
    rewrite decide_True by done. by rewrite IH.
  - apply not_elem_of_cons in Hout as [Hne _]. done.
  - rewrite decide_False; [done |]. intros Hout. apply Hin.
    apply not_elem_of_cons. by split.
  - done.
Qed.

Lemma without_keys m : without (JS.StrMap.keys m) m = [].
Proof.
  unfold without, JS.StrMap.keys.
  assert (Hall : ∀ gone : list string,
            (∀ entry, entry ∈ m → entry.1 ∈ gone) →
                         filter (λ entry, entry.1 ∉ gone) m = []).
  { intros gone. induction m as [| entry m IH]; intros Hin; [done |].
    rewrite filter_cons. rewrite decide_False.
    - apply IH. intros e He. by apply Hin, list_elem_of_further.
    - intros Hout. apply Hout, Hin, list_elem_of_here. }
  apply Hall. intros entry Hentry. by apply list_elem_of_fmap_2.
Qed.

Lemma get_without k gone m :
  k ∉ gone → JS.StrMap.get k (without gone m) = JS.StrMap.get k m.
Proof.
  intros Hout. revert m. induction gone as [| k0 gone IH]; intros m.
  - by rewrite without_nil.
  - apply not_elem_of_cons in Hout as [Hne Hout].
    rewrite without_cons, IH by done. by apply get_delete_ne.
Qed.

End Without.

Lemma foldl_forget (serverIds : list string) (st : MCPClient.t) :
  foldl (λ st serverId, forget serverId st) st serverIds
  = {| MCPClient.clients := without serverIds (MCPClient.clients st);
       MCPClient.transports := without serverIds (MCPClient.transports st);
       MCPClient.availableTools :=
         without serverIds (MCPClient.availableTools st) |}.
Proof.
  revert st. induction serverIds as [| serverId rest IH]; intros st.
  - simpl. rewrite !without_nil. by destruct st.
  - simpl. rewrite IH, !without_cons. reflexivity.
Qed.

Lemma disconnectAll_run (sdk : MCPClient.Sdk) (st : MCPClient.t) :
  MCPClient.run (MCPClient.disconnectAll sdk) st
  = MCPClient.disconnect_each sdk (MCPClient.getConnectedServers st)
      (MCPClient.start st).
Proof. reflexivity. Qed.

(** X14.  When every [close] call succeeds, [disconnectAll] resolves with
    every server that had a client disconnected, so that no server is
    connected afterwards.  It goes by the keys of the clients: the
    transports and the tools of a server that has no client are not
    touched, so a server that a failed [disconnect] left without a client
    is still registered with its tools afterwards. *)
Theorem disconnectAll_goes_by_clients (sdk : MCPClient.Sdk)
    (st : MCPClient.t) :
  closes_all sdk →
  let connected := MCPClient.getConnectedServers st in
  let st' := after (MCPClient.disconnectAll sdk) st in
  answer (MCPClient.disconnectAll sdk) st
  = inr ((λ serverId, (serverId, inr tt)) <$> connected)
  ∧ MCPClient.getConnectedServers st' = []
  ∧ MCPClient.transports st' = without connected (MCPClient.transports st)
  ∧ MCPClient.availableTools st'
    = without connected (MCPClient.availableTools st)
  ∧ ∀ serverId, serverId ∉ connected →
      JS.StrMap.get serverId (MCPClient.transports st')
      = JS.StrMap.get serverId (MCPClient.transports st)
      ∧ JS.StrMap.get serverId (MCPClient.availableTools st')
        = JS.StrMap.get serverId (MCPClient.availableTools st).
Proof.
  intros Hcloses connected st'. subst st'.
  unfold answer, after. rewrite disconnectAll_run. fold connected.
  destruct (disconnect_each_closing sdk connected (MCPClient.start st)
              Hcloses) as [Hanswer Hthis].
  destruct (MCPClient.disconnect_each sdk connected (MCPClient.start st))
    as [outcomes w].
  simpl in Hanswer, Hthis. subst outcomes. cbn [fst snd].
  rewrite Hthis, foldl_forget. split; [done |].
  cbn [MCPClient.getConnectedServers MCPClient.clients MCPClient.transports
       MCPClient.availableTools].
  split; [unfold connected, MCPClient.getConnectedServers;
          by rewrite without_keys |].
  split; [done |]. split; [done |].
  intros serverId Hout. by rewrite !get_without.
Qed.

Lemma disconnectAll_goes_by_clients_witness :
  JS.StrMap.get "pdf"
    (MCPClient.availableTools
       (after (MCPClient.disconnectAll Sample.sdk_ok)
          Sample.half_disconnected))
  = JS.StrMap.get "pdf" (MCPClient.availableTools Sample.half_disconnected).
Proof.
  destruct (disconnectAll_goes_by_clients Sample.sdk_ok
              Sample.half_disconnected) as (_ & _ & _ & _ & Hstays).
  - split; intros; reflexivity.
  - apply (Hstays "pdf"). vm_compute. apply not_elem_of_nil.
Defined.

(** X15.  [listResources] and [readResource] go by the clients as well:
    for a server among the connected ones the answer is the answer of its
    client, for any other id the call is rejected with the not-connected
    error and the SDK is not asked.  Neither of them changes the object or
    writes to the log. *)
Theorem resources_go_by_clients {R R'}
    (client_listResources : MCPClient.Client → JS.Result R)
    (client_readResource : MCPClient.Client → string → JS.Result R')
    (serverId uri : string) (st : MCPClient.t) :
  let not_connected :=
    JS.mkError ("Server " +:+ serverId +:+ " not connected") None in
  (MCPClient.run (MCPClient.listResources client_listResources serverId) st).2
  = MCPClient.start st
  ∧ (MCPClient.run
       (MCPClient.readResource client_readResource serverId uri) st).2
    = MCPClient.start st
  ∧ (serverId ∉ MCPClient.getConnectedServers st →
     answer (MCPClient.listResources client_listResources serverId) st
     = inl not_connected
     ∧ answer (MCPClient.readResource client_readResource serverId uri) st
       = inl not_connected)
  ∧ (serverId ∈ MCPClient.getConnectedServers st →
     ∃ client,
       JS.StrMap.get serverId (MCPClient.clients st) = Some client
       ∧ answer (MCPClient.listResources client_listResources serverId) st
         = client_listResources client
       ∧ answer (MCPClient.readResource client_readResource serverId uri) st
         = client_readResource client uri).
Proof.
  intros not_connected. unfold answer, MCPClient.getConnectedServers.
  unfold MCPClient.listResources, MCPClient.readResource. run_eff.
  destruct (JS.StrMap.get serverId (MCPClient.clients st)) as [client |]
    eqn:Hget; simpl.
  - split; [by destruct (client_listResources client) |].
    split; [by destruct (client_readResource client uri) |].
    split.
    + intros Hout. apply get_None_keys in Hout. congruence.
    + intros _. exists client. split; [done |].
      split; [by destruct (client_listResources client) |
              by destruct (client_readResource client uri)].
  - split; [done |]. split; [done |]. split; [done |].
    intros Hin. apply get_None_keys in Hget. done.
Qed.

Lemma resources_go_by_clients_witness :
  answer (MCPClient.listResources (λ _, inr 3%nat) "pdf") Sample.connected
  = inr 3%nat
  ∧ answer (MCPClient.readResource (λ _ _, inr 4%nat) "nope" "file:///a")
      Sample.connected
    = inl (JS.mkError "Server nope not connected" None).
Proof.
  split.
  - destruct (resources_go_by_clients (λ _, inr 3%nat) (λ _ _, inr 4%nat)
                "pdf" "file:///a" Sample.connected)
      as (_ & _ & _ & Hconnected).
    destruct Hconnected as (client & _ & Hlist & _).
    + vm_compute. apply list_elem_of_here.
    + exact Hlist.
  - destruct (resources_go_by_clients (λ _, inr 3%nat) (λ _ _, inr 4%nat)
                "nope" "file:///a" Sample.connected)
      as (_ & _ & Hunknown & _).
    destruct Hunknown as [_ Hread].
    + vm_compute. intros Hin. apply list_elem_of_singleton in Hin.
      discriminate.
    + exact Hread.
Defined.

(** ** The background translation in other surroundings *)

Section TaskFacts.
Import TelegramBot.
Variable E : Env.
Variable chatId : Z.
Variable filePath : string.
Variable instructions : string.
Hypothesis Hreliable : reliable E.

Lemma succeeded_pass (attempt : nat) (path : string) (parsed : Parsed)
    (w : World) :
  attempt_outcome E filePath instructions attempt = inr (path, parsed) →
  Eff.try_catch (try_block E chatId filePath instructions attempt)
    (catch_block E chatId filePath attempt) w
  = (inr Return,
     w ++ opening E chatId filePath instructions attempt
       ++ [Sent (sendDocument chatId path);
           Sent (sendMessage chatId
                   (completed_text (originalFileName parsed)
                      (fileSize parsed)))]).
Proof.
  intros Hout. unfold Eff.try_catch.
  by rewrite (try_block_run E chatId filePath instructions Hreliable), Hout.
Qed.

Lemma failed_passes_snoc (first count : nat) :
  failed_passes E chatId filePath instructions first (S count)
  = failed_passes E chatId filePath instructions first count
    ++ opening E chatId filePath instructions (S (first + count))
    ++ backoff chatId (S (first + count)).
Proof.
  unfold failed_passes. rewrite seq_S, flat_map_app. simpl.
  by rewrite app_nil_r.
Qed.

(** The passes that fail without a timeout, one after the other. *)
Lemma while_failed_passes (count fuel first : nat)
    (lastError : option JS.Error) (w : World) :
  (first + count ≤ MAX_RETRIES)%nat →
  (∀ attempt, (first < attempt ≤ first + count)%nat →
     ∃ error,
       attempt_outcome E filePath instructions attempt = inl error
       ∧ is_timeout error = false) →
  ∃ lastError',
    while_attempts E chatId filePath instructions (count + fuel) first
      lastError w
    = while_attempts E chatId filePath instructions fuel (first + count)
        lastError'
        (w ++ failed_passes E chatId filePath instructions first count).
Proof.
  revert first lastError w.
  induction count as [| count IH]; intros first lastError w Hle Hfail.
  - exists lastError. rewrite Nat.add_0_r. unfold failed_passes. simpl.
    by rewrite app_nil_r.
  - destruct (Hfail (S first)) as (error & Hout & Hnot); [lia |].
    change (S count + fuel)%nat with (S (count + fuel)).
    rewrite while_attempts_step by lia.
    rewrite (failed_pass E chatId filePath instructions Hreliable
               (S first) error) by done.
    destruct (IH (S first) (Some error)
                (w ++ opening E chatId filePath instructions (S first)
                   ++ backoff chatId (S first)))
      as (lastError' & Hrun); [lia | intros attempt Hin; apply Hfail; lia |].
    exists lastError'. rewrite Hrun. f_equal; [lia |].
    rewrite <- !app_assoc. do 2 f_equal.
    unfold failed_passes. cbn [seq flat_map]. by rewrite <- app_assoc.
Qed.

Lemma failure_notices_failed_passes (first count : nat) :
  failure_notices chatId
    (failed_passes E chatId filePath instructions first count) = [].
Proof.
  induction count as [| count IH]; [done |].
  by rewrite failed_passes_snoc, !failure_notices_app, IH,
    failure_notices_opening, failure_notices_backoff.
Qed.

Lemma started_failed_passes (first count : nat) :
  attempts_started (failed_passes E chatId filePath instructions first count)
  = Started <$> seq (S first) count.
Proof.
  induction count as [| count IH]; [done |].
  rewrite failed_passes_snoc, !attempts_started_app, IH, started_opening,
    started_backoff, app_nil_r, seq_S, fmap_app.
  reflexivity.
Qed.

End TaskFacts.

(** X16.  The chat accepting every request: when the attempts before attempt
    [k + 1] (none, one or two of them) fail with errors that are not
    timeouts and attempt [k + 1] gets the translated file, the task resolves
    after that attempt.  The trace is the failed attempts, each with its
    announcement and pause, then the attempt that succeeds, the document and
    the message of completion with the name and the size that the answer of
    the tool gave.  No failure notice is sent, and no attempt is opened
    after the success. *)
Theorem retry_until_success (E : TelegramBot.Env) (chatId : Z)
    (filePath instructions userId query : string) (k : nat)
    (path : string) (parsed : TelegramBot.Parsed) :
  reliable E →
  (k < TelegramBot.MAX_RETRIES)%nat →
  (∀ attempt, (1 ≤ attempt ≤ k)%nat →
     ∃ error,
       attempt_outcome E filePath instructions attempt = inl error
       ∧ TelegramBot.is_timeout error = false) →
  attempt_outcome E filePath instructions (S k) = inr (path, parsed) →
  let run :=
    TelegramBot.processTranslationInBackground E chatId filePath
      instructions userId query [] in
  run.1 = inr (Some tt)
  ∧ run.2
    = failed_passes E chatId filePath instructions 0 k
      ++ opening E chatId filePath instructions (S k)
      ++ [TelegramBot.Sent (TelegramBot.sendDocument chatId path);
          TelegramBot.Sent
            (TelegramBot.sendMessage chatId
               (TelegramBot.completed_text
                  (TelegramBot.originalFileName parsed)
                  (TelegramBot.fileSize parsed)))]
  ∧ failure_notices chatId run.2 = []
  ∧ attempts_started run.2 = TelegramBot.Started <$> seq 1 (S k).
Proof.
  intros Hrel Hk Hfail Hout run.
  assert (run
          = (inr (Some tt),
             failed_passes E chatId filePath instructions 0 k
             ++ opening E chatId filePath instructions (S k)
             ++ [TelegramBot.Sent (TelegramBot.sendDocument chatId path);
                 TelegramBot.Sent
                   (TelegramBot.sendMessage chatId
                      (TelegramBot.completed_text
                         (TelegramBot.originalFileName parsed)
                         (TelegramBot.fileSize parsed)))]))
    as Hrun.
  { unfold run, TelegramBot.processTranslationInBackground.
    rewrite bind_run.
    destruct (while_failed_passes E chatId filePath instructions Hrel k
                (S TelegramBot.MAX_RETRIES - k) 0 None [])
      as (lastError' & Hloop);
      [simpl; lia | intros attempt Hin; apply Hfail; lia |].
    replace (k + (S TelegramBot.MAX_RETRIES - k))%nat
      with (S TelegramBot.MAX_RETRIES) in Hloop by lia.
    rewrite Hloop. simpl (0 + k)%nat.
    replace (S TelegramBot.MAX_RETRIES - k)%nat
      with (S (TelegramBot.MAX_RETRIES - k)) by lia.
    rewrite while_attempts_step by done.
    rewrite (succeeded_pass E chatId filePath instructions Hrel (S k) path
               parsed) by done.
    reflexivity. }
  clearbody run. subst run. cbn [fst snd].
  split; [reflexivity |]. split; [reflexivity |]. split.
  - rewrite !failure_notices_app, failure_notices_failed_passes,
      failure_notices_opening.
    unfold failure_notices. cbn [List.filter is_failure_notice].
    change (JS.startsWith "❌" (TelegramBot.completed_text _ _)) with false.
    by rewrite andb_false_r.
  - rewrite !attempts_started_app, started_failed_passes, started_opening.
    by rewrite seq_S, fmap_app.
Qed.

Lemma retry_until_success_witness :
  (TelegramBot.processTranslationInBackground SampleTask.second_time 5
     Sample.upload222 "to spanish" "222" "q" []).1
  = inr (Some tt).
Proof.
  apply (retry_until_success SampleTask.second_time 5 Sample.upload222
           "to spanish" "222" "q" 1 SampleTask.translated
           {| TelegramBot.translatedFilePath := Some SampleTask.translated;
              TelegramBot.originalFileName := "222_doc.pdf";
              TelegramBot.fileSize := "1.2 MB" |}).
  - intros ticks r. reflexivity.
  - unfold TelegramBot.MAX_RETRIES. lia.
  - intros attempt Hin. assert (attempt = 1%nat) as -> by lia.
    exists Sample.refused. split; vm_compute; reflexivity.
  - vm_compute. reflexivity.
Defined.

(** X17.  The chat accepting every request: when an attempt fails with a
    timeout and the listing of the directory [temp] fails, the error of the
    listing leaves the [catch] block, so the loop is left at once: the task
    rejects with that error, without the announcement of a retry, without a
    further attempt and without the failure notice of the loop.  The launch
    of the task then sends the one message that carries the message of
    that error, and resolves. *)
Theorem listing_failure_ends_the_retries (E : TelegramBot.Env) (chatId : Z)
    (filePath userId query caption : string) (k : nat)
    (error failure : JS.Error) :
  let instructions := JS.or_else caption "Translate to Spanish" in
  let tempDir := JS.join (TelegramBot.cwd E) "temp" in
  reliable E →
  (k < TelegramBot.MAX_RETRIES)%nat →
  (∀ attempt, (1 ≤ attempt ≤ k)%nat →
     ∃ error,
       attempt_outcome E filePath instructions attempt = inl error
       ∧ TelegramBot.is_timeout error = false) →
  attempt_outcome E filePath instructions (S k) = inl error →
  TelegramBot.is_timeout error = true →
  TelegramBot.readdir E (S k) tempDir = inl failure →
  let task :=
    TelegramBot.processTranslationInBackground E chatId filePath
      instructions userId query [] in
  let launched :=
    DocumentHandler.launch E chatId userId filePath query caption [] in
  task
  = (inl failure,
     failed_passes E chatId filePath instructions 0 k
     ++ opening E chatId filePath instructions (S k)
     ++ [TelegramBot.Paused 10000; TelegramBot.Listed tempDir])
  ∧ launched
    = (inr (Some tt),
       task.2
       ++ [TelegramBot.Sent
             (TelegramBot.sendMessage chatId
                ("❌ Error en la traducción: " +:+ JS.message failure))])
  ∧ attempts_started launched.2 = TelegramBot.Started <$> seq 1 (S k).
Proof.
  intros instructions tempDir Hrel Hk Hfail Hout Htime Hdir task launched.
  assert (task
          = (inl failure,
             failed_passes E chatId filePath instructions 0 k
             ++ opening E chatId filePath instructions (S k)
             ++ [TelegramBot.Paused 10000; TelegramBot.Listed tempDir]))
    as Htask.
  { unfold task, TelegramBot.processTranslationInBackground.
    rewrite bind_run.
    destruct (while_failed_passes E chatId filePath instructions Hrel k
                (S TelegramBot.MAX_RETRIES - k) 0 None [])
      as (lastError' & Hloop);
      [simpl; lia | intros attempt Hin; apply Hfail; lia |].
    replace (k + (S TelegramBot.MAX_RETRIES - k))%nat
      with (S TelegramBot.MAX_RETRIES) in Hloop by lia.
    rewrite Hloop. simpl (0 + k)%nat.
    replace (S TelegramBot.MAX_RETRIES - k)%nat
      with (S (TelegramBot.MAX_RETRIES - k)) by lia.
    rewrite while_attempts_step by done.
    unfold Eff.try_catch at 1.
    rewrite (try_block_run E chatId filePath instructions Hrel), Hout.
    rewrite (catch_block_run E chatId filePath Hrel), Htime.
    fold tempDir. rewrite Hdir. by rewrite <- !app_assoc. }
  assert (launched
          = (inr (Some tt),
             task.2
             ++ [TelegramBot.Sent
                   (TelegramBot.sendMessage chatId
                      ("❌ Error en la traducción: "
                         +:+ JS.message failure))]))
    as Hlaunched.
  { unfold launched, DocumentHandler.launch. unfold Eff.try_catch at 1.
    fold instructions. fold task. rewrite Htask. cbn [fst snd].
    rewrite bind_run. unfold Eff.try_catch.
    by rewrite (request_sent E Hrel). }
  split; [exact Htask |]. split; [exact Hlaunched |].
  rewrite Hlaunched, Htask. cbn [fst snd].
  rewrite !attempts_started_app, started_failed_passes, started_opening.
  rewrite seq_S, fmap_app. unfold attempts_started.
  cbn [List.filter is_start]. by rewrite !app_nil_r.
Qed.

Lemma listing_failure_ends_the_retries_witness :
  (DocumentHandler.launch SampleTask.listing_fails 5 "222" Sample.upload222
     "q" "" []).1
  = inr (Some tt)
  ∧ (TelegramBot.processTranslationInBackground SampleTask.listing_fails 5
       Sample.upload222 "Translate to Spanish" "222" "q" []).1
    = inl SampleTask.no_temp.
Proof.
  destruct (listing_failure_ends_the_retries SampleTask.listing_fails 5
              Sample.upload222 "222" "q" "" 0 Sample.timed_out
              SampleTask.no_temp) as (Htask & Hlaunched & _).
  - intros ticks r. reflexivity.
  - unfold TelegramBot.MAX_RETRIES. lia.
  - intros attempt Hin. lia.
  - vm_compute. reflexivity.
  - vm_compute. reflexivity.
  - reflexivity.
  - split.
    + rewrite Hlaunched. reflexivity.
    + change (JS.or_else "" "Translate to Spanish")
        with "Translate to Spanish" in Htask.
      rewrite Htask. reflexivity.
Defined.

Lemma launch_run (E : TelegramBot.Env) (chatId : Z)
    (userId filePath query caption : string) (w : list TelegramBot.Event) :
  DocumentHandler.launch E chatId userId filePath query caption w
  = match TelegramBot.processTranslationInBackground E chatId filePath
            (JS.or_else caption "Translate to Spanish") userId query w with
    | (inl error, w') =>
        let notice :=
          TelegramBot.sendMessage chatId
            ("❌ Error en la traducción: " +:+ JS.message error) in
        (inr (Some tt),
         w' ++ [match TelegramBot.telegram E (length w') notice with
                | Some err => TelegramBot.NotSent notice err
                | None => TelegramBot.Sent notice
                end])
    | (inr finished, w') => (inr finished, w')
    end.
Proof.
  unfold DocumentHandler.launch. unfold Eff.try_catch at 1.
  destruct (TelegramBot.processTranslationInBackground _ _ _ _ _ _ w)
    as [[error | finished] w']; [| reflexivity].
  rewrite bind_run. unfold Eff.try_catch, TelegramBot.request.
  unfold DocumentHandler.launch_error_text.
  by destruct (TelegramBot.telegram E (length w') _).
Qed.

(** X18.  In any surroundings the launch of the background task resolves:
    when the task resolves the launch adds nothing to what the task did;
    when the task rejects, the launch asks the chat once more, for one
    message that carries the message of the error, and does not depend on
    the chat accepting it. *)
Theorem launch_never_rejects (E : TelegramBot.Env) (chatId : Z)
    (userId filePath query caption : string) :
  let task :=
    TelegramBot.processTranslationInBackground E chatId filePath
      (JS.or_else caption "Translate to Spanish") userId query [] in
  let launched :=
    DocumentHandler.launch E chatId userId filePath query caption [] in
  launched.1 = inr (Some tt)
  ∧ (task.1 = inr (Some tt) → launched.2 = task.2)
  ∧ (∀ error, task.1 = inl error →
     requests launched.2
     = requests task.2
       ++ [TelegramBot.sendMessage chatId
             ("❌ Error en la traducción: " +:+ JS.message error)]).
Proof.
  intros task launched. subst launched. rewrite launch_run. fold task.
  pose proof (processTranslationInBackground_total E chatId filePath
                (JS.or_else caption "Translate to Spanish") userId query [])
    as Htotal.
  fold task in Htotal. clearbody task.
  destruct task as [[error | [[] |]] w]; cbn [fst snd] in *.
  - split; [reflexivity |]. split; [discriminate |].
    intros error' [= <-]. unfold requests. rewrite omap_app.
    by destruct (TelegramBot.telegram E (length w) _).
  - split; [reflexivity |]. split; [reflexivity |]. discriminate.
  - done.
Qed.

(** ** The background translation in any surroundings *)

Section Emits.
Import TelegramBot.
Variable E : Env.
Variable chatId : Z.
Variable filePath : string.
Variable instructions : string.

Lemma emits_mono {A} (n n' : nat) (m : M A) :
  (n ≤ n')%nat → emits n m → emits n' m.
Proof.
  intros Hle Hm w. destruct (Hm w) as (evs & Hrun & Hquiet & Hcalls).
  exists evs. repeat split; [done | done | lia].
Qed.

Lemma emits_nothing {A} (n : nat) (m : M A) :
  (∀ w, (m w).2 = w) → emits n m.
Proof.
  intros Hsame w. exists []. rewrite app_nil_r.
  split; [apply Hsame |]. split; [constructor | simpl; lia].
Qed.

Lemma emits_one {A} (n : nat) (m : M A) (event : World → Event) :
  (∀ w, (m w).2 = w ++ [event w]) →
  (∀ w, quiet (event w)) → (∀ w, is_call (event w) = false) →
  emits n m.
Proof.
  intros Hone Hquiet Hcall w. exists [event w]. split; [apply Hone |].
  split; [by repeat constructor |].
  unfold provider_calls. simpl. rewrite Hcall. simpl. lia.
Qed.

Lemma emits_ret {A} (n : nat) (a : A) : emits n (Eff.ret a : M A).
Proof. by apply emits_nothing. Qed.

Lemma emits_throw {A} (n : nat) (e : JS.Error) : emits n (Eff.throw e : M A).
Proof. by apply emits_nothing. Qed.

Lemma emits_await {A} (n : nat) (answer : JS.Result A) :
  emits n (Eff.await answer : M A).
Proof. by apply emits_nothing. Qed.

Lemma emits_request (n : nat) (r : Request) : emits n (request E r).
Proof.
  apply (emits_one n _
           (λ w, match telegram E (length w) r with
                 | Some e => NotSent r e
                 | None => Sent r
                 end)).
  - intros w. unfold request. by destruct (telegram E (length w) r).
  - intros w. by destruct (telegram E (length w) r).
  - intros w. by destruct (telegram E (length w) r).
Qed.

Lemma emits_setTimeout (n : nat) (ms : Z) :
  ms ∈ [5000; 10000; 20000] → emits n (setTimeout ms).
Proof. intros Hms. by apply (emits_one n _ (λ _, Paused ms)). Qed.

Lemma emits_readdir (n : nat) (attempt : nat) (dir : string) :
  emits n (fs_readdir E attempt dir).
Proof. by apply (emits_one n _ (λ _, Listed dir)). Qed.

Lemma executeTool_calls_once (sdk : MCPClient.Sdk) (toolName : string)
    (arguments : MCPClient.Args) (st : MCPClient.t) :
  (length
     (MCPClient.called
        (MCPClient.run (MCPClient.executeTool sdk toolName arguments) st).2)
   ≤ 1)%nat.
Proof.
  rewrite executeTool_run. cbv zeta.
  destruct (MCPClient.find_owner toolName _) as [serverId |]; [| simpl; lia].
  destruct (JS.truthy serverId); [| simpl; lia].
  destruct (JS.StrMap.get serverId _) as [client |]; [| simpl; lia].
  destruct (MCPClient.client_callTool sdk client toolName arguments);
    simpl; lia.
Qed.

Lemma provider_calls_Called (calls : list MCPClient.ProviderCall) :
  provider_calls (Called <$> calls) = Called <$> calls.
Proof.
  unfold provider_calls. induction calls as [| call calls IH]; [done |].
  rewrite fmap_cons. cbn [List.filter is_call]. by rewrite IH.
Qed.

Lemma emits_executeTool (attempt : nat) (toolName : string)
    (arguments : MCPClient.Args) :
  emits 1 (executeTool E attempt toolName arguments).
Proof.
  intros w. unfold executeTool.
  pose proof (executeTool_calls_once (sdk E attempt) toolName arguments
                (mcpClient E attempt)) as Honce.
  destruct (MCPClient.run _ _) as [answer mw]. cbn [snd] in *.
  exists (Called <$> MCPClient.called mw). split; [done |]. split.
  - apply Forall_fmap, Forall_forall. by intros call _.
  - unfold provider_calls.
    by rewrite provider_calls_Called, length_fmap.
Qed.

Lemma emits_app {A B} (n n' : nat) (m : M A) (k : A → M B) :
  emits n m → (∀ a, emits n' (k a)) → emits (n + n') (Eff.bind m k).
Proof.
  intros Hm Hk w. unfold Eff.bind.
  destruct (Hm w) as (evs & Hrun & Hquiet & Hcalls).
  destruct (m w) as [[e | a] w']; cbn [snd] in *; subst w'.
  - exists evs. repeat split; [done | lia].
  - destruct (Hk a (w ++ evs)) as (evs' & Hrun' & Hquiet' & Hcalls').
    exists (evs ++ evs'). rewrite Hrun', app_assoc. split; [done |].
    split; [by apply Forall_app |].
    unfold provider_calls in *. rewrite List.filter_app, length_app. lia.
Qed.

Lemma emits_bind {A B} (n : nat) (m : M A) (k : A → M B) :
  emits 0 m → (∀ a, emits n (k a)) → emits n (Eff.bind m k).
Proof. intros Hm Hk. by apply (emits_app 0 n). Qed.

Lemma emits_bind_call {A B} (n : nat) (m : M A) (k : A → M B) :
  emits n m → (∀ a, emits 0 (k a)) → emits n (Eff.bind m k).
Proof.
  intros Hm Hk. apply (emits_mono (n + 0) n); [lia |]. by apply emits_app.
Qed.

Lemma emits_try_catch {A} (n : nat) (body : M A) (handler : JS.Error → M A) :
  emits n body → (∀ e, emits 0 (handler e)) →
  emits n (Eff.try_catch body handler).
Proof.
  intros Hbody Hhandler w. unfold Eff.try_catch.
  destruct (Hbody w) as (evs & Hrun & Hquiet & Hcalls).
  destruct (body w) as [[e | a] w']; cbn [snd] in *; subst w'.
  - destruct (Hhandler e (w ++ evs)) as (evs' & Hrun' & Hquiet' & Hcalls').
    exists (evs ++ evs'). rewrite Hrun', app_assoc. split; [done |].
    split; [by apply Forall_app |].
    unfold provider_calls in *. rewrite List.filter_app, length_app. lia.
  - exists evs. by repeat split.
Qed.

(** The [try] block after the line that opens the attempt. *)
Lemma try_block_emits (attempt : nat) (w : World) :
  ∃ evs,
    (try_block E chatId filePath instructions attempt w).2
    = w ++ Started attempt :: evs
    ∧ Forall quiet evs
    ∧ (length (provider_calls evs) ≤ 1)%nat.
Proof.
  unfold try_block. rewrite bind_run. unfold Eff.modify at 1.
  cbv beta iota.
  match goal with
  | |- context [(?m (w ++ [Started attempt])).2] =>
      assert (emits 1 m) as Hrest
  end.
  { apply emits_bind.
    { case_bool_decide; [| apply emits_ret].
      apply emits_bind; [apply emits_request |]. intros _.
      apply emits_setTimeout. set_solver. }
    intros _. apply emits_bind; [apply emits_request |]. intros _.
    apply emits_bind_call; [apply emits_executeTool |]. intros result.
    cbv zeta. destruct (translatedFilePath _) as [path |];
      [| apply emits_throw].
    destruct (existsSync E attempt path); [| apply emits_throw].
    apply emits_bind; [apply emits_await |]. intros _.
    apply emits_bind; [apply emits_request |]. intros _.
    apply emits_bind; [apply emits_request |]. intros _.
    apply emits_ret. }
  destruct (Hrest (w ++ [Started attempt])) as (evs & Hrun & Hquiet & Hcalls).
  exists evs. rewrite Hrun, <- app_assoc. by repeat split.
Qed.

Lemma catch_block_emits (attempt : nat) (error : JS.Error) :
  emits 0 (catch_block E chatId filePath attempt error).
Proof.
  unfold catch_block. apply emits_bind.
  { destruct (is_timeout error); [| apply emits_ret].
    apply emits_bind; [apply emits_setTimeout; set_solver |]. intros _.
    cbv zeta. apply emits_bind; [apply emits_readdir |]. intros files.
    destruct (find _ files) as [found |]; [| apply emits_ret].
    destruct (JS.truthy found); [| apply emits_ret].
    apply emits_bind; [apply emits_request |]. intros _.
    apply emits_bind; [apply emits_request |]. intros _.
    apply emits_ret. }
  intros [|]; [apply emits_ret |].
  apply emits_bind; [| intros _; apply emits_ret].
  case_bool_decide as Hlt; [| apply emits_ret]. cbv zeta.
  apply emits_bind; [apply emits_request |]. intros _.
  apply emits_setTimeout.
  unfold MAX_RETRIES in Hlt.
  assert (attempt = 0 ∨ attempt = 1 ∨ attempt = 2)%nat
    as [-> | [-> | ->]] by lia; vm_compute; set_solver.
Qed.

(** One pass of the loop, whatever the surroundings answer. *)
Lemma pass_emits (attempt : nat) (w : World) :
  ∃ evs,
    (Eff.try_catch (try_block E chatId filePath instructions attempt)
       (catch_block E chatId filePath attempt) w).2
    = w ++ Started attempt :: evs
    ∧ Forall quiet evs
    ∧ (length (provider_calls evs) ≤ 1)%nat.
Proof.
  unfold Eff.try_catch.
  destruct (try_block_emits attempt w) as (evs & Hrun & Hquiet & Hcalls).
  destruct (try_block _ _ _ _ _ w) as [[error | flow] w']; cbn [snd] in *;
    subst w'; [| by exists evs].
  destruct (catch_block_emits attempt error (w ++ Started attempt :: evs))
    as (evs' & Hrun' & Hquiet' & Hcalls').
  exists (evs ++ evs'). rewrite Hrun', <- app_assoc. split; [done |].
  split; [by apply Forall_app |].
  unfold provider_calls in *. rewrite List.filter_app, length_app. lia.
Qed.

End Emits.

Lemma quiet_pauses (evs : list TelegramBot.Event) :
  Forall quiet evs → ∀ ms, ms ∈ pauses evs → ms ∈ [5000; 10000; 20000].
Proof.
  intros Hquiet ms Hin. unfold pauses in Hin.
  apply list_elem_of_omap in Hin as (event & Hevent & Hms).
  rewrite Forall_forall in Hquiet. specialize (Hquiet event Hevent).
  destruct event; try discriminate. by injection Hms as <-.
Qed.

Lemma quiet_not_started (evs : list TelegramBot.Event) :
  Forall quiet evs → attempts_started evs = [].
Proof.
  unfold attempts_started.
  induction 1 as [| event evs Hevent _ IH]; [done |].
  simpl. by destruct event.
Qed.

Lemma loop_trace_pass (attempt : nat) (evs : list TelegramBot.Event) :
  Forall quiet evs → (length (provider_calls evs) ≤ 1)%nat →
  loop_trace attempt 1 (TelegramBot.Started (S attempt) :: evs).
Proof.
  intros Hquiet Hcalls. split; [| split].
  - unfold attempts_started. cbn [List.filter is_start].
    fold (attempts_started evs). by rewrite quiet_not_started.
  - done.
  - intros ms Hin. by apply (quiet_pauses evs).
Qed.

Lemma loop_trace_app (first count count' : nat)
    (evs evs' : list TelegramBot.Event) :
  loop_trace first count evs → loop_trace (first + count) count' evs' →
  loop_trace first (count + count') (evs ++ evs').
Proof.
  intros (Hstarted & Hcalls & Hpauses) (Hstarted' & Hcalls' & Hpauses').
  split; [| split].
  - rewrite attempts_started_app, Hstarted, Hstarted', seq_app, fmap_app.
    do 3 f_equal.
  - unfold provider_calls in *. rewrite List.filter_app, length_app. lia.
  - intros ms. unfold pauses. rewrite omap_app, elem_of_app.
    intros [Hin | Hin]; [by apply Hpauses | by apply Hpauses'].
Qed.

Lemma while_attempts_trace (E : TelegramBot.Env) (chatId : Z)
    (filePath instructions : string) (fuel first : nat)
    (lastError : option JS.Error) (w : list TelegramBot.Event) :
  (first ≤ TelegramBot.MAX_RETRIES)%nat →
  ∃ count evs,
    (TelegramBot.while_attempts E chatId filePath instructions fuel first
       lastError w).2 = w ++ evs
    ∧ (first + count ≤ TelegramBot.MAX_RETRIES)%nat
    ∧ loop_trace first count evs.
Proof.
  revert first lastError w.
  induction fuel as [| fuel IH]; intros first lastError w Hle.
  - exists 0%nat, []. rewrite app_nil_r. split; [done |]. split; [lia |].
    repeat split; [simpl; lia |]. intros ms Hin. by apply elem_of_nil in Hin.
  - destruct (decide (first < TelegramBot.MAX_RETRIES)%nat) as [Hlt | Hge].
    + rewrite while_attempts_step by done.
      destruct (pass_emits E chatId filePath instructions (S first) w)
        as (evs & Hrun & Hquiet & Hcalls).
      destruct (Eff.try_catch _ _ w) as [[error | [| error]] w'];
        cbn [snd] in *; subst w'.
      * exists 1%nat, (TelegramBot.Started (S first) :: evs).
        split; [done |]. split; [lia |]. by apply loop_trace_pass.
      * exists 1%nat, (TelegramBot.Started (S first) :: evs).
        split; [done |]. split; [lia |]. by apply loop_trace_pass.
      * destruct (IH (S first) (Some error)
                    (w ++ TelegramBot.Started (S first) :: evs))
          as (count & evs' & Hrun' & Hbound & Htrace); [lia |].
        exists (S count), ((TelegramBot.Started (S first) :: evs) ++ evs').
        rewrite Hrun', <- app_assoc. split; [done |]. split; [lia |].
        apply (loop_trace_app first 1 count); [by apply loop_trace_pass |].
        by rewrite Nat.add_1_r.
    + rewrite while_attempts_exit by lia.
      exists 0%nat, []. rewrite app_nil_r. split; [done |]. split; [lia |].
      repeat split; [simpl; lia |].
      intros ms Hin. by apply elem_of_nil in Hin.
Qed.

Lemma task_trace (E : TelegramBot.Env) (chatId : Z)
    (filePath instructions userId query : string) :
  ∃ count,
    (1 ≤ count ≤ TelegramBot.MAX_RETRIES)%nat
    ∧ loop_trace 0 count
        (TelegramBot.processTranslationInBackground E chatId filePath
           instructions userId query []).2.
Proof.
  unfold TelegramBot.processTranslationInBackground. rewrite bind_run.
  change (S TelegramBot.MAX_RETRIES) with 4%nat.
  rewrite while_attempts_step by (unfold TelegramBot.MAX_RETRIES; lia).
  destruct (pass_emits E chatId filePath instructions 1 [])
    as (evs & Hrun & Hquiet & Hcalls).
  pose proof (loop_trace_pass 0 evs Hquiet Hcalls) as Hfirst.
  destruct (Eff.try_catch _ _ []) as [[error | [| error]] w'];
    cbn [snd] in *; rewrite app_nil_l in Hrun; subst w'.
  - exists 1%nat. split; [unfold TelegramBot.MAX_RETRIES; lia | done].
  - exists 1%nat. split; [unfold TelegramBot.MAX_RETRIES; lia | done].
  - destruct (while_attempts_trace E chatId filePath instructions 3 1
                (Some error) (TelegramBot.Started 1 :: evs))
      as (count & evs' & Hrun' & Hbound & Htrace);
      [unfold TelegramBot.MAX_RETRIES; lia |].
    pose proof (loop_trace_app 0 1 count _ _ Hfirst Htrace) as Hall.
    exists (1 + count)%nat. split; [lia |].
    destruct (TelegramBot.while_attempts _ _ _ _ _ _ _ _)
      as [[error' | [| lastError |]] w']; cbn [snd] in *; subst w';
      try done.
    rewrite bind_run. unfold TelegramBot.request.
    replace (1 + count)%nat with (1 + count + 0)%nat by lia.
    destruct (TelegramBot.telegram E _ _); cbn [snd];
      (apply loop_trace_app; [done |]);
      (split; [done |]); (split; [simpl; lia |]);
      intros ms Hin; by apply elem_of_nil in Hin.
Qed.

(** X19.  In any surroundings, the chat refusing requests included, the
    background task ends, resolving or rejecting, after at least one and at
    most three attempts, which are numbered 1, 2, 3 in the order of the
    trace; and the calls that reach a provider are at most as many as the
    attempts. *)
Theorem at_most_three_attempts (E : TelegramBot.Env) (chatId : Z)
    (filePath instructions userId query : string) :
  let run :=
    TelegramBot.processTranslationInBackground E chatId filePath
      instructions userId query [] in
  run.1 ≠ inr None
  ∧ ∃ count,
      (1 ≤ count ≤ 3)%nat
      ∧ attempts_started run.2 = TelegramBot.Started <$> seq 1 count
      ∧ (length (provider_calls run.2) ≤ count)%nat.
Proof.
  intros run. split; [apply processTranslationInBackground_total |].
  destruct (task_trace E chatId filePath instructions userId query)
    as (count & Hcount & Hstarted & Hcalls & _).
  exists count. unfold TelegramBot.MAX_RETRIES in Hcount.
  split; [lia |]. by split.
Qed.

(** X20.  In any surroundings every pause of the task lasts 5, 10 or 20
    seconds: the pause of 40 seconds, the third value of the back-off
    [2 ^ attempt * 5], never happens. *)
Theorem pauses_are_5_10_20 (E : TelegramBot.Env) (chatId : Z)
    (filePath instructions userId query : string) (ms : Z) :
  ms ∈ pauses
         (TelegramBot.processTranslationInBackground E chatId filePath
            instructions userId query []).2 →
  ms ∈ [5000; 10000; 20000].
Proof.
  destruct (task_trace E chatId filePath instructions userId query)
    as (count & _ & _ & _ & Hpauses).
  apply Hpauses.
Qed.

Lemma pauses_are_5_10_20_witness :
  10000 ∈ pauses
            (TelegramBot.processTranslationInBackground
               (Sample.surroundings Sample.refused []) 5 Sample.upload222
               "to spanish" "222" "q" []).2
  ∧ 10000 ∈ [5000; 10000; 20000].
Proof.
  assert (10000 ∈ pauses
            (TelegramBot.processTranslationInBackground
               (Sample.surroundings Sample.refused []) 5 Sample.upload222
               "to spanish" "222" "q" []).2) as Hin.
  { vm_compute. apply list_elem_of_here. }
  split; [exact Hin |].
  exact (pauses_are_5_10_20 (Sample.surroundings Sample.refused []) 5
           Sample.upload222 "to spanish" "222" "q" 10000 Hin).
Defined.

(** ** The orchestrator *)

Lemma eff_bind_run {W A B} (m : Eff.M (W := W) A) (k : A → Eff.M (W := W) B)
    (w : W) :
  Eff.bind m k w
  = match m w with
    | (inl e, w') => (inl e, w')
    | (inr a, w') => k a w'
    end.
Proof. reflexivity. Qed.

Section OrchestratorFacts.
Context {Number : Type}.
Import LLMOrchestrator.
Variable generateText : GenerateOptions Number → JS.Result GenerateResult.
Variable config : LLMConfig Number.
Variable answers
  : nat → string → MCPClient.Args → JS.Result MCPClient.ToolResult.
Implicit Types w : list (Seen Number).

Lemma tool_calls_app w1 w2 :
  tool_calls (w1 ++ w2) = tool_calls w1 ++ tool_calls w2.
Proof. apply omap_app. Qed.

Lemma generated_app w1 w2 :
  generated (w1 ++ w2) = generated w1 ++ generated w2.
Proof. apply omap_app. Qed.

Lemma api_keys_app w1 w2 :
  api_keys (w1 ++ w2) = api_keys w1 ++ api_keys w2.
Proof. apply omap_app. Qed.

Lemma getModel_run w :
  getModel emit_seen config w
  = if bool_decide (provider config = "google")
    then (inr (google (model config)),
          w ++ [Orchestrated (ApiKeySet (apiKey config))])
    else (inl (JS.mkError (provider_error (provider config)) None), w).
Proof.
  unfold getModel, provider_error.
  case_bool_decide; [reflexivity |].
  case_bool_decide; [reflexivity |].
  case_bool_decide; reflexivity.
Qed.

Lemma adds_calls_refl w : adds_calls w w [].
Proof. unfold adds_calls. by rewrite app_nil_r. Qed.

Lemma adds_calls_trans w1 w2 w3 (calls calls' : list (string * MCPClient.Args)) :
  adds_calls w1 w2 calls → adds_calls w2 w3 calls' →
  adds_calls w1 w3 (calls ++ calls').
Proof.
  intros (Hc & Hg & Hk) (Hc' & Hg' & Hk'). unfold adds_calls.
  rewrite Hc', Hc, Hg', Hg, Hk', Hk. by rewrite app_assoc.
Qed.

Lemma adds_calls_info w (text : string) :
  adds_calls w (w ++ [Orchestrated (Info text)]) [].
Proof.
  unfold adds_calls.
  rewrite tool_calls_app, generated_app, api_keys_app. simpl.
  by rewrite !app_nil_r.
Qed.

Lemma adds_calls_failure w (text : string) (error : JS.Error) :
  adds_calls w (w ++ [Orchestrated (Failure text error)]) [].
Proof.
  unfold adds_calls.
  rewrite tool_calls_app, generated_app, api_keys_app. simpl.
  by rewrite !app_nil_r.
Qed.

Lemma adds_calls_call w (name : string) (arguments : MCPClient.Args) :
  adds_calls w (w ++ [ToolCalled name arguments]) [(name, arguments)].
Proof.
  unfold adds_calls.
  rewrite tool_calls_app, generated_app, api_keys_app. simpl.
  by rewrite !app_nil_r.
Qed.

Lemma adds_calls_length w w' (calls : list (string * MCPClient.Args)) :
  adds_calls w w' calls →
  length (tool_calls w') = (length (tool_calls w) + length calls)%nat.
Proof. intros (-> & _). by rewrite length_app. Qed.

(** The loop of [processQuery] over the calls of a step. *)
Lemma each_toolCall_run (calls : list ToolCall) w :
  ∃ w',
    each_toolCall emit_seen (answering answers) calls w = (inr tt, w')
    ∧ adds_calls w w' ((λ call, (toolName call, args call)) <$> calls).
Proof.
  revert w. induction calls as [| call rest IH]; intros w.
  - exists w. split; [done | apply adds_calls_refl].
  - cbn [each_toolCall]. rewrite eff_bind_run.
    change (emit_seen ?e w) with (inr tt : JS.Result unit, w ++ [Orchestrated e]).
    cbv beta iota. rewrite eff_bind_run. unfold Eff.try_catch at 1.
    rewrite eff_bind_run. unfold answering at 1.
    set (w1 := w ++ [Orchestrated (Info _)]).
    pose proof (adds_calls_info w ("Tool call requested: " +:+ toolName call))
      as H1. fold w1 in H1.
    pose proof (adds_calls_call w1 (toolName call) (args call)) as H2.
    set (w2 := w1 ++ [ToolCalled _ _]) in *.
    destruct (answers _ _ _) as [error | result]; cbv beta iota.
    + change (emit_seen ?e w2)
        with (inr tt : JS.Result unit, w2 ++ [Orchestrated e]).
      cbv beta iota.
      pose proof (adds_calls_failure w2
                    ("Tool call " +:+ toolName call +:+ " failed:") error)
        as H3.
      destruct (IH (w2 ++ [Orchestrated
                             (Failure ("Tool call " +:+ toolName call
                                         +:+ " failed:") error)]))
        as (w' & Hrun & Hadds).
      exists w'. split; [exact Hrun |].
      pose proof (adds_calls_trans _ _ _ _ _
                    (adds_calls_trans _ _ _ _ _
                       (adds_calls_trans _ _ _ _ _ H1 H2) H3) Hadds) as Hall.
      by rewrite fmap_cons.
    + change (emit_seen ?e w2)
        with (inr tt : JS.Result unit, w2 ++ [Orchestrated e]).
      cbv beta iota.
      pose proof (adds_calls_info w2
                    ("Tool call " +:+ toolName call +:+ " completed"))
        as H3.
      destruct (IH (w2 ++ [Orchestrated
                             (Info ("Tool call " +:+ toolName call
                                      +:+ " completed"))]))
        as (w' & Hrun & Hadds).
      exists w'. split; [exact Hrun |].
      pose proof (adds_calls_trans _ _ _ _ _
                    (adds_calls_trans _ _ _ _ _
                       (adds_calls_trans _ _ _ _ _ H1 H2) H3) Hadds) as Hall.
      by rewrite fmap_cons.
Qed.

Lemma each_step_run (steps : list Step) w :
  ∃ w',
    each_step emit_seen (answering answers) steps w = (inr tt, w')
    ∧ adds_calls w w' (requested steps).
Proof.
  revert w. induction steps as [| step rest IH]; intros w.
  - exists w. split; [done | apply adds_calls_refl].
  - cbn [each_step].
    change (requested (step :: rest))
      with (((λ call, (toolName call, args call))
               <$> default [] (toolCalls step)) ++ requested rest).
    rewrite eff_bind_run.
    assert (∃ w1,
      match toolCalls step with
      | Some calls =>
          if bool_decide (0 < length calls)%nat
          then each_toolCall emit_seen (answering answers) calls
          else Eff.ret tt
      | None => Eff.ret tt
      end w = (inr tt, w1)
      ∧ adds_calls w w1
          ((λ call, (toolName call, args call))
             <$> default [] (toolCalls step))) as (w1 & -> & H1).
    { destruct (toolCalls step) as [calls |];
        [| exists w; split; [done | apply adds_calls_refl]].
      case_bool_decide as Hlen; [apply each_toolCall_run |].
      destruct calls; [| simpl in Hlen; lia].
      exists w. split; [done | apply adds_calls_refl]. }
    destruct (IH w1) as (w' & Hrun & Hadds).
    exists w'. split; [exact Hrun |].
    by apply (adds_calls_trans w w1 w').
Qed.

Lemma until_failure_app (made : nat)
    (calls calls' : list (string * MCPClient.Args)) :
  until_failure answers made (calls ++ calls')
  = match until_failure answers made calls with
    | (sofar, Some error) => (sofar, Some error)
    | (sofar, None) =>
        let '(sofar', failure) :=
          until_failure answers (made + length calls) calls' in
        (sofar ++ sofar', failure)
    end.
Proof.
  revert made. induction calls as [| call rest IH]; intros made.
  - simpl. rewrite Nat.add_0_r. by destruct (until_failure _ _ calls').
  - simpl. destruct (answers made call.1 call.2) as [error | result];
      [done |].
    rewrite IH.
    destruct (until_failure answers (S made) rest) as [sofar [error |]];
      [done |].
    replace (made + S (length rest))%nat with (S made + length rest)%nat
      by lia.
    by destruct (until_failure answers _ calls').
Qed.

(** The loop of [processQuerySimple] over the calls of a step. *)
Lemma each_toolCall_simple_run (calls : list ToolCall) w :
  ∃ w',
    let outcome :=
      until_failure answers (length (tool_calls w))
        ((λ call, (toolName call, args call)) <$> calls) in
    each_toolCall_simple emit_seen (answering answers) calls w
    = (match outcome.2 with Some error => inl error | None => inr tt end,
       w')
    ∧ adds_calls w w' outcome.1
    ∧ (outcome.2 = None → length outcome.1 = length calls).
Proof.
  revert w. induction calls as [| call rest IH]; intros w.
  - exists w. split; [done |]. split; [apply adds_calls_refl | done].
  - cbn [each_toolCall_simple]. rewrite eff_bind_run.
    change (emit_seen ?e w)
      with (inr tt : JS.Result unit, w ++ [Orchestrated e]).
    cbv beta iota. rewrite eff_bind_run. unfold answering at 1.
    set (w1 := w ++ [Orchestrated (Info _)]).
    pose proof (adds_calls_info w ("Executing tool: " +:+ toolName call))
      as H1. fold w1 in H1.
    pose proof (adds_calls_call w1 (toolName call) (args call)) as H2.
    pose proof (adds_calls_trans _ _ _ _ _ H1 H2) as H12.
    pose proof (adds_calls_length _ _ _ H1) as Hlen1.
    pose proof (adds_calls_length _ _ _ H12) as Hlen2.
    simpl in Hlen1, Hlen2. rewrite Nat.add_0_r in Hlen1.
    set (w2 := w1 ++ [ToolCalled _ _]) in *.
    rewrite fmap_cons. cbn [until_failure fst snd]. rewrite Hlen1.
    destruct (answers (length (tool_calls w)) (toolName call) (args call))
      as [error | result]; cbv beta iota.
    + exists w2. cbn [fst snd]. split; [done |]. split; [done |].
      discriminate.
    + destruct (IH w2) as (w' & Hrun & Hadds & Hlen).
      cbv zeta in Hrun, Hadds, Hlen. rewrite Hlen2 in Hrun, Hadds, Hlen.
      replace (length (tool_calls w) + 1)%nat
        with (S (length (tool_calls w))) in Hrun, Hadds, Hlen by lia.
      destruct (until_failure answers (S (length (tool_calls w))) _)
        as [sofar failure].
      cbn [fst snd] in *. exists w'. split; [exact Hrun |].
      split; [exact (adds_calls_trans _ _ _ _ _ H12 Hadds) |].
      intros Hnone. simpl. by rewrite Hlen.
Qed.

Lemma each_step_simple_run (steps : list Step) w :
  ∃ w',
    let outcome :=
      until_failure answers (length (tool_calls w)) (requested steps) in
    each_step_simple emit_seen (answering answers) steps w
    = (match outcome.2 with Some error => inl error | None => inr tt end,
       w')
    ∧ adds_calls w w' outcome.1.
Proof.
  revert w. induction steps as [| step rest IH]; intros w.
  - exists w. split; [done | apply adds_calls_refl].
  - cbn [each_step_simple].
    change (requested (step :: rest))
      with (((λ call, (toolName call, args call))
               <$> default [] (toolCalls step)) ++ requested rest).
    rewrite eff_bind_run, until_failure_app.
    assert (∃ w1,
      let outcome :=
        until_failure answers (length (tool_calls w))
          ((λ call, (toolName call, args call))
             <$> default [] (toolCalls step)) in
      match toolCalls step with
      | Some calls =>
          if bool_decide (0 < length calls)%nat
          then each_toolCall_simple emit_seen (answering answers) calls
          else Eff.ret tt
      | None => Eff.ret tt
      end w
      = (match outcome.2 with Some error => inl error | None => inr tt end,
         w1)
      ∧ adds_calls w w1 outcome.1
      ∧ (outcome.2 = None
         → length outcome.1 = length (default [] (toolCalls step))))
      as (w1 & Hrun1 & H1 & Hlen).
    { destruct (toolCalls step) as [calls |];
        [| exists w; split; [done |]; split; [apply adds_calls_refl | done]].
      case_bool_decide as Hlen; [apply each_toolCall_simple_run |].
      destruct calls; [| simpl in Hlen; lia].
      exists w. split; [done |]. split; [apply adds_calls_refl | done]. }
    cbv zeta in Hrun1, H1, Hlen. rewrite Hrun1.
    destruct (until_failure answers (length (tool_calls w)) _)
      as [sofar [error |]]; cbn [fst snd] in *.
    + exists w1. by split.
    + destruct (IH w1) as (w' & Hrun & Hadds).
      cbv zeta in Hrun, Hadds.
      rewrite (adds_calls_length _ _ _ H1), Hlen in Hrun, Hadds by done.
      rewrite length_fmap.
      destruct (until_failure answers _ (requested rest))
        as [sofar' failure].
      cbn [fst snd] in *. exists w'. split; [exact Hrun |].
      exact (adds_calls_trans _ _ _ _ _ H1 Hadds).
Qed.

End OrchestratorFacts.

Section OrchestratorRuns.
Context {Number : Type}.
Import LLMOrchestrator.
Variable generateText : GenerateOptions Number → JS.Result GenerateResult.
Variable config : LLMConfig Number.
Variable answers
  : nat → string → MCPClient.Args → JS.Result MCPClient.ToolResult.
Implicit Types w : list (Seen Number).

Lemma processQuery_run (query : string)
    (history : list Types.ConversationMessage) (tools : list Types.MCPTool)
    w :
  let options :=
    options_for config ((as_message <$> history) ++ [asks query]) tools in
  let w0 :=
    w ++ [Orchestrated
            (Info ("Processing query with " +:+ pretty (length tools)
                     +:+ " available tools"))] in
  let w1 :=
    (w0 ++ [Orchestrated (ApiKeySet (apiKey config))])
      ++ [Orchestrated (Generated options)] in
  processQuery emit_seen generateText config (answering answers) query
    history tools w
  = if bool_decide (provider config = "google") then
      match generateText options with
      | inl error =>
          (inl error,
           w1 ++ [Orchestrated (Failure "Failed to process query:" error)])
      | inr response =>
          (inr (text response),
           (each_step emit_seen (answering answers) (steps response)
              (w1 ++ [Orchestrated
                        (Info ("LLM response received with "
                                 +:+ pretty (length (steps response))
                                 +:+ " steps"))])).2)
      end
    else
      let error :=
        JS.mkError (provider_error (provider config)) None in
      (inl error,
       w0 ++ [Orchestrated (Failure "Failed to process query:" error)]).
Proof.
  intros options w0 w1. unfold processQuery, Eff.try_catch.
  rewrite eff_bind_run. unfold emit_seen at 1. unfold Eff.modify at 1.
  cbv beta iota. fold w0. rewrite eff_bind_run, getModel_run.
  case_bool_decide as Hprovider; cbv beta iota zeta; [| reflexivity].
  rewrite eff_bind_run. unfold request. rewrite eff_bind_run.
  unfold emit_seen at 1. unfold Eff.modify at 1. cbv beta iota.
  unfold Eff.await.
  change (Build_GenerateOptions _ _ _ _ _ _ _) with options. fold w1.
  destruct (generateText options) as [error | response]; cbv beta iota;
    [reflexivity |].
  rewrite eff_bind_run. unfold emit_seen at 1. unfold Eff.modify at 1.
  cbv beta iota. rewrite eff_bind_run.
  match goal with
  | |- context [each_step _ _ _ ?w2] =>
      destruct (each_step_run answers (steps response) w2)
        as (w' & Hrun & _)
  end.
  by rewrite Hrun.
Qed.

Lemma processQuerySimple_run (query : string) (tools : list Types.MCPTool)
    w :
  let options := options_for config [asks query] tools in
  let w0 :=
    w ++ [Orchestrated
            (Info ("Processing simple query with "
                     +:+ pretty (length tools) +:+ " available tools"))] in
  let w1 :=
    (w0 ++ [Orchestrated (ApiKeySet (apiKey config))])
      ++ [Orchestrated (Generated options)] in
  processQuerySimple emit_seen generateText config (answering answers) query
    tools w
  = if bool_decide (provider config = "google") then
      match generateText options with
      | inl error =>
          (inl error,
           w1 ++ [Orchestrated (Failure "Failed to process query:" error)])
      | inr response =>
          match each_step_simple emit_seen (answering answers)
                  (steps response)
                  (w1 ++ [Orchestrated (Info "LLM response received")]) with
          | (inl error, w') =>
              (inl error,
               w' ++ [Orchestrated
                        (Failure "Failed to process query:" error)])
          | (inr _, w') => (inr (text response), w')
          end
      end
    else
      let error :=
        JS.mkError (provider_error (provider config)) None in
      (inl error,
       w0 ++ [Orchestrated (Failure "Failed to process query:" error)]).
Proof.
  intros options w0 w1. unfold processQuerySimple, Eff.try_catch.
  rewrite eff_bind_run. unfold emit_seen at 1. unfold Eff.modify at 1.
  cbv beta iota. fold w0. rewrite eff_bind_run, getModel_run.
  case_bool_decide as Hprovider; cbv beta iota zeta; [| reflexivity].
  rewrite eff_bind_run. unfold request. rewrite eff_bind_run.
  unfold emit_seen at 1. unfold Eff.modify at 1. cbv beta iota.
  unfold Eff.await.
  change (Build_GenerateOptions _ _ _ _ _ _ _) with options. fold w1.
  destruct (generateText options) as [error | response]; cbv beta iota;
    [reflexivity |].
  rewrite eff_bind_run. unfold emit_seen at 1. unfold Eff.modify at 1.
  cbv beta iota. rewrite eff_bind_run.
  by destruct (each_step_simple _ _ _ _) as [[error | []] w'].
Qed.

End OrchestratorRuns.

(** X21.  Only the provider [google] is served.  With any other provider in
    the configuration, [processQuery] and [processQuerySimple] reject with
    the message that [getModel] has for that provider; no key is set, no
    request is sent to the model and no tool is called. *)
Theorem only_google_is_served {Number : Type}
    (generateText
       : LLMOrchestrator.GenerateOptions Number
         → JS.Result LLMOrchestrator.GenerateResult)
    (config : LLMOrchestrator.LLMConfig Number)
    (answers
       : nat → string → MCPClient.Args → JS.Result MCPClient.ToolResult)
    (query : string) (history : list Types.ConversationMessage)
    (tools : list Types.MCPTool) :
  LLMOrchestrator.provider config ≠ "google" →
  let rejected (run : JS.Result string * list (Seen Number)) :=
    run.1
    = inl (JS.mkError (provider_error (LLMOrchestrator.provider config))
             None)
    ∧ generated run.2 = []
    ∧ api_keys run.2 = []
    ∧ tool_calls run.2 = [] in
  rejected
    (LLMOrchestrator.processQuery emit_seen generateText config
       (answering answers) query history tools [])
  ∧ rejected
      (LLMOrchestrator.processQuerySimple emit_seen generateText config
         (answering answers) query tools []).
Proof.
  intros Hother rejected. subst rejected. cbv beta.
  rewrite processQuery_run, processQuerySimple_run. cbv zeta.
  rewrite bool_decide_eq_false_2 by done. cbn [fst snd].
  rewrite !generated_app, !api_keys_app, !tool_calls_app.
  by repeat split.
Qed.

Lemma only_google_is_served_witness :
  (LLMOrchestrator.processQuery emit_seen (λ _, inr SampleChat.two_calls)
     SampleChat.sonnet (answering SampleChat.failing) "hi" []
     [SampleChat.translate_tool] []).1
  = inl (JS.mkError
           "Anthropic provider not yet implemented. Install @ai-sdk/anthropic"
           None).
Proof.
  apply (only_google_is_served (λ _, inr SampleChat.two_calls)
           SampleChat.sonnet SampleChat.failing "hi" []
           [SampleChat.translate_tool]).
  discriminate.
Defined.

(** X22.  With the provider [google], [processQuery] sets the key and sends
    one request to the model: the messages are the history in its order,
    each entry with its role and content and without its time stamp,
    followed by the query as a user message; the tools are the converted
    ones and the number of steps is bounded by 10.  When the request fails
    the error is thrown on and no tool is called.  When it succeeds, every
    tool call of every step is passed to the callback, in order, a call
    that fails not stopping the others, and the answer is the text of the
    response. *)
Theorem processQuery_runs_every_tool_call {Number : Type}
    (generateText
       : LLMOrchestrator.GenerateOptions Number
         → JS.Result LLMOrchestrator.GenerateResult)
    (config : LLMOrchestrator.LLMConfig Number)
    (answers
       : nat → string → MCPClient.Args → JS.Result MCPClient.ToolResult)
    (query : string) (history : list Types.ConversationMessage)
    (tools : list Types.MCPTool) :
  LLMOrchestrator.provider config = "google" →
  let options :=
    options_for config ((as_message <$> history) ++ [asks query]) tools in
  let run :=
    LLMOrchestrator.processQuery emit_seen generateText config
      (answering answers) query history tools [] in
  generated run.2 = [options]
  ∧ api_keys run.2 = [LLMOrchestrator.apiKey config]
  ∧ match generateText options with
    | inl error => run.1 = inl error ∧ tool_calls run.2 = []
    | inr response =>
        run.1 = inr (LLMOrchestrator.text response)
        ∧ tool_calls run.2 = requested (LLMOrchestrator.steps response)
    end.
Proof.
  intros Hgoogle options run. subst run.
  rewrite processQuery_run. cbv zeta. fold options.
  rewrite bool_decide_eq_true_2 by done.
  destruct (generateText options) as [error | response]; cbn [fst snd].
  - rewrite !generated_app, !api_keys_app, !tool_calls_app.
    by repeat split.
  - match goal with
    | |- context [LLMOrchestrator.each_step _ _ _ ?w] =>
        destruct (each_step_run answers (LLMOrchestrator.steps response) w)
          as (w' & Hrun & Hcalls & Hgenerated & Hkeys)
    end.
    rewrite Hrun. cbn [fst snd]. rewrite Hgenerated, Hkeys, Hcalls.
    rewrite !generated_app, !api_keys_app, !tool_calls_app.
    by repeat split.
Qed.

Lemma processQuery_runs_every_tool_call_witness :
  tool_calls
    (LLMOrchestrator.processQuery emit_seen (λ _, inr SampleChat.two_calls)
       SampleChat.gemini (answering SampleChat.failing) "hi" []
       [SampleChat.translate_tool] []).2
  = [("translate_pdf", []); ("summarize", [])].
Proof.
  pose proof (processQuery_runs_every_tool_call
                (λ _, inr SampleChat.two_calls) SampleChat.gemini
                SampleChat.failing "hi" [] [SampleChat.translate_tool]
                eq_refl) as (_ & _ & _ & Hcalls).
  exact Hcalls.
Defined.

(** X23.  [processQuerySimple] sends the query alone, without any history,
    and awaits the calls of the tools outside any [try]: the calls are made
    in order up to the first one that fails, the error of that call is
    thrown to the caller, and the calls after it are not made.  When none
    fails the answer is the text of the response. *)
Theorem processQuerySimple_stops_at_failure {Number : Type}
    (generateText
       : LLMOrchestrator.GenerateOptions Number
         → JS.Result LLMOrchestrator.GenerateResult)
    (config : LLMOrchestrator.LLMConfig Number)
    (answers
       : nat → string → MCPClient.Args → JS.Result MCPClient.ToolResult)
    (query : string) (tools : list Types.MCPTool) :
  LLMOrchestrator.provider config = "google" →
  let options := options_for config [asks query] tools in
  let run :=
    LLMOrchestrator.processQuerySimple emit_seen generateText config
      (answering answers) query tools [] in
  generated run.2 = [options]
  ∧ match generateText options with
    | inl error => run.1 = inl error ∧ tool_calls run.2 = []
    | inr response =>
        let outcome :=
          until_failure answers 0
            (requested (LLMOrchestrator.steps response)) in
        tool_calls run.2 = outcome.1
        ∧ run.1 = match outcome.2 with
                  | Some error => inl error
                  | None => inr (LLMOrchestrator.text response)
                  end
    end.
Proof.
  intros Hgoogle options run. subst run.
  rewrite processQuerySimple_run. cbv zeta. fold options.
  rewrite bool_decide_eq_true_2 by done.
  destruct (generateText options) as [error | response]; cbn [fst snd].
  - rewrite !generated_app, !tool_calls_app. by repeat split.
  - match goal with
    | |- context [LLMOrchestrator.each_step_simple _ _ _ ?w] =>
        set (w2 := w)
    end.
    assert (tool_calls w2 = []) as Hnone by reflexivity.
    assert (generated w2 = [options]) as Hone by reflexivity.
    destruct (each_step_simple_run answers
                (LLMOrchestrator.steps response) w2)
      as (w' & Hrun & Hcalls & Hgenerated & Hkeys).
    cbv zeta in Hrun, Hcalls. rewrite Hnone in Hrun, Hcalls.
    rewrite Hone in Hgenerated. simpl in Hrun, Hcalls. rewrite Hrun.
    destruct (until_failure answers 0 _) as [sofar [error |]];
      cbn [fst snd] in *.
    + rewrite generated_app, tool_calls_app, Hgenerated, Hcalls. simpl.
      by rewrite !app_nil_r.
    + by rewrite Hgenerated, Hcalls.
Qed.

Lemma processQuerySimple_stops_at_failure_witness :
  tool_calls
    (LLMOrchestrator.processQuerySimple emit_seen
       (λ _, inr SampleChat.two_calls) SampleChat.gemini
       (answering SampleChat.failing) "hi" [SampleChat.translate_tool] []).2
  = [("translate_pdf", [])].
Proof.
  pose proof (processQuerySimple_stops_at_failure
                (λ _, inr SampleChat.two_calls) SampleChat.gemini
                SampleChat.failing "hi" [SampleChat.translate_tool]
                eq_refl) as (_ & Hcalls & _).
  exact Hcalls.
Defined.
Lemma assigned_assign {V} (k n : string) (v : V) (o : JS.Obj.t V) :
  JS.Obj.assigned n (JS.Obj.assign k v o)
  = if decide (k = n) then Some v else JS.Obj.assigned n o.
Proof.
  unfold JS.Obj.assigned, JS.Obj.assign.
  destruct (decide (k = "__proto__")) as [-> | Hk];
    destruct (decide (n = "__proto__")) as [-> | Hn]; cbn [JS.Obj.own
      JS.Obj.proto].
  - by rewrite decide_True.
  - by rewrite decide_False.
  - by rewrite decide_False.
  - destruct (decide (k = n)) as [-> | Hne].
    + by rewrite lookup_insert_eq.
    + by rewrite lookup_insert_ne.
Qed.

Lemma own_assign {V} (k n : string) (v : V) (o : JS.Obj.t V) :
  JS.Obj.own (JS.Obj.assign k v o) !! n
  = if decide (k = n ∧ n ≠ "__proto__") then Some v
    else JS.Obj.own o !! n.
Proof.
  unfold JS.Obj.assign.
  destruct (decide (k = "__proto__")) as [-> | Hk]; cbn [JS.Obj.own].
  - rewrite decide_False; [done |]. intros [<- Hn]. by apply Hn.
  - destruct (decide (k = n)) as [-> | Hne].
    + rewrite lookup_insert_eq. by rewrite decide_True.
    + rewrite lookup_insert_ne by done. rewrite decide_False; [done |].
      by intros [-> _].
Qed.

Lemma proto_assign {V} (k : string) (v : V) (o : JS.Obj.t V) :
  JS.Obj.proto (JS.Obj.assign k v o)
  = if decide (k = "__proto__") then Some v else JS.Obj.proto o.
Proof. unfold JS.Obj.assign. by destruct (decide (k = "__proto__")). Qed.

Lemma convert_snoc (tools : list Types.MCPTool) (tool : Types.MCPTool) :
  LLMOrchestrator.convertMCPToolsToAITools (tools ++ [tool])
  = JS.Obj.assign (Types.tool_name tool)
      {| LLMOrchestrator.tool_description := Types.description tool;
         LLMOrchestrator.parameters := Types.inputSchema tool;
         LLMOrchestrator.execute :=
           λ _, inl (JS.mkError
                       "Tool execution should be handled externally" None) |}
      (LLMOrchestrator.convertMCPToolsToAITools tools).
Proof.
  unfold LLMOrchestrator.convertMCPToolsToAITools. by rewrite foldl_app.
Qed.

Lemma last_named_snoc (name : string) (tools : list Types.MCPTool)
    (tool : Types.MCPTool) :
  last_named name (tools ++ [tool])
  = if decide (Types.tool_name tool = name) then Some tool
    else last_named name tools.
Proof.
  unfold last_named. rewrite filter_app, filter_cons, filter_nil.
  destruct (decide (Types.tool_name tool = name)).
  - by rewrite last_snoc.
  - by rewrite app_nil_r.
Qed.

Lemma named_snoc (n : string) (tools : list Types.MCPTool)
    (tool : Types.MCPTool) :
  (∃ t, t ∈ tools ++ [tool] ∧ Types.tool_name t = n)
  ↔ Types.tool_name tool = n ∨ ∃ t, t ∈ tools ∧ Types.tool_name t = n.
Proof.
  split.
  - intros (t & Hin & Hname).
    apply elem_of_app in Hin as [Hin | Hin%list_elem_of_singleton].
    + right. by exists t.
    + left. by subst t.
  - intros [Hname | (t & Hin & Hname)].
    + exists tool. split; [| done]. apply elem_of_app. right.
      apply list_elem_of_here.
    + exists t. split; [| done]. apply elem_of_app. by left.
Qed.

Lemma converted_tools (tools : list Types.MCPTool)
    (name : string) :
  let converted := LLMOrchestrator.convertMCPToolsToAITools tools in
  (∀ n, is_Some (JS.Obj.own converted !! n)
        ↔ n ≠ "__proto__"
          ∧ ∃ tool, tool ∈ tools ∧ Types.tool_name tool = n)
  ∧ (is_Some (JS.Obj.proto converted)
     ↔ ∃ tool, tool ∈ tools ∧ Types.tool_name tool = "__proto__")
  ∧ LLMOrchestrator.tool_description <$> JS.Obj.assigned name converted
    = Types.description <$> last_named name tools
  ∧ LLMOrchestrator.parameters <$> JS.Obj.assigned name converted
    = Types.inputSchema <$> last_named name tools
  ∧ ∀ n entry, JS.Obj.assigned n converted = Some entry →
      LLMOrchestrator.execute entry tt
      = inl (JS.mkError "Tool execution should be handled externally" None).
Proof.
  cbv zeta. induction tools as [| tool tools IH] using rev_ind.
  - split; [| split].
    + intros n. cbn. rewrite lookup_empty. split.
      * by intros [? ?].
      * intros (_ & t & Hin & _). by apply elem_of_nil in Hin.
    + cbn. split.
      * by intros [? ?].
      * intros (t & Hin & _). by apply elem_of_nil in Hin.
    + unfold JS.Obj.assigned. cbn.
      split; [by destruct (decide _) |]. split; [by destruct (decide _) |].
      intros n entry. destruct (decide _); [done |].
      by rewrite lookup_empty.
  - destruct IH as (Hown & Hproto & Hdescription & Hschema & Hexecute).
    rewrite convert_snoc, last_named_snoc.
    split; [| split; [| split; [| split]]].
    + intros n. rewrite own_assign, named_snoc.
      destruct (decide (Types.tool_name tool = n ∧ n ≠ "__proto__"))
        as [[Hname Hn] | Hno].
      * split; [intros _; split; [done | by left] | by eexists].
      * rewrite Hown. split.
        -- intros [Hn Hsome]. split; [done | by right].
        -- intros [Hn [Hname | Hsome]]; [| done].
           exfalso. by apply Hno.
    + rewrite proto_assign, named_snoc.
      destruct (decide (Types.tool_name tool = "__proto__")) as [Hname | Hne].
      * split; [intros _; by left | by eexists].
      * rewrite Hproto. split; [by right | by intros [? | ?]].
    + rewrite assigned_assign.
      by destruct (decide (Types.tool_name tool = name)).
    + rewrite assigned_assign.
      by destruct (decide (Types.tool_name tool = name)).
    + intros n entry. rewrite assigned_assign.
      destruct (decide (Types.tool_name tool = n)) as [<- | Hne].
      * by intros [= <-].
      * apply Hexecute.
Qed.

(** X24.  The object of tools that is sent to the model is a plain object
    that is written by assignment under the name of each tool.  Its
    properties are the names of the tools other than [__proto__]; a tool of
    that name becomes the prototype of the object instead and leaves no
    property.  When several tools of the list have the same name, what is
    left under the name (the property, or the prototype for [__proto__])
    carries the description and the schema of the last of them.  The
    [execute] function of every assigned object rejects: a call that the AI
    SDK makes through it fails. *)
Theorem converted_tools_last_wins (tools : list Types.MCPTool)
    (name : string) :
  let converted := LLMOrchestrator.convertMCPToolsToAITools tools in
  (∀ n, is_Some (JS.Obj.own converted !! n)
        ↔ n ≠ "__proto__"
          ∧ ∃ tool, tool ∈ tools ∧ Types.tool_name tool = n)
  ∧ (is_Some (JS.Obj.proto converted)
     ↔ ∃ tool, tool ∈ tools ∧ Types.tool_name tool = "__proto__")
  ∧ LLMOrchestrator.tool_description <$> JS.Obj.assigned name converted
    = Types.description <$> last_named name tools
  ∧ LLMOrchestrator.parameters <$> JS.Obj.assigned name converted
    = Types.inputSchema <$> last_named name tools
  ∧ ∀ n entry, JS.Obj.assigned n converted = Some entry →
      LLMOrchestrator.execute entry tt
      = inl (JS.mkError "Tool execution should be handled externally" None).
Proof. apply converted_tools. Qed.

(** Two tools, the first named [__proto__]: the object has the one property
    [translate_pdf], and the first tool is its prototype. *)
Lemma converted_tools_last_wins_witness :
  JS.Obj.own
    (LLMOrchestrator.convertMCPToolsToAITools
       [SampleChat.proto_tool; SampleChat.translate_tool]) !! "__proto__"
  = None
  ∧ is_Some
      (JS.Obj.own
         (LLMOrchestrator.convertMCPToolsToAITools
            [SampleChat.proto_tool; SampleChat.translate_tool])
         !! "translate_pdf")
  ∧ LLMOrchestrator.tool_description
      <$> JS.Obj.proto
            (LLMOrchestrator.convertMCPToolsToAITools
               [SampleChat.proto_tool; SampleChat.translate_tool])
    = Some "Inspect the prototype".
Proof.
  destruct (converted_tools_last_wins
              [SampleChat.proto_tool; SampleChat.translate_tool]
              "__proto__")
    as (Hown & _ & Hdescription & _).
  cbv zeta. split; [| split].
  - apply eq_None_not_Some. intros Hsome. by apply Hown in Hsome as [? _].
  - apply Hown. split; [done |]. exists SampleChat.translate_tool.
    split; [| done]. apply list_elem_of_further, list_elem_of_here.
  - refine (eq_trans _ Hdescription). reflexivity.
Defined.

Lemma filter_none_exposed (name : string)
    (entries : list (string * list Types.MCPTool)) :
  (∀ entry, entry ∈ entries → ¬ exposes name entry.2) →
  filter (λ tool, Types.tool_name tool = name) (concat entries.*2) = [].
Proof.
  induction entries as [| [serverId tools] entries IH]; intros Hnone;
    [done |].
  rewrite fmap_cons. cbn [concat snd]. rewrite filter_app, IH.
  - rewrite app_nil_r.
    specialize (Hnone (serverId, tools) (list_elem_of_here _ _)).
    simpl in Hnone. clear IH. induction tools as [| tool tools IH]; [done |].
    rewrite filter_cons. destruct (decide (Types.tool_name tool = name)).
    + exfalso. apply Hnone. exists tool. split; [apply list_elem_of_here |].
      done.
    + apply IH. intros (t & Hin & Hname). apply Hnone. exists t.
      split; [by apply list_elem_of_further | done].
  - intros entry Hin. apply Hnone. by apply list_elem_of_further.
Qed.

Lemma last_named_exposed (name : string) (tools : list Types.MCPTool) :
  exposes name tools → ∃ tool, last_named name tools = Some tool.
Proof.
  intros (tool & Hin & Hname). unfold last_named.
  destruct (filter _ tools) as [| t ts] eqn:Hfilter using rev_ind.
  - assert (tool ∈ filter (λ tool, Types.tool_name tool = name) tools)
      as Hthere by (apply list_elem_of_filter; by split).
    rewrite Hfilter in Hthere. by apply elem_of_nil in Hthere.
  - exists t. by rewrite last_snoc.
Qed.

(** X25.  When two registered servers expose a tool of the same name, no
    server after the second one having it, the model is shown the
    description and the schema that the server registered later gives for
    that name, and [executeTool] gives a call of that name to the server
    registered first. *)
Theorem shown_last_routed_first (st : MCPClient.t) (name : string)
    (before middle after : list (string * list Types.MCPTool))
    (first_id last_id : string) (firsts lasts : list Types.MCPTool) :
  JS.StrMap.entries (MCPClient.availableTools st)
  = before ++ (first_id, firsts) :: middle ++ (last_id, lasts) :: after →
  (∀ entry, entry ∈ before → ¬ exposes name entry.2) →
  exposes name firsts →
  exposes name lasts →
  (∀ entry, entry ∈ after → ¬ exposes name entry.2) →
  let shown :=
    JS.Obj.assigned name
      (LLMOrchestrator.convertMCPToolsToAITools
         (MCPClient.getAllTools st)) in
  MCPClient.find_owner name
    (JS.StrMap.entries (MCPClient.availableTools st)) = Some first_id
  ∧ ∃ tool,
      last_named name lasts = Some tool
      ∧ LLMOrchestrator.tool_description <$> shown
        = Some (Types.description tool)
      ∧ LLMOrchestrator.parameters <$> shown
        = Some (Types.inputSchema tool).
Proof.
  intros Hentries Hbefore Hfirsts Hlasts Hafter shown. subst shown.
  split; [rewrite Hentries; by apply find_owner_first |].
  destruct (last_named_exposed name lasts Hlasts) as (tool & Hlast).
  exists tool. split; [exact Hlast |].
  destruct (converted_tools (MCPClient.getAllTools st) name)
    as (_ & _ & Hdescription & Hschema & _).
  assert (last_named name (MCPClient.getAllTools st) = Some tool) as Hshown.
  { unfold MCPClient.getAllTools, JS.StrMap.values.
    unfold JS.StrMap.entries in Hentries. rewrite Hentries.
    rewrite fmap_app, fmap_cons, fmap_app, fmap_cons. cbn [snd].
    rewrite concat_app. cbn [concat]. rewrite concat_app. cbn [concat].
    unfold last_named in *.
    rewrite !filter_app, (filter_none_exposed name after Hafter), app_nil_r.
    rewrite !app_assoc.
    destruct (filter _ lasts) as [| t ts] using rev_ind; [discriminate |].
    rewrite last_snoc in Hlast. rewrite app_assoc, last_snoc. done. }
  rewrite Hdescription, Hschema, Hshown. by split.
Qed.

Lemma shown_last_routed_first_witness :
  MCPClient.find_owner "translate_pdf"
    (JS.StrMap.entries (MCPClient.availableTools SampleChat.two_servers))
  = Some "pdf"
  ∧ LLMOrchestrator.tool_description
      <$> JS.Obj.assigned "translate_pdf"
            (LLMOrchestrator.convertMCPToolsToAITools
               (MCPClient.getAllTools SampleChat.two_servers))
    = Some "Translate with another engine".
Proof.
  destruct (shown_last_routed_first SampleChat.two_servers "translate_pdf"
              [] [] [] "pdf" "other"
              [MCPClient.convert_tool Sample.translate_listed]
              [SampleChat.other_translate_tool])
    as (Hrouted & tool & Hlast & Hshown & _).
  - vm_compute. reflexivity.
  - intros entry Hin. by apply elem_of_nil in Hin.
  - eexists. split; [apply list_elem_of_here | reflexivity].
  - eexists. split; [apply list_elem_of_here | reflexivity].
  - intros entry Hin. by apply elem_of_nil in Hin.
  - split; [exact Hrouted |]. rewrite Hshown.
    vm_compute in Hlast. by injection Hlast as <-.
Defined.

(** ** The handlers of the bot *)

Section HandlerFacts.
Context {Number : Type}.
Import Handlers.
Variable E : Env Number.
Implicit Types w : World Number.

Lemma moved_nothing w :
  moved w (mcpClient w) (sessionManager w) [] 0 = w.
Proof.
  unfold moved. rewrite app_nil_r, Nat.add_0_r. by destruct w.
Qed.

Lemma send_run (ctx : Ctx) (request : Outgoing) w :
  send E ctx request w
  = match telegram E (length (happened w)) (chat_id ctx) request with
    | Some e =>
        (inl e,
         moved w (mcpClient w) (sessionManager w)
           [NotSent (chat_id ctx) request e] 0)
    | None =>
        (inr tt,
         moved w (mcpClient w) (sessionManager w)
           [Sent (chat_id ctx) request] 0)
    end.
Proof.
  unfold send, record, moved. rewrite Nat.add_0_r.
  by destruct (telegram E _ _ _).
Qed.

Lemma send_accepted (ctx : Ctx) (request : Outgoing) w :
  accepts E →
  send E ctx request w
  = (inr tt,
     moved w (mcpClient w) (sessionManager w)
       [Sent (chat_id ctx) request] 0).
Proof. intros Haccepts. by rewrite send_run, Haccepts. Qed.

Lemma sessions_run (uid : string)
    (op : Z → Z → SessionManager.t → SessionManager.t) w :
  sessions E uid op w
  = (inr tt,
     match sessionManager w !! uid with
     | None =>
         moved w (mcpClient w)
           (op (Date_now E (readings w)) (Date_now E (S (readings w)))
              (sessionManager w)) [] 2
     | Some _ =>
         moved w (mcpClient w)
           (op (Date_now E (readings w)) (Date_now E (readings w))
              (sessionManager w)) [] 1
     end).
Proof.
  unfold sessions. rewrite eff_bind_run. unfold Eff.gets. cbv beta iota.
  destruct (sessionManager w !! uid) as [session |].
  - rewrite eff_bind_run. unfold now, store, Eff.modify, moved. cbn.
    by rewrite app_nil_r, Nat.add_1_r.
  - rewrite !eff_bind_run. unfold now, store, Eff.modify, moved. cbn.
    rewrite app_nil_r. do 3 f_equal. lia.
Qed.

Lemma sessions_run_held (uid : string)
    (op : Z → Z → SessionManager.t → SessionManager.t) w
    (session : Types.Session) :
  sessionManager w !! uid = Some session →
  sessions E uid op w
  = (inr tt,
     moved w (mcpClient w)
       (op (Date_now E (readings w)) (Date_now E (readings w))
          (sessionManager w)) [] 1).
Proof. intros Hheld. by rewrite sessions_run, Hheld. Qed.

Lemma mcp_disconnect_run (serverId : string) w :
  mcp E (λ sdk, MCPClient.disconnect sdk serverId) w
  = (answer (MCPClient.disconnect (sdk E (length (happened w))) serverId)
       (mcpClient w),
     moved w
       (after (MCPClient.disconnect (sdk E (length (happened w))) serverId)
          (mcpClient w))
       (sessionManager w) [] 0).
Proof.
  unfold mcp, answer, after, moved. rewrite disconnect_run.
  rewrite Nat.add_0_r.
  destruct (client_teardown _ _ _); [done |]. cbv zeta.
  by destruct (transport_teardown _ _ _).
Qed.

Lemma mcp_connect_run (config : Types.MCPServerConfig) w :
  mcp E (λ sdk, MCPClient.connect sdk config) w
  = (answer (MCPClient.connect (sdk E (length (happened w))) config)
       (mcpClient w),
     moved w
       (after (MCPClient.connect (sdk E (length (happened w))) config)
          (mcpClient w))
       (sessionManager w) [] 0).
Proof.
  unfold mcp, answer, after, moved. rewrite connect_run.
  rewrite Nat.add_0_r. cbv zeta.
  destruct (MCPClient.client_connect _ _); [done |].
  by destruct (MCPClient.client_listTools _ _).
Qed.

Lemma moved_moved w (client client' : MCPClient.t)
    (store store' : SessionManager.t) (events events' : list (Event Number))
    (reads reads' : nat) :
  moved (moved w client store events reads) client' store' events' reads'
  = moved w client' store' (events ++ events') (reads + reads').
Proof. unfold moved. cbn. by rewrite app_assoc, Nat.add_assoc. Qed.

End HandlerFacts.

(** X26.  The command [/disconnect <id>], the chat accepting the replies.
    The handler resolves.  When [disconnect] resolves, the server is gone
    from the shared client, for every user, while only the user who sent
    the command loses it from the active servers: the sessions of the other
    users are what they were, with the server still among their active
    servers if it was.  When [disconnect] rejects, no session is touched,
    not even the one of the sender, and the reply carries the message of
    the error. *)
Theorem disconnect_command_is_global {Number : Type}
    (E : Handlers.Env Number) (ctx : Handlers.Ctx) (serverId : string)
    (rest : list string) (w : Handlers.World Number) :
  Handlers.command_args ctx = serverId :: rest →
  accepts E →
  let sdk := Handlers.sdk E (length (Handlers.happened w)) in
  let uid := Handlers.userId ctx in
  let run := Handlers.disconnect E ctx w in
  let replied (text : string) :=
    outgoing (Handlers.happened run.2)
    = outgoing (Handlers.happened w) ++ [Handlers.reply text None] in
  run.1 = inr tt
  ∧ Handlers.mcpClient run.2
    = after (MCPClient.disconnect sdk serverId) (Handlers.mcpClient w)
  ∧ match answer (MCPClient.disconnect sdk serverId)
            (Handlers.mcpClient w) with
    | inr _ =>
        Handlers.mcpClient run.2 = forget serverId (Handlers.mcpClient w)
        ∧ active_of uid (Handlers.sessionManager run.2)
          = JS.StrSet.delete serverId
              (active_of uid (Handlers.sessionManager w))
        ∧ (∀ other, other ≠ uid →
             Handlers.sessionManager run.2 !! other
             = Handlers.sessionManager w !! other)
        ∧ replied ("✅ Disconnected from " +:+ serverId)
    | inl error =>
        Handlers.sessionManager run.2 = Handlers.sessionManager w
        ∧ replied ("❌ Failed to disconnect: " +:+ JS.message error)
    end.
Proof.
  intros Hargs Haccepts sdk uid run replied. subst run replied.
  unfold Handlers.disconnect. rewrite Hargs. unfold Eff.try_catch.
  rewrite eff_bind_run, mcp_disconnect_run. fold sdk.
  pose proof (disconnect_answer sdk serverId (Handlers.mcpClient w))
    as Hanswer.
  pose proof (disconnect_after sdk serverId (Handlers.mcpClient w))
    as Hafter.
  destruct (answer (MCPClient.disconnect sdk serverId) _) as [error | []].
  - rewrite send_accepted by done. cbn [fst snd moved Handlers.mcpClient
      Handlers.sessionManager Handlers.happened].
    split; [done |]. split; [done |]. split; [done |].
    unfold outgoing. rewrite app_nil_r, omap_app. done.
  - assert (after (MCPClient.disconnect sdk serverId) (Handlers.mcpClient w)
            = forget serverId (Handlers.mcpClient w)) as Hgone.
    { rewrite Hafter.
      destruct (client_teardown sdk serverId _); [discriminate |].
      by destruct (transport_teardown sdk serverId _). }
    rewrite eff_bind_run, sessions_run.
    cbn [moved Handlers.sessionManager].
    destruct (Handlers.sessionManager w !! Handlers.userId ctx);
      rewrite send_accepted by done;
      cbn [fst snd moved Handlers.mcpClient Handlers.sessionManager
           Handlers.happened Handlers.readings];
      (split; [done |]); (split; [done |]);
      (split; [exact Hgone |]); (split; [| split]);
      try apply (active_of_run_op _ _ uid (OpRemoveActiveServer serverId));
      try (intros other Hother;
           by apply (run_other _ _ uid other
                       (OpRemoveActiveServer serverId)));
      unfold outgoing; by rewrite !app_nil_r, omap_app.
Qed.

Lemma disconnect_command_is_global_witness :
  active_of "42"
    (Handlers.sessionManager
       (Handlers.disconnect SampleBot.surroundings
          (SampleBot.from7 "/disconnect pdf") SampleBot.world).2)
  = ["pdf"]
  ∧ MCPClient.getConnectedServers
      (Handlers.mcpClient
         (Handlers.disconnect SampleBot.surroundings
            (SampleBot.from7 "/disconnect pdf") SampleBot.world).2)
    = [].
Proof.
  destruct (disconnect_command_is_global SampleBot.surroundings
              (SampleBot.from7 "/disconnect pdf") "pdf" []
              SampleBot.world)
    as (_ & _ & Hclient & _ & Hothers & _).
  - vm_compute. reflexivity.
  - intros ticks chat request. reflexivity.
  - split.
    + unfold active_of. rewrite (Hothers "42") by discriminate.
      vm_compute. reflexivity.
    + rewrite Hclient. vm_compute. reflexivity.
Defined.

Lemma connect_handler_run {Number : Type}
    (E : Handlers.Env Number) (ctx : Handlers.Ctx) (serverId : string)
    (rest : list string) (w : Handlers.World Number) :
  Handlers.command_args ctx = serverId :: rest →
  accepts E →
  let sdk := Handlers.sdk E (S (length (Handlers.happened w))) in
  let connecting :=
    Handlers.Sent (Handlers.chat_id ctx)
      (Handlers.reply ("Connecting to " +:+ serverId +:+ "...") None) in
  let answered (text : string) :=
    [connecting;
     Handlers.Sent (Handlers.chat_id ctx) (Handlers.reply text None)] in
  Handlers.connect E ctx w
  = match find (λ s, bool_decide (Types.id s = serverId))
            (Handlers.servers E) with
    | None =>
        (inr tt,
         moved w (Handlers.mcpClient w) (Handlers.sessionManager w)
           (answered ("Server " +:+ serverId
                        +:+ " not found in configuration.")) 0)
    | Some config =>
        let client :=
          after (MCPClient.connect sdk config) (Handlers.mcpClient w) in
        match answer (MCPClient.connect sdk config)
                (Handlers.mcpClient w) with
        | inl error =>
            (inr tt,
             moved w client (Handlers.sessionManager w)
               (answered ("❌ Failed to connect to " +:+ serverId +:+ ": "
                            +:+ JS.message error)) 0)
        | inr _ =>
            let tools := MCPClient.getAllTools client in
            let reads :=
              match Handlers.sessionManager w !! Handlers.userId ctx with
              | None => 2%nat
              | Some _ => 1%nat
              end in
            (inr tt,
             moved w client
               (SessionManager.addActiveServer
                  (Handlers.Date_now E (Handlers.readings w))
                  (Handlers.Date_now E (Handlers.readings w + reads - 1))
                  (Handlers.userId ctx) serverId
                  (Handlers.sessionManager w))
               (answered ("✅ Connected to " +:+ Types.name config +:+ "!"
                            +:+ JS.nl +:+ JS.nl +:+ "Available tools ("
                            +:+ pretty (length tools) +:+ "):" +:+ JS.nl
                            +:+ Handlers.tool_lines tools)) reads)
        end
    end.
Proof.
  intros Hargs Haccepts sdk connecting answered. subst answered connecting.
  unfold Handlers.connect. rewrite Hargs. unfold Eff.try_catch.
  rewrite eff_bind_run, send_accepted by done.
  destruct (find _ (Handlers.servers E)) as [config |].
  - rewrite eff_bind_run, mcp_connect_run.
    cbn [moved Handlers.mcpClient Handlers.sessionManager Handlers.happened
         Handlers.readings].
    rewrite length_app, Nat.add_1_r. fold sdk.
    destruct (answer (MCPClient.connect sdk config) _) as [error | []].
    + rewrite send_accepted by done. unfold moved. cbn.
      by rewrite !app_nil_r, <- !app_assoc, !Nat.add_0_r.
    + rewrite eff_bind_run, sessions_run.
      cbn [moved Handlers.sessionManager]. cbv zeta.
      destruct (Handlers.sessionManager w !! Handlers.userId ctx);
        rewrite eff_bind_run; unfold Eff.gets;
        rewrite send_accepted by done; unfold moved; cbn;
        rewrite !app_nil_r, <- !app_assoc, !Nat.add_0_r;
        repeat f_equal; lia.
  - rewrite send_accepted by done. unfold moved. cbn.
    by rewrite <- !app_assoc, !Nat.add_0_r.
Qed.

(** X27.  The command [/connect <id>], the chat accepting the replies.  For
    an id that the configuration does not have, no connection is tried and
    neither the client nor any session changes.  When [connect] rejects, no
    session changes: the server is not added to the active servers of the
    sender, and the reply carries the message of the error.  When it
    resolves, the server is added to the active servers of the sender
    alone, and the reply lists the tools of all the servers that are
    registered, not only those of the new one. *)
Theorem connect_command {Number : Type}
    (E : Handlers.Env Number) (ctx : Handlers.Ctx) (serverId : string)
    (rest : list string) (w : Handlers.World Number) :
  Handlers.command_args ctx = serverId :: rest →
  accepts E →
  let sdk := Handlers.sdk E (S (length (Handlers.happened w))) in
  let uid := Handlers.userId ctx in
  let run := Handlers.connect E ctx w in
  let replied (text : string) :=
    outgoing (Handlers.happened run.2)
    = outgoing (Handlers.happened w)
      ++ [Handlers.reply ("Connecting to " +:+ serverId +:+ "...") None;
          Handlers.reply text None] in
  run.1 = inr tt
  ∧ match find (λ s, bool_decide (Types.id s = serverId))
            (Handlers.servers E) with
    | None =>
        Handlers.mcpClient run.2 = Handlers.mcpClient w
        ∧ Handlers.sessionManager run.2 = Handlers.sessionManager w
        ∧ replied ("Server " +:+ serverId +:+ " not found in configuration.")
    | Some config =>
        Types.id config = serverId
        ∧ Handlers.mcpClient run.2
          = after (MCPClient.connect sdk config) (Handlers.mcpClient w)
        ∧ match answer (MCPClient.connect sdk config)
                  (Handlers.mcpClient w) with
          | inl error =>
              Handlers.sessionManager run.2 = Handlers.sessionManager w
              ∧ replied ("❌ Failed to connect to " +:+ serverId +:+ ": "
                           +:+ JS.message error)
          | inr _ =>
              let tools := MCPClient.getAllTools (Handlers.mcpClient run.2) in
              active_of uid (Handlers.sessionManager run.2)
              = JS.StrSet.add serverId
                  (active_of uid (Handlers.sessionManager w))
              ∧ (∀ other, other ≠ uid →
                   Handlers.sessionManager run.2 !! other
                   = Handlers.sessionManager w !! other)
              ∧ replied ("✅ Connected to " +:+ Types.name config +:+ "!"
                           +:+ JS.nl +:+ JS.nl +:+ "Available tools ("
                           +:+ pretty (length tools) +:+ "):" +:+ JS.nl
                           +:+ Handlers.tool_lines tools)
          end
    end.
Proof.
  intros Hargs Haccepts sdk uid run replied. subst run replied.
  rewrite (connect_handler_run E ctx serverId rest w Hargs Haccepts).
  cbv zeta. fold sdk.
  destruct (find _ (Handlers.servers E)) as [config |] eqn:Hfind.
  - apply find_some in Hfind as [_ Hid%bool_decide_eq_true].
    destruct (answer (MCPClient.connect sdk config) _) as [error | []];
      cbn [fst snd moved Handlers.mcpClient Handlers.sessionManager
           Handlers.happened].
    + split; [done |]. split; [done |]. split; [done |]. split; [done |].
      unfold outgoing. by rewrite omap_app.
    + split; [done |]. split; [done |]. split; [done |].
      split; [| split].
      * apply (active_of_run_op _ _ uid (OpAddActiveServer serverId)).
      * intros other Hother.
        apply (run_other _ _ uid other (OpAddActiveServer serverId)).
        done.
      * unfold outgoing. by rewrite omap_app.
  - cbn [fst snd moved Handlers.mcpClient Handlers.sessionManager
         Handlers.happened].
    split; [done |]. split; [done |]. split; [done |].
    unfold outgoing. by rewrite omap_app.
Qed.

Lemma connect_command_witness :
  active_of "7"
    (Handlers.sessionManager
       (Handlers.connect SampleBot.surroundings
          (SampleBot.from7 "/connect other") SampleBot.world).2)
  = ["pdf"; "other"].
Proof.
  pose proof (connect_command SampleBot.surroundings
                (SampleBot.from7 "/connect other") "other" []
                SampleBot.world) as Hrun.
  destruct Hrun as (_ & _ & _ & Hactive & _).
  - vm_compute. reflexivity.
  - intros ticks chat request. reflexivity.
  - refine (eq_trans Hactive _). vm_compute. reflexivity.
Defined.

Lemma autoConnect_each_run {Number : Type} (E : Handlers.Env Number)
    (configs : list Types.MCPServerConfig) (w : Handlers.World Number) :
  let sdk := Handlers.sdk E (length (Handlers.happened w)) in
  Handlers.autoConnect_each E configs w
  = (inr tt,
     moved w
       (run_mcp_calls (DoConnect sdk <$> auto_connected configs)
          (Handlers.mcpClient w))
       (Handlers.sessionManager w) [] 0).
Proof.
  cbv zeta. revert w. induction configs as [| config rest IH]; intros w.
  - cbn. by rewrite moved_nothing.
  - cbn [Handlers.autoConnect_each auto_connected List.filter].
    fold (auto_connected rest). rewrite eff_bind_run.
    destruct (default false (Types.autoConnect config)).
    + unfold Eff.try_catch. rewrite mcp_connect_run.
      set (client :=
             after (MCPClient.connect
                      (Handlers.sdk E (length (Handlers.happened w))) config)
               (Handlers.mcpClient w)).
      destruct (answer _ _) as [error | []]; unfold Eff.ret;
        rewrite IH, moved_moved;
        cbn [moved Handlers.mcpClient Handlers.sessionManager
             Handlers.happened];
        rewrite app_nil_r; reflexivity.
    + unfold Eff.ret. by rewrite IH.
Qed.

(** X28.  The loop of [start] over the configured servers never rejects:
    it is the [connect] calls for exactly the servers marked [autoConnect],
    in the order of the configuration, each one tried whatever became of
    the ones before, a failure being logged and passed over.  Nothing is
    sent to a chat and no session is touched. *)
Theorem autoConnect_survives_failures {Number : Type}
    (E : Handlers.Env Number) (w : Handlers.World Number) :
  let sdk := Handlers.sdk E (length (Handlers.happened w)) in
  let run := Handlers.autoConnect_each E (Handlers.servers E) w in
  run.1 = inr tt
  ∧ Handlers.mcpClient run.2
    = run_mcp_calls
        (DoConnect sdk <$> auto_connected (Handlers.servers E))
        (Handlers.mcpClient w)
  ∧ Handlers.sessionManager run.2 = Handlers.sessionManager w
  ∧ Handlers.happened run.2 = Handlers.happened w
  ∧ (registry_ok (Handlers.mcpClient w)
     → registry_ok (Handlers.mcpClient run.2)).
Proof.
  intros sdk run. subst run. rewrite autoConnect_each_run. fold sdk.
  cbn [fst snd moved Handlers.mcpClient Handlers.sessionManager
       Handlers.happened].
  rewrite app_nil_r. repeat (split; [done |]).
  generalize (DoConnect sdk <$> auto_connected (Handlers.servers E)).
  generalize (Handlers.mcpClient w). intros st calls. revert st.
  induction calls as [| call calls IH]; intros st Hok; [done |].
  apply IH. by apply registry_ok_call.
Qed.

(** X29.  A text message that starts with [/] is ignored by the text
    handler: nothing is sent and nothing changes.  While no tool is
    registered, any other text gets the hint to connect a server, the chat
    accepting the replies: no session is created or touched for the
    sender, the message does not enter any history, and the model is not
    asked. *)
Theorem text_before_any_tool {Number : Type}
    (E : Handlers.Env Number) (ctx : Handlers.Ctx)
    (w : Handlers.World Number) :
  let run := Handlers.text E ctx w in
  (JS.startsWith "/" (Handlers.message_text ctx) = true →
   run = (inr tt, w))
  ∧ (JS.startsWith "/" (Handlers.message_text ctx) = false →
     accepts E →
     MCPClient.getAllTools (Handlers.mcpClient w) = [] →
     run.1 = inr tt
     ∧ Handlers.sessionManager run.2 = Handlers.sessionManager w
     ∧ Handlers.mcpClient run.2 = Handlers.mcpClient w
     ∧ Handlers.happened run.2
       = Handlers.happened w
         ++ [Handlers.Sent (Handlers.chat_id ctx)
               (Handlers.sendChatAction "typing");
             Handlers.Sent (Handlers.chat_id ctx)
               (Handlers.reply
                  "No MCP servers connected. Please use /connect to connect to a server first."
                  None)]).
Proof.
  intros run. subst run. unfold Handlers.text. split.
  - by intros ->.
  - intros -> Haccepts Hnone. unfold Eff.try_catch.
    rewrite eff_bind_run, send_accepted by done.
    rewrite eff_bind_run. unfold Eff.gets.
    cbn [moved Handlers.mcpClient]. rewrite Hnone.
    rewrite bool_decide_eq_true_2 by done.
    rewrite send_accepted by done.
    cbn [fst snd moved Handlers.mcpClient Handlers.sessionManager
         Handlers.happened].
    by rewrite <- app_assoc.
Qed.

Lemma text_before_any_tool_witness :
  Handlers.text SampleBot.surroundings (SampleBot.from7 "/help")
    SampleBot.fresh
  = (inr tt, SampleBot.fresh)
  ∧ Handlers.sessionManager
      (Handlers.text SampleBot.surroundings (SampleBot.from7 "hello")
         SampleBot.fresh).2
    = SampleBot.two_users.
Proof.
  split.
  - apply (text_before_any_tool SampleBot.surroundings
             (SampleBot.from7 "/help") SampleBot.fresh).
    reflexivity.
  - apply (text_before_any_tool SampleBot.surroundings
             (SampleBot.from7 "hello") SampleBot.fresh).
    + reflexivity.
    + intros ticks chat request. reflexivity.
    + reflexivity.
Defined.

(** *** The text handler *)

Section TextFacts.
Context {Number : Type}.
Import Handlers.
Variable E : Env Number.
Implicit Types w : World Number.

Lemma quiet_step_refl w : quiet_step w w.
Proof.
  repeat split. exists []. by rewrite app_nil_r.
Qed.

Lemma quiet_step_trans w1 w2 w3 :
  quiet_step w1 w2 → quiet_step w2 w3 → quiet_step w1 w3.
Proof.
  intros (Hs & Hc & Hr & Ha & events & He)
         (Hs' & Hc' & Hr' & Ha' & events' & He').
  repeat split; try congruence.
  exists (events ++ events'). by rewrite He', He, app_assoc.
Qed.

Lemma frames_ret {A} (a : A) :
  frames (Eff.ret a : Eff.M (W := World Number) A).
Proof. intros w. apply quiet_step_refl. Qed.

Lemma frames_throw {A} (e : JS.Error) :
  frames (Eff.throw e : Eff.M (W := World Number) A).
Proof. intros w. apply quiet_step_refl. Qed.

Lemma frames_await {A} (answer : JS.Result A) :
  frames (Eff.await answer : Eff.M (W := World Number) A).
Proof. intros w. apply quiet_step_refl. Qed.

Lemma frames_gets {A} (f : World Number → A) :
  frames (Eff.gets f : Eff.M (W := World Number) A).
Proof. intros w. apply quiet_step_refl. Qed.

Lemma frames_bind {A B} (m : Eff.M (W := World Number) A)
    (k : A → Eff.M (W := World Number) B) :
  frames m → (∀ a, frames (k a)) → frames (Eff.bind m k).
Proof.
  intros Hm Hk w. unfold Eff.bind. specialize (Hm w).
  destruct (m w) as [[e | a] w']; [done |].
  apply (quiet_step_trans w w'); [done | apply Hk].
Qed.

Lemma frames_try_catch {A} (body : Eff.M (W := World Number) A)
    (handler : JS.Error → Eff.M (W := World Number) A) :
  frames body → (∀ e, frames (handler e)) →
  frames (Eff.try_catch body handler).
Proof.
  intros Hbody Hhandler w. unfold Eff.try_catch. specialize (Hbody w).
  destruct (body w) as [[e | a] w']; [| done].
  apply (quiet_step_trans w w'); [done | apply Hhandler].
Qed.

Lemma frames_send (ctx : Ctx) (request : Outgoing) :
  frames (send E ctx request).
Proof.
  intros w. rewrite send_run.
  destruct (telegram E _ _ _); cbn [snd]; unfold moved;
    (repeat split; cbn; [lia | | by eexists]);
    unfold asked; rewrite omap_app; cbn; by rewrite app_nil_r.
Qed.

Lemma frames_emit_info (text : string) :
  frames (Number := Number) (emit (LLMOrchestrator.Info text)).
Proof.
  intros w. unfold emit, Eff.modify, record.
  repeat split; cbn; [| by eexists].
  unfold asked. rewrite omap_app. cbn. by rewrite app_nil_r.
Qed.

Lemma frames_emit_failure (text : string) (error : JS.Error) :
  frames (Number := Number) (emit (LLMOrchestrator.Failure text error)).
Proof.
  intros w. unfold emit, Eff.modify, record.
  repeat split; cbn; [| by eexists].
  unfold asked. rewrite omap_app. cbn. by rewrite app_nil_r.
Qed.

Lemma asked_Called (calls : list MCPClient.ProviderCall) :
  asked (Number := Number) (Called <$> calls) = [].
Proof. induction calls as [| call calls IH]; [done | exact IH]. Qed.

Lemma frames_executeTool (toolName : string) (arguments : MCPClient.Args) :
  frames (mcp E (λ sdk, MCPClient.executeTool sdk toolName arguments)).
Proof.
  intros w. unfold mcp.
  pose proof (executeTool_run (sdk E (length (happened w))) toolName
                arguments (mcpClient w)) as Hrun.
  cbv zeta in Hrun.
  assert (MCPClient.this
            (MCPClient.run
               (MCPClient.executeTool (sdk E (length (happened w)))
                  toolName arguments) (mcpClient w)).2
          = mcpClient w) as Hthis.
  { rewrite Hrun.
    destruct (MCPClient.find_owner toolName _) as [serverId |]; [| done].
    destruct (JS.truthy serverId); [| done].
    destruct (JS.StrMap.get serverId _) as [client |]; [| done].
    by destruct (MCPClient.client_callTool _ client toolName arguments). }
  clear Hrun.
  destruct (MCPClient.run _ _) as [result mw]. cbn [snd] in *.
  repeat split; cbn; [done | | by eexists].
  unfold asked. rewrite omap_app.
  fold (asked (Number := Number) (Called <$> MCPClient.called mw)).
  by rewrite asked_Called, app_nil_r.
Qed.

Lemma frames_onToolCall (ctx : Ctx) (toolName : string)
    (arguments : MCPClient.Args) :
  frames (onToolCall E ctx toolName arguments).
Proof.
  unfold onToolCall. apply frames_bind; [apply frames_send |]. intros _.
  apply frames_bind; [apply frames_executeTool |]. intros result.
  apply frames_bind; [| intros _; apply frames_ret].
  intros w. unfold Eff.modify. repeat split. exists [].
  cbn. by rewrite app_nil_r.
Qed.

Lemma each_toolCall_frames (ctx : Ctx)
    (calls : list LLMOrchestrator.ToolCall) w :
  ∃ w',
    LLMOrchestrator.each_toolCall emit (onToolCall E ctx) calls w
    = (inr tt, w')
    ∧ quiet_step w w'.
Proof.
  revert w. induction calls as [| call rest IH]; intros w.
  - exists w. split; [done | apply quiet_step_refl].
  - cbn [LLMOrchestrator.each_toolCall]. rewrite eff_bind_run.
    pose proof (frames_emit_info
                  ("Tool call requested: "
                     +:+ LLMOrchestrator.toolName call) w) as H1.
    destruct (emit _ w) as [[e | []] w1] eqn:Hemit;
      [discriminate Hemit |]. cbn [snd] in H1.
    rewrite eff_bind_run.
    assert (∃ w2,
      Eff.try_catch
        (Eff.bind
           (onToolCall E ctx (LLMOrchestrator.toolName call)
              (LLMOrchestrator.args call))
           (λ _, emit (LLMOrchestrator.Info
                         ("Tool call " +:+ LLMOrchestrator.toolName call
                            +:+ " completed"))))
        (λ error,
           emit (LLMOrchestrator.Failure
                   ("Tool call " +:+ LLMOrchestrator.toolName call
                      +:+ " failed:") error)) w1
      = (inr tt, w2) ∧ quiet_step w1 w2) as (w2 & -> & H2).
    { unfold Eff.try_catch. rewrite eff_bind_run.
      pose proof (frames_onToolCall ctx (LLMOrchestrator.toolName call)
                    (LLMOrchestrator.args call) w1) as Hcall.
      destruct (onToolCall E ctx _ _ w1) as [[error | result] w1'];
        cbn [snd] in Hcall.
      - eexists. split; [reflexivity |].
        apply (quiet_step_trans w1 w1'); [done |].
        apply frames_emit_failure.
      - eexists. split; [reflexivity |].
        apply (quiet_step_trans w1 w1'); [done |].
        apply frames_emit_info. }
    destruct (IH w2) as (w' & Hrun & H3). exists w'.
    split; [exact Hrun |].
    exact (quiet_step_trans _ _ _ (quiet_step_trans _ _ _ H1 H2) H3).
Qed.

Lemma each_step_frames (ctx : Ctx) (steps : list LLMOrchestrator.Step) w :
  ∃ w',
    LLMOrchestrator.each_step emit (onToolCall E ctx) steps w = (inr tt, w')
    ∧ quiet_step w w'.
Proof.
  revert w. induction steps as [| step rest IH]; intros w.
  - exists w. split; [done | apply quiet_step_refl].
  - cbn [LLMOrchestrator.each_step]. rewrite eff_bind_run.
    assert (∃ w1,
      match LLMOrchestrator.toolCalls step with
      | Some calls =>
          if bool_decide (0 < length calls)%nat
          then LLMOrchestrator.each_toolCall emit (onToolCall E ctx) calls
          else Eff.ret tt
      | None => Eff.ret tt
      end w = (inr tt, w1) ∧ quiet_step w w1) as (w1 & -> & H1).
    { destruct (LLMOrchestrator.toolCalls step) as [calls |];
        [| exists w; split; [done | apply quiet_step_refl]].
      case_bool_decide; [apply each_toolCall_frames |].
      exists w. split; [done | apply quiet_step_refl]. }
    destruct (IH w1) as (w' & Hrun & H2). exists w'.
    split; [exact Hrun | exact (quiet_step_trans _ _ _ H1 H2)].
Qed.

Lemma each_item_frames (ctx : Ctx) (content : list MCPClient.ContentItem) w :
  ∃ w', each_item E ctx content w = (inr tt, w') ∧ quiet_step w w'.
Proof.
  revert w. induction content as [| item rest IH]; intros w.
  - exists w. split; [done | apply quiet_step_refl].
  - cbn [each_item]. rewrite eff_bind_run.
    assert (∃ w1,
      (if bool_decide (MCPClient.item_type item = "text") then
         Eff.try_catch
           (Eff.bind (Eff.await (JSON_parse E (MCPClient.item_text item)))
              (λ data,
                 Eff.bind
                   (Eff.gets (λ w0,
                      match TelegramBot.translatedFile data with
                      | Some file =>
                          JS.truthy file
                          && existsSync E (length (happened w0)) file
                      | None => false
                      end))
                   (λ exists_ : bool,
                      if exists_ then
                        send E ctx
                          (replyWithDocument
                             (default "" (TelegramBot.translatedFile data)))
                      else Eff.ret tt)))
           (λ err, Eff.ret tt)
       else Eff.ret tt) w = (inr tt, w1) ∧ quiet_step w w1)
      as (w1 & -> & H1).
    { case_bool_decide; [| exists w; split; [done | apply quiet_step_refl]].
      unfold Eff.try_catch. rewrite eff_bind_run. unfold Eff.await.
      destruct (JSON_parse E _) as [error | data];
        [exists w; split; [done | apply quiet_step_refl] |].
      rewrite eff_bind_run. unfold Eff.gets.
      destruct (match TelegramBot.translatedFile data with
                | Some file => _
                | None => false
                end);
        [| exists w; split; [done | apply quiet_step_refl]].
      pose proof (frames_send ctx
                    (replyWithDocument
                       (default "" (TelegramBot.translatedFile data))) w)
        as Hsend.
      destruct (send E ctx _ w) as [[error | []] w1]; cbn [snd] in Hsend;
        by exists w1. }
    destruct (IH w1) as (w' & Hrun & H2). exists w'.
    split; [exact Hrun | exact (quiet_step_trans _ _ _ H1 H2)].
Qed.

Lemma each_result_frames (ctx : Ctx)
    (results : list (string * MCPClient.ToolResult)) w :
  ∃ w', each_result E ctx results w = (inr tt, w') ∧ quiet_step w w'.
Proof.
  revert w. induction results as [| [toolName result] rest IH]; intros w.
  - exists w. split; [done | apply quiet_step_refl].
  - cbn [each_result]. rewrite eff_bind_run.
    destruct result as [content |].
    + destruct (each_item_frames ctx (default [] content) w)
        as (w1 & Hitems & H1).
      rewrite Hitems. destruct (IH w1) as (w' & Hrun & H2). exists w'.
      split; [exact Hrun | exact (quiet_step_trans _ _ _ H1 H2)].
    + apply IH.
Qed.

End TextFacts.

Section TextRun.
Context {Number : Type}.
Import Handlers.
Variable E : Env Number.
Implicit Types w : World Number.

Lemma now_run w :
  now E w
  = (inr (Date_now E (readings w)),
     moved w (mcpClient w) (sessionManager w) [] 1).
Proof. unfold now, moved. by rewrite app_nil_r, Nat.add_1_r. Qed.

Lemma asked_app (events events' : list (Event Number)) :
  asked (events ++ events') = asked events ++ asked events'.
Proof. apply omap_app. Qed.

Lemma outgoing_app (events events' : list (Event Number)) :
  outgoing (events ++ events') = outgoing events ++ outgoing events'.
Proof. apply omap_app. Qed.

(** [processQuery] inside the text handler, the provider being [google]. *)
Lemma processQuery_in_handler (ctx : Ctx) (query : string)
    (history : list Types.ConversationMessage) (tools : list Types.MCPTool)
    w :
  LLMOrchestrator.provider (llm E) = "google" →
  let options :=
    options_for (llm E) ((as_message <$> history) ++ [asks query]) tools in
  ∃ w',
    LLMOrchestrator.processQuery emit (generateText E) (llm E)
      (onToolCall E ctx) query history tools w
    = (match generateText E options with
       | inl error => inl error
       | inr response => inr (LLMOrchestrator.text response)
       end, w')
    ∧ sessionManager w' = sessionManager w
    ∧ mcpClient w' = mcpClient w
    ∧ readings w' = readings w
    ∧ asked (happened w') = asked (happened w) ++ [options]
    ∧ ∃ events, happened w' = happened w ++ events.
Proof.
  intros Hgoogle options.
  unfold LLMOrchestrator.processQuery, Eff.try_catch.
  rewrite eff_bind_run. unfold emit at 1. unfold Eff.modify at 1.
  cbv beta iota. rewrite eff_bind_run. unfold LLMOrchestrator.getModel.
  rewrite bool_decide_eq_true_2 by done.
  rewrite eff_bind_run. unfold emit at 1. unfold Eff.modify at 1.
  cbv beta iota. unfold Eff.ret at 1. cbv beta iota zeta.
  rewrite eff_bind_run. unfold LLMOrchestrator.request.
  rewrite eff_bind_run. unfold emit at 1. unfold Eff.modify at 1.
  cbv beta iota. unfold Eff.await.
  change (LLMOrchestrator.Build_GenerateOptions _ _ _ _ _ _ _)
    with options.
  set (w1 := record [Orchestrated (LLMOrchestrator.Generated options)] _).
  assert (sessionManager w1 = sessionManager w
          ∧ mcpClient w1 = mcpClient w
          ∧ readings w1 = readings w
          ∧ asked (happened w1) = asked (happened w) ++ [options]
          ∧ ∃ events, happened w1 = happened w ++ events)
    as (Hs & Hc & Hr & Ha & events & He).
  { subst w1. unfold record.
    cbn [happened sessionManager mcpClient readings]. repeat split.
    - rewrite !asked_app. cbn. by rewrite !app_nil_r.
    - eexists. by rewrite <- !app_assoc. }
  clearbody w1.
  destruct (generateText E options) as [error | response]; cbv beta iota.
  - rewrite eff_bind_run. unfold emit, Eff.modify, Eff.throw.
    cbv beta iota. eexists. split; [reflexivity |].
    unfold record. cbn [snd happened sessionManager mcpClient readings].
    rewrite Hs, Hc, Hr, asked_app, Ha, He. cbn.
    rewrite app_nil_r. repeat split. eexists. by rewrite <- app_assoc.
  - rewrite eff_bind_run. unfold emit at 1. unfold Eff.modify at 1.
    cbv beta iota. rewrite eff_bind_run.
    match goal with
    | |- context [LLMOrchestrator.each_step _ _ _ ?w2] =>
        destruct (each_step_frames E ctx (LLMOrchestrator.steps response) w2)
          as (w' & Hrun & Hs' & Hc' & Hr' & Ha' & events' & He')
    end.
    rewrite Hrun. unfold Eff.ret. exists w'. split; [reflexivity |].
    unfold record in *.
    cbn [snd happened sessionManager mcpClient readings] in *.
    rewrite Hs', Hc', Hr', Ha', He', Hs, Hc, Hr, asked_app, Ha, He. cbn.
    rewrite app_nil_r. repeat split. eexists. by rewrite <- !app_assoc.
Qed.

Lemma history_of_getSession (created time : Z) (uid : string)
    (store : SessionManager.t) :
  history_of uid (SessionManager.getSession created time uid store).2
  = history_of uid store.
Proof.
  unfold history_of at 1. rewrite getSession_lookup.
  apply getSession_history.
Qed.

Lemma text_run (ctx : Ctx) w :
  JS.startsWith "/" (message_text ctx) = false →
  accepts E →
  MCPClient.getAllTools (mcpClient w) ≠ [] →
  LLMOrchestrator.provider (llm E) = "google" →
  let uid := userId ctx in
  let query := message_text ctx in
  let tools := MCPClient.getAllTools (mcpClient w) in
  let reads :=
    match sessionManager w !! uid with None => 2%nat | Some _ => 1%nat end in
  let userMessage :=
    {| Types.role := Types.user;
       Types.content := query;
       Types.timestamp := Date_now E (readings w + reads) |} in
  let history :=
    JS.slice_last 20 (history_of uid (sessionManager w) ++ [userMessage]) in
  let options :=
    options_for (llm E) ((as_message <$> history) ++ [asks query]) tools in
  ∃ w',
    text E ctx w = (inr tt, w')
    ∧ mcpClient w' = mcpClient w
    ∧ asked (happened w') = asked (happened w) ++ [options]
    ∧ (∀ other, other ≠ uid →
         sessionManager w' !! other = sessionManager w !! other)
    ∧ match generateText E options with
      | inl error =>
          history_of uid (sessionManager w') = history
          ∧ readings w' = (readings w + reads + 2)%nat
          ∧ last (outgoing (happened w'))
            = Some (reply ("❌ Error: " +:+ JS.message error) None)
      | inr response =>
          history_of uid (sessionManager w')
          = JS.slice_last 20
              (history
                 ++ [{| Types.role := Types.assistant;
                        Types.content := LLMOrchestrator.text response;
                        Types.timestamp :=
                          Date_now E (readings w + reads + 2) |}])
          ∧ readings w' = (readings w + reads + 4)%nat
          ∧ reply (LLMOrchestrator.text response) (Some "Markdown")
            ∈ outgoing (happened w')
      end.
Proof.
  intros Hcmd Haccepts Htools Hgoogle uid query tools reads userMessage
    history options.
  unfold text. rewrite Hcmd. unfold Eff.try_catch.
  rewrite eff_bind_run, send_accepted by done.
  rewrite eff_bind_run. unfold Eff.gets at 1. cbv beta iota.
  cbn [moved mcpClient]. fold tools.
  rewrite bool_decide_eq_false_2
    by (intros Hlen%nil_length_inv; by apply Htools).
  fold uid query.
  assert (∃ created time,
            sessions E uid
              (λ created time s,
                 (SessionManager.getSession created time uid s).2)
              (moved w (mcpClient w) (sessionManager w)
                 [Sent (chat_id ctx) (sendChatAction "typing")] 0)
            = (inr tt,
               moved w (mcpClient w)
                 (SessionManager.getSession created time uid
                    (sessionManager w)).2
                 [Sent (chat_id ctx) (sendChatAction "typing")] reads))
    as (created1 & time1 & Hfirst).
  { rewrite sessions_run. cbn [moved sessionManager mcpClient readings].
    subst reads.
    destruct (sessionManager w !! uid); do 2 eexists;
      unfold moved; cbn [happened readings toolResults];
      by rewrite app_nil_r, Nat.add_0_r. }
  rewrite eff_bind_run, Hfirst, eff_bind_run, now_run.
  clear Hfirst. clearbody reads.
  set (store1 :=
         (SessionManager.getSession created1 time1 uid (sessionManager w)).2).
  rewrite eff_bind_run.
  cbn [moved mcpClient sessionManager happened readings toolResults].
  fold userMessage.
  assert (is_Some (store1 !! uid)) as [session1 Hheld1].
  { subst store1. rewrite getSession_lookup. by eexists. }
  rewrite (sessions_run_held E uid _ _ session1) by exact Hheld1.
  rewrite eff_bind_run.
  unfold Eff.modify at 1. cbv beta iota.
  rewrite eff_bind_run. unfold Eff.gets at 1. cbv beta iota.
  cbn [moved mcpClient sessionManager happened readings toolResults].
  set (store2 := SessionManager.addMessage _ _ uid userMessage store1).
  assert (history_of uid store2 = history) as Hhistory.
  { subst store2 history. rewrite addMessage_history.
    subst store1. by rewrite history_of_getSession. }
  assert (∀ other, other ≠ uid → store2 !! other = sessionManager w !! other)
    as Hothers.
  { intros other Hother. subst store2.
    etransitivity;
      [apply (run_other _ _ uid other (OpAddMessage userMessage)); done |].
    subst store1. by apply getSession_other. }
  assert (is_Some (store2 !! uid)) as [session2 Hheld2].
  { subst store2.
    pose proof (run_op_lookup (Date_now E (readings w + reads + 1))
                  (Date_now E (readings w + reads + 1)) uid
                  (OpAddMessage userMessage) store1) as Hop.
    simpl in Hop. rewrite Hop. by eexists. }
  change (match store2 !! uid with
          | Some session => Types.conversationHistory session
          | None => []
          end) with (history_of uid store2).
  rewrite Hhistory, eff_bind_run.
  match goal with
  | |- context [LLMOrchestrator.processQuery _ _ _ _ _ _ _ ?w4] =>
      destruct (processQuery_in_handler ctx query history tools w4 Hgoogle)
        as (w5 & Hrun & Hs5 & Hc5 & Hr5 & Ha5 & events5 & He5)
  end.
  fold options in Hrun, Ha5. rewrite Hrun.
  cbn [happened sessionManager mcpClient readings] in Hs5, Hc5, Hr5, Ha5, He5.
  clear Hrun.
  destruct (generateText E options) as [error | response].
  - rewrite send_accepted by done. eexists. split; [reflexivity |].
    cbn [moved mcpClient sessionManager happened].
    rewrite Hs5, Hc5. split; [done |]. split.
    { rewrite asked_app, Ha5, !asked_app. cbn. by rewrite !app_nil_r. }
    split; [exact Hothers |]. split; [exact Hhistory |].
    split; [cbn [moved readings]; rewrite Hr5; lia |].
    rewrite outgoing_app. unfold outgoing at 2. cbn [omap].
    apply last_snoc.
  - rewrite eff_bind_run, now_run, eff_bind_run.
    rewrite (sessions_run_held E uid _ _ session2)
      by (cbn [moved sessionManager]; by rewrite Hs5).
    rewrite eff_bind_run, send_accepted by done.
    rewrite eff_bind_run. unfold Eff.gets at 1. cbv beta iota.
    match goal with
    | |- context [each_result E ctx ?results ?w6] =>
        destruct (each_result_frames E ctx results w6)
          as (w' & Hrun & Hs' & Hc' & Hr' & Ha' & events' & He')
    end.
    rewrite Hrun. exists w'. split; [reflexivity |].
    cbn [moved mcpClient sessionManager happened readings]
      in Hs', Hc', Hr', Ha', He'.
    rewrite Hs', Hc', Hr', Ha', He', Hs5, Hc5, Hr5. split; [done |]. split.
    { rewrite !asked_app, Ha5, !asked_app. cbn. by rewrite !app_nil_r. }
    split.
    { intros other Hother.
      etransitivity;
        [apply (run_other _ _ uid other (OpAddMessage _)); done |].
      by apply Hothers. }
    split.
    { rewrite addMessage_history, Hhistory.
      by replace (readings w + reads + 1 + 1)%nat
        with (readings w + reads + 2)%nat by lia. }
    split; [lia |].
    rewrite !outgoing_app. apply elem_of_app. left. apply elem_of_app.
    right. apply list_elem_of_here.
Qed.

End TextRun.

Lemma slice_last_ends {A} (n : nat) (l : list A) (x : A) :
  ∃ earlier, JS.slice_last (S n) (l ++ [x]) = earlier ++ [x].
Proof.
  unfold JS.slice_last. rewrite length_app. simpl.
  exists (drop (length l + 1 - S n) l). apply drop_app_le. lia.
Qed.

(** X30.  A text message that is not a command, the chat accepting the
    requests, some tool being registered and the provider being [google].
    The handler stores the message in the history of the sender before it
    asks the model, and gives the stored history together with the message
    to [processQuery]: the one request to the model therefore ends with the
    message twice.  The time stamp of the stored message is the reading of
    the clock that follows the readings of [getSession], which are two for
    a sender without a session and one for a sender with a session.  When
    the request fails, the sender gets the message of the error, and the
    message stays in the history without an answer.  When it succeeds, the
    text of the response is appended to the history as the message of the
    assistant, its time stamp being the second reading after that of the
    message of the sender, the history is cut to its last 20 entries, and
    the text is sent with the Markdown mode.  In both cases the handler
    resolves and the sessions of the other users are not touched. *)
Theorem text_asks_with_the_query_twice {Number : Type}
    (E : Handlers.Env Number) (ctx : Handlers.Ctx)
    (w : Handlers.World Number) :
  JS.startsWith "/" (Handlers.message_text ctx) = false →
  accepts E →
  MCPClient.getAllTools (Handlers.mcpClient w) ≠ [] →
  LLMOrchestrator.provider (Handlers.llm E) = "google" →
  let uid := Handlers.userId ctx in
  let query := Handlers.message_text ctx in
  let tools := MCPClient.getAllTools (Handlers.mcpClient w) in
  let reads :=
    match Handlers.sessionManager w !! uid with
    | None => 2%nat
    | Some _ => 1%nat
    end in
  let userMessage :=
    {| Types.role := Types.user;
       Types.content := query;
       Types.timestamp :=
         Handlers.Date_now E (Handlers.readings w + reads) |} in
  let history :=
    JS.slice_last 20
      (history_of uid (Handlers.sessionManager w) ++ [userMessage]) in
  let options :=
    options_for (Handlers.llm E)
      ((as_message <$> history) ++ [asks query]) tools in
  let run := Handlers.text E ctx w in
  run.1 = inr tt
  ∧ asked (Handlers.happened run.2)
    = asked (Handlers.happened w) ++ [options]
  ∧ (∃ earlier,
       LLMOrchestrator.opt_messages options
       = earlier ++ [asks query; asks query])
  ∧ (∀ other, other ≠ uid →
       Handlers.sessionManager run.2 !! other
       = Handlers.sessionManager w !! other)
  ∧ match Handlers.generateText E options with
    | inl error =>
        history_of uid (Handlers.sessionManager run.2) = history
        ∧ Handlers.readings run.2 = (Handlers.readings w + reads + 2)%nat
        ∧ last (outgoing (Handlers.happened run.2))
          = Some (Handlers.reply ("❌ Error: " +:+ JS.message error) None)
    | inr response =>
        history_of uid (Handlers.sessionManager run.2)
        = JS.slice_last 20
            (history
               ++ [{| Types.role := Types.assistant;
                      Types.content := LLMOrchestrator.text response;
                      Types.timestamp :=
                        Handlers.Date_now E
                          (Handlers.readings w + reads + 2) |}])
        ∧ Handlers.readings run.2 = (Handlers.readings w + reads + 4)%nat
        ∧ Handlers.reply (LLMOrchestrator.text response) (Some "Markdown")
          ∈ outgoing (Handlers.happened run.2)
    end.
Proof.
  intros Hcmd Haccepts Htools Hgoogle uid query tools reads userMessage
    history options run.
  destruct (text_run E ctx w Hcmd Haccepts Htools Hgoogle)
    as (w' & Hrun & _ & Hasked & Hothers & Hcases).
  subst run. rewrite Hrun. cbn [fst snd].
  split; [done |]. split; [exact Hasked |]. split.
  { destruct (slice_last_ends 19
                (history_of uid (Handlers.sessionManager w)) userMessage)
      as (earlier & Hends).
    exists (as_message <$> earlier).
    unfold options, options_for. cbn [LLMOrchestrator.opt_messages].
    unfold history. rewrite Hends, fmap_app, <- app_assoc. reflexivity. }
  split; [exact Hothers | exact Hcases].
Qed.

(** A sender without a session: the two readings of [getSession] are 5000
    and 5001, the message is stamped 5002 and the answer 5004. *)
Lemma text_asks_with_the_query_twice_witness :
  SampleBot.two_users !! "9" = None
  ∧ Types.timestamp
      <$> history_of "9"
            (Handlers.sessionManager
               (Handlers.text SampleBot.surroundings (SampleBot.from9 "hello")
                  SampleBot.world).2)
    = [5002; 5004]
  ∧ LLMOrchestrator.opt_messages
      <$> asked
            (Handlers.happened
               (Handlers.text SampleBot.surroundings
                  (SampleBot.from9 "hello") SampleBot.world).2)
    = [[asks "hello"; asks "hello"]].
Proof.
  split; [reflexivity |].
  destruct (text_asks_with_the_query_twice SampleBot.surroundings
              (SampleBot.from9 "hello") SampleBot.world)
    as (_ & Hasked & _ & _ & Hhistory & _).
  - reflexivity.
  - intros ticks chat request. reflexivity.
  - vm_compute. discriminate.
  - reflexivity.
  - split.
    + refine (eq_trans (f_equal (fmap Types.timestamp) Hhistory) _).
      vm_compute. reflexivity.
    + rewrite Hasked. vm_compute. reflexivity.
Defined.
